(** * Lazy band-pass filter over chunked recordings

    A shallow embedding of [spiketoolkit/preprocessing/bandpass_filter.py]:
    the spectral kernel [_create_filter_kernel], the view
    [BandpassFilterRecording] with [filter_chunk] and [_do_filter], and the
    factory [bandpass_filter].

    Conventions.
    - Python floats and numpy float arrays are real numbers and lists of
      real numbers: arithmetic is exact, rounding is not modelled.
    - Division on the reals is total; the [inf] and [nan] that numpy
      produces for a division by zero inside an array expression are
      outside the model.
    - Python exceptions are the [Raise] branch of [result].
    - [scipy.special.erf], [scipy.signal.butter], [numpy.roots] and
      [scipy.signal.filtfilt] are library functions; they are parameters of
      the sections that use them, with the properties of theirs that a proof
      relies on stated as hypotheses. *)

From Stdlib Require Import String Reals Lra Lia ZArith Bool List.
Import ListNotations.

Open Scope R_scope.

(** ** Exceptions *)

Inductive exn : Type :=
| ValueError (msg : string)
| AssertionError (msg : string)
| UnboundLocalError (var : string)
| AttributeError (attr : string)
| ZeroDivisionError.

Inductive result (A : Type) : Type :=
| Ok (a : A)
| Raise (e : exn).

Arguments Ok {A} a.
Arguments Raise {A} e.

Definition bind {A B : Type} (r : result A) (k : A -> result B) : result B :=
  match r with
  | Ok a => k a
  | Raise e => Raise e
  end.

Notation "x <- r ;; k" := (bind r (fun x => k))
  (at level 61, r at next level, right associativity).

(** ** Arrays *)

(** [np.arange(0, N)]: empty when [N <= 0]. *)
Definition arange (N : Z) : list Z := map Z.of_nat (seq 0 (Z.to_nat N)).

(** Element-wise combination of two arrays of the same shape. *)
Fixpoint map2 {A B C : Type} (f : A -> B -> C) (xs : list A) (ys : list B) : list C :=
  match xs, ys with
  | x :: xs', y :: ys' => f x y :: map2 f xs' ys'
  | _, _ => []
  end.

(** ** The spectral kernel *)

Section Kernel.

(** [scipy.special.erf]. *)
Variable erf : R -> R.

(** [_create_filter_kernel(N, sampling_frequency, freq_min, freq_max, freq_wid)].
    [N] is a Python int and [sampling_frequency] a Python float, so the two
    scalar divisions raise on a zero divisor; the divisions inside the array
    expressions do not raise. *)
Definition _create_filter_kernel (N : Z)
    (sampling_frequency freq_min freq_max freq_wid : R) : result (list R) :=
  if Req_dec_T sampling_frequency 0 then Raise ZeroDivisionError else
  let T := IZR N / sampling_frequency in
  if Req_dec_T T 0 then Raise ZeroDivisionError else
  let df := 1 / T in
  let relwid := 3 in
  let k_inds := arange N in
  let k_inds :=
    map (fun k => if Rle_dec (IZR k) ((IZR N + 1) / 2) then k else (k - N)%Z) k_inds in
  let fgrid := map (fun k => df * IZR k) k_inds in
  let absf := map Rabs fgrid in
  let val := map (fun _ => 1) fgrid in
  let val :=
    if Req_dec_T freq_min 0 then val
    else
      let val :=
        map2 (fun v f => v * (1 + erf (relwid * (f - freq_min) / freq_min)) / 2) val absf in
      map2 (fun k v => if Rlt_dec (Rabs (IZR k)) (1 / 10) then 0 else v) k_inds val in
  let val :=
    if Req_dec_T freq_max 0 then val
    else map2 (fun v f => v * (1 - erf ((f - freq_max) / freq_wid)) / 2) val absf in
  Ok (map sqrt val).

End Kernel.

(** ** Two-dimensional arrays

    A chunk is a numpy array of shape (channels, samples). The number of
    samples is kept beside the rows, as numpy does, so that it is known for
    an array with no rows. *)

Record array2 (A : Type) : Type := mk_array2 {
  rows : list (list A);
  width : nat
}.

Arguments mk_array2 {A} rows width.
Arguments rows {A} a.
Arguments width {A} a.

(** [a.shape[0]]. *)
Definition shape0 {A : Type} (a : array2 A) : nat := length (rows a).

(** Every row has [width a] entries. *)
Definition well_shaped {A : Type} (a : array2 A) : Prop :=
  Forall (fun r => length r = width a) (rows a).

(** Python's normalisation of a slice bound against a length: a negative
    bound counts from the end, and the result is clamped to [0, len]. *)
Definition slice_bound (i : Z) (len : nat) : nat :=
  if (i <? 0)%Z then Z.to_nat (Z.max (i + Z.of_nat len) 0)
  else Nat.min (Z.to_nat i) len.

(** [r[lo:hi]]. *)
Definition slice {A : Type} (r : list A) (lo hi : Z) : list A :=
  let lo' := slice_bound lo (length r) in
  let hi' := slice_bound hi (length r) in
  firstn (hi' - lo') (skipn lo' r).

(** [a[:, lo:hi]]. *)
Definition slice_cols {A : Type} (a : array2 A) (lo hi : Z) : array2 A :=
  mk_array2 (map (fun r => slice r lo hi) (rows a))
            (slice_bound hi (width a) - slice_bound lo (width a)).

(** ** The discrete Fourier transform of real data

    [numpy.fft.rfft] and [numpy.fft.irfft] along the last axis. A complex
    number is a pair (real part, imaginary part). *)

Definition C : Type := (R * R)%type.

Definition Cabs (z : C) : R := sqrt (fst z * fst z + snd z * snd z).

(** Product of a spectral coefficient with a real gain. *)
Definition Cscale (z : C) (g : R) : C := (fst z * g, snd z * g).

(** [bigsum n f] is f 0 + ... + f (n - 1). *)
Fixpoint bigsum (n : nat) (f : nat -> R) : R :=
  match n with
  | O => 0
  | S n' => bigsum n' f + f n'
  end.

Definition angle (n j k : nat) : R := 2 * PI * INR j * INR k / INR n.

(** One row of [rfft]: bins 0 .. n/2 of the transform of [n] real samples. *)
Definition rfft_row (x : list R) : list C :=
  let n := length x in
  map (fun k =>
         (bigsum n (fun j => nth j x 0 * cos (angle n j k)),
          - bigsum n (fun j => nth j x 0 * sin (angle n j k))))
      (seq 0 (n / 2 + 1)).

(** Weight of bin [k] among [m] one-sided bins: the first and the last bin
    stand for themselves, every other bin also for its conjugate. *)
Definition hermitian_weight (m k : nat) : R :=
  if orb (k =? 0)%nat (k =? m - 1)%nat then 1 else 2.

(** One row of [irfft] with the default output length 2 (m - 1). *)
Definition irfft_row (X : list C) : list R :=
  let m := length X in
  let n := (2 * (m - 1))%nat in
  map (fun j =>
         bigsum m (fun k =>
           hermitian_weight m k *
           (fst (nth k X (0, 0)) * cos (angle n j k)
            - snd (nth k X (0, 0)) * sin (angle n j k))) / INR n)
      (seq 0 n).

Definition fft_error : exn :=
  ValueError "Invalid number of FFT data points (0) specified.".

(** [np.fft.rfft(a)]: raises on a transform of length 0. *)
Definition rfft (a : array2 R) : result (array2 C) :=
  if (width a =? 0)%nat then Raise fft_error
  else Ok (mk_array2 (map rfft_row (rows a)) (width a / 2 + 1)).

(** [np.fft.irfft(a)]: raises when the output length is 0. *)
Definition irfft (a : array2 C) : result (array2 R) :=
  if (2 * (width a - 1) =? 0)%nat then Raise fft_error
  else Ok (mk_array2 (map irfft_row (rows a)) (2 * (width a - 1))).

(** [a * np.tile(kernel, (M, 1))] for [M = a.shape[0]]. *)
Definition mul_tile (a : array2 C) (kernel : list R) : array2 C :=
  mk_array2 (map (fun r => map2 Cscale r kernel) (rows a)) (width a).

(** The spectral filter on one row of a chunk of [n] samples: transform,
    multiply by the first [n / 2 + 1] kernel entries, transform back. *)
Definition filter_row (kernel : list R) (n : nat) (x : list R) : list R :=
  irfft_row (map2 Cscale (rfft_row x) (firstn (n / 2 + 1) kernel)).

(** The weight the spectral filter gives, in output sample [j], to input
    sample [l] of a row of [n] samples (up to the factor [1 / n]). *)
Definition circ_kernel (kernel : list R) (n j l : nat) : R :=
  bigsum (n / 2 + 1) (fun k =>
    hermitian_weight (n / 2 + 1) k * nth k kernel 0
    * cos (angle n j k - angle n l k)).

(** ** The underlying recording *)

(** What the filter consumes of a [RecordingExtractor]. [get_traces] takes
    the start frame, the end frame and the channel ids. *)
Record RecordingExtractor : Type := {
  get_sampling_frequency : R;
  get_num_frames : Z;
  get_channel_ids : list Z;
  get_traces : Z -> Z -> list Z -> array2 R;
  make_serialized_dict : string
}.

(** ** The filtered view *)

(** The keyword arguments kept in [self._kwargs]. *)
Record kwargs : Type := {
  kw_recording : string;
  kw_freq_min : R;
  kw_freq_max : R;
  kw_freq_wid : R;
  kw_filter_type : string;
  kw_order : Z;
  kw_chunk_size : option Z;
  kw_cache_chunks : bool
}.

(** The attributes the parent class [FilterRecording] keeps. *)
Record FilterRecording : Type := {
  fr_recording : RecordingExtractor;
  fr_chunk_size : option Z;
  fr_cache_chunks : bool;
  fr_dtype : option string
}.

(** Modelled from the spec: [FilterRecording.__init__], the constructor of
    the parent class, is not among the sources. The spec has the view own a
    reference to the one underlying recording it wraps and hold no cache of
    its own unless the caller opts into a chunk-caching policy; the
    constructor stores its arguments and does not fail. *)
Definition FilterRecording__init__ (recording : RecordingExtractor)
    (chunk_size : option Z) (cache_chunks : bool) (dtype : option string)
    : FilterRecording :=
  {| fr_recording := recording;
     fr_chunk_size := chunk_size;
     fr_cache_chunks := cache_chunks;
     fr_dtype := dtype |}.

(** The attributes of a constructed [BandpassFilterRecording]. [_b] and [_a]
    exist only on a view built with [filter_type = 'butter']; [parent] holds
    what the parent constructor stored. *)
Record BandpassFilterRecording : Type := {
  _freq_min : R;
  _freq_max : R;
  _freq_wid : R;
  _type : string;
  _order : Z;
  _chunk_size : option Z;
  _b_a : option (list R * list R);
  parent : FilterRecording;
  is_filtered : bool;
  _kwargs : kwargs
}.

(** [self._recording]. *)
Definition _recording (self : BandpassFilterRecording) : RecordingExtractor :=
  fr_recording (parent self).

(** [np.all(np.abs(r) < 1)]. *)
Definition all_inside_unit_circle (r : list C) : bool :=
  forallb (fun z => if Rlt_dec (Cabs z) 1 then true else false) r.

Section View.

(** [scipy.special.erf]. *)
Variable erf : R -> R.

(** [scipy.signal.butter(order, band, btype='bandpass')]: the numerator and
    the denominator of the design; it raises on a band it refuses. *)
Variable butter : Z -> list R -> result (list R * list R).

(** [numpy.roots]. *)
Variable roots : list R -> list C.

(** [scipy.signal.filtfilt(b, a, x)] on one row. *)
Variable filtfilt : list R -> list R -> list R -> list R.

(** [FilterRecording._read_chunk(i1, i2, channel_ids)], of the parent class:
    the raw samples of the frames [i1, i2) of the underlying recording. *)
Variable _read_chunk : RecordingExtractor -> Z -> Z -> list Z -> result (array2 R).

(** [BandpassFilterRecording.__init__]. *)
Definition __init__ (recording : RecordingExtractor)
    (freq_min freq_max freq_wid : R) (filter_type : string) (order : Z)
    (chunk_size : option Z) (cache_chunks : bool) (dtype : option string)
    : result BandpassFilterRecording :=
  b_a <- (if String.eqb filter_type "butter" then
            let fn := get_sampling_frequency recording / 2 in
            let band := [freq_min / fn; freq_max / fn] in
            b_a <- butter order band ;;
            if negb (all_inside_unit_circle (roots (snd b_a)))
            then Raise (ValueError "Filter is not stable")
            else Ok (Some b_a)
          else Ok None) ;;
  Ok {| _freq_min := freq_min;
        _freq_max := freq_max;
        _freq_wid := freq_wid;
        _type := filter_type;
        _order := order;
        _chunk_size := chunk_size;
        _b_a := b_a;
        parent := FilterRecording__init__ recording chunk_size cache_chunks dtype;
        is_filtered := true;
        _kwargs := {| kw_recording := make_serialized_dict recording;
                      kw_freq_min := freq_min;
                      kw_freq_max := freq_max;
                      kw_freq_wid := freq_wid;
                      kw_filter_type := filter_type;
                      kw_order := order;
                      kw_chunk_size := chunk_size;
                      kw_cache_chunks := cache_chunks |} |}.

(** [BandpassFilterRecording._do_filter]. When [self._type] is neither
    ['fft'] nor ['butter'] no branch binds [chunk_filtered] and the [return]
    raises. *)
Definition _do_filter (self : BandpassFilterRecording) (chunk : array2 R)
    : result (array2 R) :=
  let sampling_frequency := get_sampling_frequency (_recording self) in
  let M := shape0 chunk in
  let chunk2 := chunk in
  if String.eqb (_type self) "fft" then
    chunk_fft <- rfft chunk2 ;;
    kernel <- _create_filter_kernel erf (Z.of_nat (width chunk2)) sampling_frequency
                (_freq_min self) (_freq_max self) (_freq_wid self) ;;
    let kernel := firstn (width chunk_fft) kernel in
    let chunk_fft := mul_tile chunk_fft kernel in
    irfft chunk_fft
  else if String.eqb (_type self) "butter" then
    match _b_a self with
    | Some (b, a) => Ok (mk_array2 (map (filtfilt b a) (rows chunk2)) (width chunk2))
    | None => Raise (AttributeError "_b")
    end
  else Raise (UnboundLocalError "chunk_filtered").

(** [BandpassFilterRecording.filter_chunk]. *)
Definition filter_chunk (self : BandpassFilterRecording)
    (start_frame end_frame : Z) (channel_ids : list Z) : result (array2 R) :=
  let padding := 3000%Z in
  let i1 := (start_frame - padding)%Z in
  let i2 := (end_frame + padding)%Z in
  padded_chunk <- _read_chunk (_recording self) i1 i2 channel_ids ;;
  filtered_padded_chunk <- _do_filter self padded_chunk ;;
  Ok (slice_cols filtered_padded_chunk (start_frame - i1) (end_frame - i1)).

(** The body of [filter_chunk] with the guard band as an argument, to state
    what does not depend on its value. *)
Definition filter_chunk_padded (padding : Z) (self : BandpassFilterRecording)
    (start_frame end_frame : Z) (channel_ids : list Z) : result (array2 R) :=
  let i1 := (start_frame - padding)%Z in
  let i2 := (end_frame + padding)%Z in
  padded_chunk <- _read_chunk (_recording self) i1 i2 channel_ids ;;
  filtered_padded_chunk <- _do_filter self padded_chunk ;;
  Ok (slice_cols filtered_padded_chunk (start_frame - i1) (end_frame - i1)).

(** [spikeextractors.CacheRecordingExtractor(recording, chunk_size)], with
    [CacheT] the type of the extractor it builds. *)
Variable CacheT : Type.
Variable CacheRecordingExtractor : BandpassFilterRecording -> option Z -> result CacheT.

(** What [bandpass_filter] returns: the view, or the view wrapped in the
    whole-recording cache. *)
Inductive filter_recording : Type :=
| Lazy (bpf_recording : BandpassFilterRecording)
| Cached (cache : CacheT).

(** [bandpass_filter]. *)
Definition bandpass_filter (recording : RecordingExtractor)
    (freq_min freq_max freq_wid : R) (filter_type : string) (order : Z)
    (chunk_size : option Z) (cache_to_file cache_chunks : bool) (dtype : option string)
    : result filter_recording :=
  _ <- (if cache_to_file then
          if negb cache_chunks then Ok tt
          else Raise (AssertionError "if cache_to_file cache_chunks should be False")
        else Ok tt) ;;
  bpf_recording <- __init__ recording freq_min freq_max freq_wid filter_type order
                     chunk_size cache_chunks dtype ;;
  if cache_to_file then
    cache <- CacheRecordingExtractor bpf_recording chunk_size ;;
    Ok (Cached cache)
  else Ok (Lazy bpf_recording).

End View.

(** ** The kernel in the words of its specification *)

Section KernelSpec.

Variable erf : R -> R.

(** Bin index [k] after DFT folding: indices past the midpoint stand for
    negative frequencies. *)
Definition folded_index (N k : Z) : Z :=
  if Rle_dec (IZR k) ((IZR N + 1) / 2) then k else (k - N)%Z.

(** The frequency of bin [k]: [k / T] up to the midpoint, [(k - N) / T]
    past it, for [T = N / fs]. *)
Definition bin_frequency (N : Z) (fs : R) (k : Z) : R :=
  let T := IZR N / fs in
  if Rle_dec (IZR k) ((IZR N + 1) / 2) then IZR k / T else IZR (k - N) / T.

(** The exact DC bin: [|k| < 0.1] for the folded index. *)
Definition is_dc_bin (N k : Z) : Prop := Rabs (IZR (folded_index N k)) < 1 / 10.

(** High-pass factor, applied only when [freq_min <> 0], DC forced to 0. *)
Definition high_pass_factor (N : Z) (freq_min f : R) (k : Z) : R :=
  if Req_dec_T freq_min 0 then 1
  else if Rlt_dec (Rabs (IZR (folded_index N k))) (1 / 10) then 0
  else (1 + erf (3 * (Rabs f - freq_min) / freq_min)) / 2.

(** Low-pass factor, applied only when [freq_max <> 0]. *)
Definition low_pass_factor (freq_max freq_wid f : R) : R :=
  if Req_dec_T freq_max 0 then 1
  else (1 - erf ((Rabs f - freq_max) / freq_wid)) / 2.

(** The gain of bin [k]: the square root of the product of the factors. *)
Definition spec_gain (N : Z) (fs freq_min freq_max freq_wid : R) (k : Z) : R :=
  let f := bin_frequency N fs k in
  sqrt (high_pass_factor N freq_min f k * low_pass_factor freq_max freq_wid f).

(** The value [val] holds at the entry of index [k] before the final
    [np.sqrt], as the code computes it. *)
Definition power_gain (N : Z) (fs freq_min freq_max freq_wid : R) (k : Z) : R :=
  let kf := folded_index N k in
  let absf := Rabs (1 / (IZR N / fs) * IZR kf) in
  let v := 1 in
  let v :=
    if Req_dec_T freq_min 0 then v
    else if Rlt_dec (Rabs (IZR kf)) (1 / 10) then 0
         else v * (1 + erf (3 * (absf - freq_min) / freq_min)) / 2 in
  let v :=
    if Req_dec_T freq_max 0 then v
    else v * (1 - erf ((absf - freq_max) / freq_wid)) / 2 in
  v.

(** The entry of index [k] of the returned kernel. *)
Definition gain (N : Z) (fs freq_min freq_max freq_wid : R) (k : Z) : R :=
  sqrt (power_gain N fs freq_min freq_max freq_wid k).

End KernelSpec.

(** The kernel [_do_filter] builds for a chunk of [n] samples. *)
Definition kernel_of (erf : R -> R) (self : BandpassFilterRecording) (n : nat) : list R :=
  map (gain erf (Z.of_nat n) (get_sampling_frequency (_recording self))
         (_freq_min self) (_freq_max self) (_freq_wid self))
      (arange (Z.of_nat n)).

(** ** Instances for the parameters

    Concrete functions to instantiate the statements that hold for every
    [erf] with the stated properties. *)

(** A sigmoid with the range, the symmetry and the monotonicity of [erf]. *)
Definition soft_sign (x : R) : R := x / (1 + Rabs x).


(** A design with one pole, at the lower edge of the band it is given:
    numerator [1], denominator [1; -p]. *)
Definition one_pole_design (order : Z) (band : list R) : result (list R * list R) :=
  Ok ([1], [1; - nth 0 band 0]).

(** The root of a polynomial of degree one. *)
Definition linear_roots (a : list R) : list C :=
  match a with
  | [a0; a1] => [(- a1 / a0, 0)]
  | _ => []
  end.

(** A row filter that keeps the length of the row. *)
Definition pass_through (b a x : list R) : list R := x.

(** The frames [i1, i2). *)
Definition frames (i1 i2 : Z) : list Z :=
  map (fun i => (i1 + Z.of_nat i)%Z) (seq 0 (Z.to_nat (i2 - i1))).

(** The window [i1, i2) of a signal (channel, then frame), a row per channel. *)
Definition window (signal : Z -> Z -> R) (i1 i2 : Z) (channel_ids : list Z) : array2 R :=
  mk_array2 (map (fun c => map (signal c) (frames i1 i2)) channel_ids)
            (Z.to_nat (i2 - i1)).

(** A recording that holds [signal] on the frames 0 .. [num_frames] - 1. *)
Definition recording_of (fs : R) (num_frames : Z) (channels : list Z)
    (signal : Z -> Z -> R) : RecordingExtractor :=
  {| get_sampling_frequency := fs;
     get_num_frames := num_frames;
     get_channel_ids := channels;
     get_traces := fun s e ch => window signal s e ch;
     make_serialized_dict := "recording" |}.

(** The sample of channel [c] at frame [t], read through [get_traces]; zero
    at a frame the recording does not have. *)
Definition sample_or_zero (recording : RecordingExtractor) (c t : Z) : R :=
  if ((0 <=? t) && (t <? get_num_frames recording))%Z then
    match rows (get_traces recording t (t + 1) [c]) with
    | (v :: _) :: _ => v
    | _ => 0
    end
  else 0.

(** A reader that returns the whole window [i1, i2), with zeros at the
    frames the recording does not have. *)
Definition zero_filled_read (recording : RecordingExtractor) (i1 i2 : Z)
    (channel_ids : list Z) : result (array2 R) :=
  Ok (window (sample_or_zero recording) i1 i2 channel_ids).

(** A recording with two empty channels, sampled at [fs]. *)
Definition silent_recording (fs : R) : RecordingExtractor :=
  recording_of fs 20000 [0%Z; 1%Z] (fun _ _ => 0).

(** The reader returns the whole window it is asked for: [i2 - i1] samples
    for each of the channels. *)
Definition reads_whole_window
    (_read_chunk : RecordingExtractor -> Z -> Z -> list Z -> result (array2 R))
    (recording : RecordingExtractor) : Prop :=
  forall i1 i2 channel_ids,
  exists chunk,
    _read_chunk recording i1 i2 channel_ids = Ok chunk
    /\ width chunk = Z.to_nat (i2 - i1)
    /\ well_shaped chunk
    /\ shape0 chunk = length channel_ids.

(** An array of shape ([channels], [samples]). *)
Definition has_shape {A : Type} (a : array2 A) (channels samples : nat) : Prop :=
  shape0 a = channels /\ width a = samples
  /\ Forall (fun r => length r = samples) (rows a).

(** The view the constructor returns for a type other than ['butter']. *)
Definition plain_view (recording : RecordingExtractor) (freq_min freq_max freq_wid : R)
    (filter_type : string) : BandpassFilterRecording :=
  {| _freq_min := freq_min;
     _freq_max := freq_max;
     _freq_wid := freq_wid;
     _type := filter_type;
     _order := 3;
     _chunk_size := None;
     _b_a := None;
     parent := FilterRecording__init__ recording None false None;
     is_filtered := true;
     _kwargs := {| kw_recording := make_serialized_dict recording;
                   kw_freq_min := freq_min;
                   kw_freq_max := freq_max;
                   kw_freq_wid := freq_wid;
                   kw_filter_type := filter_type;
                   kw_order := 3;
                   kw_chunk_size := None;
                   kw_cache_chunks := false |} |}.

(** The reader returns the window of one signal, the same for every window. *)
Definition reads_signal
    (_read_chunk : RecordingExtractor -> Z -> Z -> list Z -> result (array2 R))
    (recording : RecordingExtractor) (signal : Z -> Z -> R) : Prop :=
  forall i1 i2 channel_ids,
    _read_chunk recording i1 i2 channel_ids = Ok (window signal i1 i2 channel_ids).

(** What the statements about values assume of [erf]: values strictly
    between -1 and 1, and a tail that [1 / x] bounds. *)
Definition erf_like (erf : R -> R) : Prop :=
  (forall x, -1 < erf x < 1) /\ (forall x, 0 < x -> 1 - erf x <= 1 / x).

(** One sample of amplitude 1 at frame 9000. *)
Definition impulse (c t : Z) : R := if (t =? 9000)%Z then 1 else 0.

(** A recording of 20000 frames on one channel, sampled at 11000 Hz, that
    holds [impulse]. *)
Definition impulse_recording : RecordingExtractor :=
  recording_of 11000 20000 [0%Z] impulse.

(** A spectral high-pass view of [impulse_recording]. *)
Definition highpass_view : BandpassFilterRecording :=
  plain_view impulse_recording (1 / 10000) 0 1000 "fft".

(** A recording of 8000 frames on two channels that holds a ramp. *)
Definition ramp_recording : RecordingExtractor :=
  recording_of 30000 8000 [0%Z; 1%Z] (fun c t => IZR (c + t)).

(** ** Arrays built from others *)

(** [alpha * x + beta * y] on two rows of the same length. *)
Definition row_lin (alpha beta : R) (x y : list R) : list R :=
  map2 (fun a b => alpha * a + beta * b) x y.

(** [alpha * a + beta * b] on two arrays of the same shape. *)
Definition array_lin (alpha beta : R) (a b : array2 R) : array2 R :=
  mk_array2 (map2 (row_lin alpha beta) (rows a) (rows b)) (width a).

(** [np.full((channels, samples), c)]. *)
Definition full (channels samples : nat) (c : R) : array2 R :=
  mk_array2 (repeat (repeat c samples) channels) samples.

(** [n] samples of [a cos + b sin] at the frequency of bin [k] of [n]. *)
Definition sinusoid_row (n k : nat) (a b : R) : list R :=
  map (fun l => a * cos (angle n l k) + b * sin (angle n l k)) (seq 0 n).

(** The values under the square root of the kernel [_do_filter] builds for
    a chunk of [n] samples: the power response. *)
Definition power_kernel_of (erf : R -> R) (self : BandpassFilterRecording) (n : nat)
    : list R :=
  map (power_gain erf (Z.of_nat n) (get_sampling_frequency (_recording self))
         (_freq_min self) (_freq_max self) (_freq_wid self))
      (arange (Z.of_nat n)).

(** * Properties *)

(** ** Lists and arrays *)

Lemma map2_map_map {A B C D : Type} (f : B -> C -> D) (g : A -> B) (h : A -> C)
    (l : list A) :
  map2 f (map g l) (map h l) = map (fun x => f (g x) (h x)) l.
Proof.
  induction l as [|x l IH]; simpl; [reflexivity | now rewrite IH].
Qed.

Lemma length_arange (N : Z) : length (arange N) = Z.to_nat N.
Proof. unfold arange. now rewrite length_map, length_seq. Qed.

Lemma nth_map_arange {A : Type} (F : Z -> A) (N k : Z) (d : A) :
  (0 <= k < N)%Z ->
  nth (Z.to_nat k) (map F (arange N)) d = F k.
Proof.
  intros Hk. unfold arange. rewrite map_map.
  rewrite (nth_indep _ d (F (Z.of_nat 0))) by (rewrite length_map, length_seq; lia).
  rewrite (map_nth (fun i => F (Z.of_nat i)) (seq 0 (Z.to_nat N)) 0%nat).
  rewrite seq_nth by lia. simpl. now rewrite Z2Nat.id by lia.
Qed.

(** ** The kernel, bin by bin *)

Section KernelFacts.

Variable erf : R -> R.

Lemma kernel_is_map_gain (N : Z) (fs freq_min freq_max freq_wid : R) :
  fs <> 0 -> N <> 0%Z ->
  _create_filter_kernel erf N fs freq_min freq_max freq_wid
  = Ok (map (gain erf N fs freq_min freq_max freq_wid) (arange N)).
Proof.
  intros Hfs HN. unfold _create_filter_kernel.
  destruct (Req_dec_T fs 0) as [E|_]; [contradiction|].
  destruct (Req_dec_T (IZR N / fs) 0) as [E|_].
  { exfalso. apply HN. apply eq_IZR.
    unfold Rdiv in E. apply Rmult_integral in E. destruct E as [E|E]; [exact E|].
    exfalso. revert E. now apply Rinv_neq_0_compat. }
  cbv zeta. f_equal.
  rewrite !map_map.
  destruct (Req_dec_T freq_min 0) as [Emin|Nmin];
    destruct (Req_dec_T freq_max 0) as [Emax|Nmax];
    repeat (rewrite ?map2_map_map, ?map_map);
    apply map_ext; intros k; unfold gain, power_gain, folded_index; cbv zeta;
    destruct (Req_dec_T freq_min 0); try contradiction;
    destruct (Req_dec_T freq_max 0); try contradiction;
    try reflexivity.
Qed.

Lemma kernel_raises (N : Z) (fs freq_min freq_max freq_wid : R) :
  fs = 0 \/ N = 0%Z ->
  _create_filter_kernel erf N fs freq_min freq_max freq_wid = Raise ZeroDivisionError.
Proof.
  intros H. unfold _create_filter_kernel.
  destruct (Req_dec_T fs 0) as [E|Hfs]; [reflexivity|].
  destruct H as [H|H]; [contradiction|]. subst N.
  destruct (Req_dec_T (0 / fs) 0) as [E|E]; [reflexivity|].
  exfalso. apply E. unfold Rdiv. ring.
Qed.

Lemma kernel_cases (N : Z) (fs freq_min freq_max freq_wid : R) :
  (fs <> 0 /\ N <> 0%Z /\
   _create_filter_kernel erf N fs freq_min freq_max freq_wid
   = Ok (map (gain erf N fs freq_min freq_max freq_wid) (arange N)))
  \/ ((fs = 0 \/ N = 0%Z) /\
      _create_filter_kernel erf N fs freq_min freq_max freq_wid = Raise ZeroDivisionError).
Proof.
  destruct (Req_dec_T fs 0) as [E|Hfs].
  - right. split; [now left | apply kernel_raises; now left].
  - destruct (Z.eq_dec N 0) as [E|HN].
    + right. split; [now right | apply kernel_raises; now right].
    + left. repeat split; auto using kernel_is_map_gain.
Qed.

Lemma folded_index_small (N k : Z) :
  (0 <= k < N)%Z -> Rabs (IZR (folded_index N k)) < 1 / 10 <-> k = 0%Z.
Proof.
  intros Hk. unfold folded_index.
  destruct (Rle_dec (IZR k) ((IZR N + 1) / 2)) as [Hle|Hgt].
  - rewrite Rabs_pos_eq by (apply IZR_le; lia). split.
    + intros H. destruct (Z.eq_dec k 0) as [E|E]; [exact E|].
      assert (1 <= IZR k) by (apply IZR_le; lia). lra.
    + intros ->. lra.
  - split.
    + intros H. exfalso.
      assert (IZR (k - N) <= -1) by (apply IZR_le; lia).
      rewrite Rabs_left in H by lra. lra.
    + intros ->. exfalso. apply Hgt.
      assert (1 <= IZR N) by (apply IZR_le; lia). lra.
Qed.

Lemma gain_eq_spec_gain (N : Z) (fs freq_min freq_max freq_wid : R) (k : Z) :
  gain erf N fs freq_min freq_max freq_wid k
  = spec_gain erf N fs freq_min freq_max freq_wid k.
Proof.
  unfold gain, power_gain, spec_gain, high_pass_factor, low_pass_factor, bin_frequency.
  cbv zeta. f_equal.
  assert (Hf : 1 / (IZR N / fs) * IZR (folded_index N k)
               = (if Rle_dec (IZR k) ((IZR N + 1) / 2)
                  then IZR k / (IZR N / fs) else IZR (k - N) / (IZR N / fs))).
  { unfold folded_index. destruct (Rle_dec (IZR k) ((IZR N + 1) / 2));
      unfold Rdiv; ring. }
  rewrite Hf.
  destruct (Req_dec_T freq_min 0); destruct (Req_dec_T freq_max 0);
    try destruct (Rlt_dec (Rabs (IZR (folded_index N k))) (1 / 10));
    unfold Rdiv; ring.
Qed.

End KernelFacts.

Lemma soft_sign_range (x : R) : -1 < soft_sign x < 1.
Proof.
  unfold soft_sign.
  assert (Hpos : 0 < 1 + Rabs x) by (pose proof (Rabs_pos x); lra).
  assert (Hx : - Rabs x <= x <= Rabs x).
  { split; [pose proof (Rle_abs (- x)) as H; rewrite Rabs_Ropp in H; lra
           | apply Rle_abs]. }
  split.
  - apply (Rmult_lt_reg_r (1 + Rabs x)); [exact Hpos|].
    unfold Rdiv. rewrite Rmult_assoc, Rinv_l by lra. lra.
  - apply (Rmult_lt_reg_r (1 + Rabs x)); [exact Hpos|].
    unfold Rdiv. rewrite Rmult_assoc, Rinv_l by lra. lra.
Qed.

(** ** The kernel: claims *)

(** C2. When [freq_min <> 0], the kernel [_create_filter_kernel] returns is
    exactly 0 at every DC bin (every index whose folded bin index [k] has
    [|k| < 0.1]), whatever [freq_min], [freq_max] and [freq_wid] are; index
    0 is such a bin as soon as there is one bin. The call raises only for
    [fs = 0] or [N = 0], when there is no kernel. *)
Theorem dc_bin_is_zero (erf : R -> R) (N : Z) (fs freq_min freq_max freq_wid : R) :
  freq_min <> 0 ->
  match _create_filter_kernel erf N fs freq_min freq_max freq_wid with
  | Ok ker =>
      length ker = Z.to_nat N
      /\ (forall k, (0 <= k < N)%Z -> is_dc_bin N k -> nth (Z.to_nat k) ker 1 = 0)
      /\ ((0 < N)%Z -> is_dc_bin N 0 /\ nth 0 ker 1 = 0)
  | Raise _ => fs = 0 \/ N = 0%Z
  end.
Proof.
  intros Hmin.
  destruct (kernel_cases erf N fs freq_min freq_max freq_wid)
    as [(Hfs & HN & ->)|(H & ->)]; [|exact H].
  assert (Hdc : forall k, (0 <= k < N)%Z -> is_dc_bin N k ->
                nth (Z.to_nat k) (map (gain erf N fs freq_min freq_max freq_wid) (arange N)) 1 = 0).
  { intros k Hk Hdc. rewrite nth_map_arange by exact Hk.
    unfold gain, power_gain. cbv zeta.
    destruct (Req_dec_T freq_min 0) as [E|_]; [contradiction|].
    destruct (Rlt_dec (Rabs (IZR (folded_index N k))) (1 / 10)) as [_|Hn];
      [|contradiction].
    destruct (Req_dec_T freq_max 0).
    - apply sqrt_0.
    - replace (0 * (1 - erf ((Rabs (1 / (IZR N / fs) * IZR (folded_index N k)) - freq_max)
                              / freq_wid)) / 2) with 0 by (unfold Rdiv; ring).
      apply sqrt_0. }
  split; [now rewrite length_map, length_arange|].
  split; [exact Hdc|].
  intros Hpos.
  assert (H0 : is_dc_bin N 0) by (apply folded_index_small; [lia|reflexivity]).
  split; [exact H0|]. apply (Hdc 0%Z); [lia|exact H0].
Qed.

Lemma dc_bin_is_zero_witness :
  match _create_filter_kernel soft_sign 8 30000 300 6000 1000 with
  | Ok ker =>
      length ker = Z.to_nat 8
      /\ (forall k, (0 <= k < 8)%Z -> is_dc_bin 8 k -> nth (Z.to_nat k) ker 1 = 0)
      /\ ((0 < 8)%Z -> is_dc_bin 8 0 /\ nth 0 ker 1 = 0)
  | Raise _ => 30000 = 0 \/ 8%Z = 0%Z
  end.
Proof. apply (dc_bin_is_zero soft_sign 8 30000 300 6000 1000). lra. Defined.

(** C3. Bin [k] of [N] (0 <= k < N) is given the frequency [k / T] when
    [k <= (N + 1) / 2] and [(k - N) / T] otherwise, with [T = N / fs], and
    the kernel entry of index [k] is the square root of the product of the
    high-pass factor (present only for [freq_min <> 0], DC forced to 0) and
    the low-pass factor (present only for [freq_max <> 0]). The call
    returns for every [fs <> 0] and [N <> 0] and raises otherwise. *)
Theorem kernel_matches_spec (erf : R -> R) (N : Z) (fs freq_min freq_max freq_wid : R) :
  match _create_filter_kernel erf N fs freq_min freq_max freq_wid with
  | Ok ker =>
      fs <> 0 /\ N <> 0%Z /\ length ker = Z.to_nat N
      /\ forall k, (0 <= k < N)%Z ->
           nth (Z.to_nat k) ker 0 = spec_gain erf N fs freq_min freq_max freq_wid k
  | Raise e => e = ZeroDivisionError /\ (fs = 0 \/ N = 0%Z)
  end.
Proof.
  destruct (kernel_cases erf N fs freq_min freq_max freq_wid)
    as [(Hfs & HN & ->)|(H & ->)]; [|split; [reflexivity|exact H]].
  repeat split; try assumption.
  - now rewrite length_map, length_arange.
  - intros k Hk. rewrite nth_map_arange by exact Hk. apply gain_eq_spec_gain.
Qed.

Section UnitInterval.

Variable erf : R -> R.
Hypothesis erf_range : forall x, -1 <= erf x <= 1.

Lemma high_pass_factor_range (N : Z) (freq_min f : R) (k : Z) :
  0 <= high_pass_factor erf N freq_min f k <= 1.
Proof.
  unfold high_pass_factor.
  destruct (Req_dec_T freq_min 0); [lra|].
  destruct (Rlt_dec _ _); [lra|].
  pose proof (erf_range (3 * (Rabs f - freq_min) / freq_min)). lra.
Qed.

Lemma low_pass_factor_range (freq_max freq_wid f : R) :
  0 <= low_pass_factor erf freq_max freq_wid f <= 1.
Proof.
  unfold low_pass_factor.
  destruct (Req_dec_T freq_max 0); [lra|].
  pose proof (erf_range ((Rabs f - freq_max) / freq_wid)). lra.
Qed.

Lemma power_gain_range (N : Z) (fs freq_min freq_max freq_wid : R) (k : Z) :
  0 <= power_gain erf N fs freq_min freq_max freq_wid k <= 1.
Proof.
  unfold power_gain. cbv zeta.
  set (absf := Rabs (1 / (IZR N / fs) * IZR (folded_index N k))).
  pose proof (erf_range (3 * (absf - freq_min) / freq_min)) as H1.
  pose proof (erf_range ((absf - freq_max) / freq_wid)) as H2.
  destruct (Req_dec_T freq_min 0); destruct (Req_dec_T freq_max 0);
    try destruct (Rlt_dec (Rabs (IZR (folded_index N k))) (1 / 10)); nra.
Qed.

Lemma sqrt_unit_interval (v : R) : 0 <= v <= 1 -> 0 <= sqrt v <= 1.
Proof.
  intros [H0 H1]. split; [apply sqrt_pos|].
  rewrite <- sqrt_1. now apply sqrt_le_1_alt.
Qed.

End UnitInterval.

(** C9. For [N > 0], [fs > 0] and non-negative [freq_min], [freq_max],
    [freq_wid] ([freq_wid > 0] when [freq_max <> 0]), and [erf] with values in
    [-1, 1]: each erf-based factor lies in [0, 1]; the kernel is returned, it
    is the entry-wise square root of an array of values in [0, 1] (so no
    square root is taken of a negative number), and every one of its [N]
    entries lies in [0, 1]. *)
Theorem kernel_in_unit_interval (erf : R -> R) (N : Z)
    (fs freq_min freq_max freq_wid : R) :
  (forall x, -1 <= erf x <= 1) ->
  (0 < N)%Z -> 0 < fs ->
  0 <= freq_min -> 0 <= freq_max -> 0 <= freq_wid ->
  (freq_max <> 0 -> 0 < freq_wid) ->
  (forall f k, 0 <= high_pass_factor erf N freq_min f k <= 1)
  /\ (forall f, 0 <= low_pass_factor erf freq_max freq_wid f <= 1)
  /\ exists val : list R,
       _create_filter_kernel erf N fs freq_min freq_max freq_wid = Ok (map sqrt val)
       /\ length val = Z.to_nat N
       /\ Forall (fun v => 0 <= v <= 1) val
       /\ Forall (fun g => 0 <= g <= 1) (map sqrt val).
Proof.
  intros Herf HN Hfs _ _ _ _.
  split; [intros f k; now apply high_pass_factor_range|].
  split; [intros f; now apply low_pass_factor_range|].
  exists (map (power_gain erf N fs freq_min freq_max freq_wid) (arange N)).
  assert (Hval : Forall (fun v => 0 <= v <= 1)
                   (map (power_gain erf N fs freq_min freq_max freq_wid) (arange N))).
  { apply Forall_map, Forall_forall. intros k _. now apply power_gain_range. }
  split.
  - rewrite kernel_is_map_gain by (try lra; lia). now rewrite map_map.
  - split; [now rewrite length_map, length_arange|].
    split; [exact Hval|].
    apply Forall_map. revert Hval. apply Forall_impl.
    intros v Hv. now apply sqrt_unit_interval.
Qed.

Lemma kernel_in_unit_interval_witness :
  (forall f k, 0 <= high_pass_factor soft_sign 8 300 f k <= 1)
  /\ (forall f, 0 <= low_pass_factor soft_sign 6000 1000 f <= 1)
  /\ exists val : list R,
       _create_filter_kernel soft_sign 8 30000 300 6000 1000 = Ok (map sqrt val)
       /\ length val = Z.to_nat 8
       /\ Forall (fun v => 0 <= v <= 1) val
       /\ Forall (fun g => 0 <= g <= 1) (map sqrt val).
Proof.
  apply (kernel_in_unit_interval soft_sign 8 30000 300 6000 1000);
    try lra; try lia.
  intros x. pose proof (soft_sign_range x). lra.
Defined.

(** C6, as stated, fails: with [freq_min = freq_max = 0] the DC bin of the
    kernel is 1, not 0. Four bins at 30000 Hz: every entry is 1, whatever
    [erf] is. *)
Lemma allpass_dc_counterexample :
  is_dc_bin 4 0
  /\ (forall erf : R -> R,
        _create_filter_kernel erf 4 30000 0 0 1000 = Ok [1; 1; 1; 1]
        /\ nth 0 [1; 1; 1; 1] 0 <> 0).
Proof.
  split.
  - apply folded_index_small; [lia|reflexivity].
  - intros erf. split; [|simpl; lra].
    rewrite kernel_is_map_gain by (try lra; lia).
    f_equal. unfold gain, power_gain. cbv zeta. simpl.
    destruct (Req_dec_T 0 0) as [_|E]; [|contradiction].
    now rewrite sqrt_1.
Qed.

(** C6, amended. With [freq_min = freq_max = 0] the kernel is exactly 1 at
    every one of its [N] bins, the DC bin included: the DC bin is forced to
    zero only under [freq_min <> 0]. *)
Theorem allpass_kernel_is_one (erf : R -> R) (N : Z) (fs freq_wid : R) :
  match _create_filter_kernel erf N fs 0 0 freq_wid with
  | Ok ker => fs <> 0 /\ N <> 0%Z /\ ker = repeat 1 (Z.to_nat N)
  | Raise e => e = ZeroDivisionError /\ (fs = 0 \/ N = 0%Z)
  end.
Proof.
  destruct (kernel_cases erf N fs 0 0 freq_wid)
    as [(Hfs & HN & ->)|(H & ->)]; [|split; [reflexivity|exact H]].
  split; [exact Hfs|]. split; [exact HN|].
  unfold arange. rewrite map_map.
  generalize (Z.to_nat N). intros n.
  generalize 0%nat. induction n as [|n IH]; intros s; simpl; [reflexivity|].
  rewrite IH. f_equal.
  unfold gain, power_gain. cbv zeta.
  destruct (Req_dec_T 0 0) as [_|E]; [|contradiction].
  apply sqrt_1.
Qed.

(** ** Construction: claims *)

(** C7. [bandpass_filter] with both [cache_to_file] and [cache_chunks] set
    raises the assertion error, whatever the other arguments and the
    collaborators are: the view constructor is not reached. For every other
    combination of the two flags the call goes on to construct the view,
    and its outcome is that of the constructor, wrapped in the cache when
    [cache_to_file] is set. *)
Theorem cache_flags_exclusive (butter : Z -> list R -> result (list R * list R))
    (roots : list R -> list C) (CacheT : Type)
    (CacheRecordingExtractor : BandpassFilterRecording -> option Z -> result CacheT)
    (recording : RecordingExtractor) (freq_min freq_max freq_wid : R)
    (filter_type : string) (order : Z) (chunk_size : option Z)
    (cache_to_file cache_chunks : bool) (dtype : option string) :
  let construct :=
    __init__ butter roots recording freq_min freq_max freq_wid filter_type order
      chunk_size cache_chunks dtype in
  let call :=
    bandpass_filter butter roots CacheT CacheRecordingExtractor recording
      freq_min freq_max freq_wid filter_type order chunk_size
      cache_to_file cache_chunks dtype in
  if cache_to_file && cache_chunks then
    call = Raise (AssertionError "if cache_to_file cache_chunks should be False")
  else
    call = (bpf_recording <- construct ;;
            if cache_to_file then
              cache <- CacheRecordingExtractor bpf_recording chunk_size ;;
              Ok (Cached CacheT cache)
            else Ok (Lazy CacheT bpf_recording)).
Proof.
  cbv zeta. unfold bandpass_filter.
  destruct cache_to_file, cache_chunks; reflexivity.
Qed.

Lemma all_inside_true (r : list C) :
  all_inside_unit_circle r = true <-> forall z, In z r -> Cabs z < 1.
Proof.
  unfold all_inside_unit_circle. rewrite forallb_forall.
  split; intros H z Hz; specialize (H z Hz).
  - destruct (Rlt_dec (Cabs z) 1); [assumption|discriminate].
  - destruct (Rlt_dec (Cabs z) 1); [reflexivity|contradiction].
Qed.

Lemma all_inside_false (r : list C) :
  all_inside_unit_circle r = false <-> exists z, In z r /\ ~ Cabs z < 1.
Proof.
  induction r as [|z r IH]; simpl.
  - split; [discriminate | intros (z & [] & _)].
  - destruct (Rlt_dec (Cabs z) 1) as [Hlt|Hge]; simpl.
    + rewrite IH. split.
      * intros (w & Hw & Hn). exists w. auto.
      * intros (w & [->|Hw] & Hn); [contradiction | exists w; auto].
    + split; [intros _; exists z; auto | reflexivity].
Qed.

(** C4. With [filter_type = 'butter'] and a design [(b, a)] returned by
    [butter], the constructor raises if and only if some root of the
    denominator [a] has a magnitude that is not strictly less than 1; the
    error is then the stability error and no view is returned, so no
    filtering call can be made on one; when every root is strictly inside
    the unit circle the view is returned with the coefficients stored. *)
Theorem unstable_design_fails (butter : Z -> list R -> result (list R * list R))
    (roots : list R -> list C)
    (recording : RecordingExtractor) (freq_min freq_max freq_wid : R)
    (order : Z) (chunk_size : option Z) (cache_chunks : bool) (dtype : option string)
    (b a : list R) :
  butter order [freq_min / (get_sampling_frequency recording / 2);
                freq_max / (get_sampling_frequency recording / 2)] = Ok (b, a) ->
  let construct :=
    __init__ butter roots recording freq_min freq_max freq_wid "butter" order
      chunk_size cache_chunks dtype in
  let unstable := exists z, In z (roots a) /\ ~ Cabs z < 1 in
  ((exists e, construct = Raise e) <-> unstable)
  /\ (unstable ->
      construct = Raise (ValueError "Filter is not stable")
      /\ forall view, construct <> Ok view)
  /\ ((forall z, In z (roots a) -> Cabs z < 1) ->
      exists view, construct = Ok view
                   /\ _b_a view = Some (b, a) /\ _type view = "butter"%string).
Proof.
  intros Hdesign. cbv zeta. unfold __init__.
  rewrite String.eqb_refl, Hdesign. simpl.
  destruct (all_inside_unit_circle (roots a)) eqn:Hall; simpl.
  - pose proof (proj1 (all_inside_true _) Hall) as Hin.
    split; [|split].
    + split; [intros (e & He); discriminate|].
      intros (z & Hz & Hn). exfalso. apply Hn. now apply Hin.
    + intros (z & Hz & Hn). exfalso. apply Hn. now apply Hin.
    + intros _. eexists. split; [reflexivity|]. split; reflexivity.
  - pose proof (proj1 (all_inside_false _) Hall) as Hex.
    split; [|split].
    + split; [intros _; exact Hex | intros _; eexists; reflexivity].
    + intros _. split; [reflexivity | intros view; discriminate].
    + intros Hin. destruct Hex as (z & Hz & Hn). exfalso. apply Hn. now apply Hin.
Qed.

Lemma unstable_design_fails_witness :
  __init__ one_pole_design linear_roots (silent_recording 2) 2 3 1000 "butter" 3
    (Some 30000%Z) false None
  = Raise (ValueError "Filter is not stable").
Proof.
  refine (proj1 (proj1 (proj2 (unstable_design_fails one_pole_design linear_roots
            (silent_recording 2) 2 3 1000 3 (Some 30000%Z) false None
            [1] [1; - (2 / (2 / 2))] eq_refl)) _)).
  exists (- - (2 / (2 / 2)) / 1, 0). split; [left; reflexivity|].
  unfold Cabs. simpl.
  replace (- - (2 / (2 / 2)) / 1 * (- - (2 / (2 / 2)) / 1) + 0 * 0) with (2 * 2) by field.
  rewrite sqrt_square by lra. lra.
Defined.

(** C10. For every [filter_type] other than ['butter'] the constructor
    returns a view, the same whatever the design and root functions are (no
    design is made and no stability is checked), with no coefficients and
    with the type string stored as given. If the type is not ['fft'] either,
    [_do_filter] raises on every chunk because [chunk_filtered] is unbound,
    and [filter_chunk] raises this error once its read has returned. *)
Theorem filter_type_not_validated (erf : R -> R)
    (filtfilt : list R -> list R -> list R -> list R)
    (_read_chunk : RecordingExtractor -> Z -> Z -> list Z -> result (array2 R))
    (recording : RecordingExtractor) (freq_min freq_max freq_wid : R)
    (filter_type : string) (order : Z) (chunk_size : option Z)
    (cache_chunks : bool) (dtype : option string) :
  filter_type <> "butter"%string ->
  exists view,
    (forall butter roots,
        __init__ butter roots recording freq_min freq_max freq_wid filter_type order
          chunk_size cache_chunks dtype = Ok view)
    /\ _b_a view = None
    /\ _type view = filter_type
    /\ (filter_type <> "fft"%string ->
        (forall chunk,
            _do_filter erf filtfilt view chunk
            = Raise (UnboundLocalError "chunk_filtered"))
        /\ (forall start_frame end_frame channel_ids,
               filter_chunk erf filtfilt _read_chunk view start_frame end_frame channel_ids
               = (_ <- _read_chunk recording (start_frame - 3000)%Z
                         (end_frame + 3000)%Z channel_ids ;;
                  Raise (UnboundLocalError "chunk_filtered")))).
Proof.
  intros Hbutter.
  apply String.eqb_neq in Hbutter.
  eexists. split.
  { intros butter roots. unfold __init__. rewrite Hbutter. simpl. reflexivity. }
  split; [reflexivity|]. split; [reflexivity|].
  intros Hfft. apply String.eqb_neq in Hfft.
  assert (Hdo : forall chunk,
             _do_filter erf filtfilt
               {| _freq_min := freq_min; _freq_max := freq_max; _freq_wid := freq_wid;
                  _type := filter_type; _order := order; _chunk_size := chunk_size;
                  _b_a := None;
                  parent := FilterRecording__init__ recording chunk_size cache_chunks dtype;
                  is_filtered := true;
                  _kwargs := {| kw_recording := make_serialized_dict recording;
                                kw_freq_min := freq_min; kw_freq_max := freq_max;
                                kw_freq_wid := freq_wid; kw_filter_type := filter_type;
                                kw_order := order; kw_chunk_size := chunk_size;
                                kw_cache_chunks := cache_chunks |} |} chunk
             = Raise (UnboundLocalError "chunk_filtered")).
  { intros chunk. unfold _do_filter. simpl. now rewrite Hfft, Hbutter. }
  split; [exact Hdo|].
  intros start_frame end_frame channel_ids. unfold filter_chunk. cbv zeta.
  unfold _recording at 1. cbn [parent fr_recording FilterRecording__init__].
  destruct (_read_chunk recording (start_frame - 3000)%Z (end_frame + 3000)%Z channel_ids);
    cbn [bind]; [now rewrite Hdo | reflexivity].
Qed.

Lemma filter_type_not_validated_witness :
  exists view,
    (forall butter roots,
        __init__ butter roots (silent_recording 30000) 300 6000 1000 "median" 3
          (Some 30000%Z) false None = Ok view)
    /\ _b_a view = None
    /\ _type view = "median"%string
    /\ ("median"%string <> "fft"%string ->
        (forall chunk,
            _do_filter soft_sign pass_through view chunk
            = Raise (UnboundLocalError "chunk_filtered"))
        /\ (forall start_frame end_frame channel_ids,
               filter_chunk soft_sign pass_through zero_filled_read view
                 start_frame end_frame channel_ids
               = (_ <- zero_filled_read (silent_recording 30000) (start_frame - 3000)%Z
                         (end_frame + 3000)%Z channel_ids ;;
                  Raise (UnboundLocalError "chunk_filtered")))).
Proof.
  apply (filter_type_not_validated soft_sign pass_through zero_filled_read
           (silent_recording 30000) 300 6000 1000 "median" 3 (Some 30000%Z) false None).
  discriminate.
Defined.

(** ** Shapes *)

Lemma length_map2 {A B D : Type} (f : A -> B -> D) (xs : list A) (ys : list B) :
  length (map2 f xs ys) = Nat.min (length xs) (length ys).
Proof.
  revert ys. induction xs as [|x xs IH]; intros [|y ys]; simpl; auto.
Qed.

Lemma length_rfft_row (x : list R) : length (rfft_row x) = (length x / 2 + 1)%nat.
Proof. unfold rfft_row. now rewrite length_map, length_seq. Qed.

Lemma length_irfft_row (X : list C) : length (irfft_row X) = (2 * (length X - 1))%nat.
Proof. unfold irfft_row. now rewrite length_map, length_seq. Qed.

Lemma half_twice_bounds (n : nat) : (n - 1 <= 2 * (n / 2) <= n)%nat.
Proof.
  pose proof (Nat.div_mod_eq n 2) as H.
  pose proof (Nat.mod_upper_bound n 2). lia.
Qed.

Lemma length_filter_row (kernel : list R) (n : nat) (x : list R) :
  length x = n -> (n / 2 + 1 <= length kernel)%nat ->
  length (filter_row kernel n x) = (2 * (n / 2))%nat.
Proof.
  intros Hx Hk. unfold filter_row.
  rewrite length_irfft_row, length_map2, length_rfft_row, length_firstn, Hx. lia.
Qed.

Lemma length_slice {A : Type} (r : list A) (lo hi : Z) :
  (0 <= lo <= hi)%Z -> (Z.to_nat hi <= length r)%nat ->
  length (slice r lo hi) = Z.to_nat (hi - lo).
Proof.
  intros H Hlen. unfold slice, slice_bound.
  destruct (Z.ltb_spec lo 0); [lia|]. destruct (Z.ltb_spec hi 0); [lia|].
  rewrite length_firstn, length_skipn. lia.
Qed.

Lemma slice_cols_shape {A : Type} (a : array2 A) (lo hi : Z) (channels samples : nat) :
  has_shape a channels samples ->
  (0 <= lo <= hi)%Z -> (Z.to_nat hi <= samples)%nat ->
  has_shape (slice_cols a lo hi) channels (Z.to_nat (hi - lo)).
Proof.
  intros (H0 & Hw & Hrows) H Hlen. unfold has_shape, slice_cols, shape0 in *. simpl.
  split; [now rewrite length_map|]. split.
  - unfold slice_bound. rewrite Hw.
    destruct (Z.ltb_spec lo 0); [lia|]. destruct (Z.ltb_spec hi 0); [lia|]. lia.
  - apply Forall_map. revert Hrows. apply Forall_impl.
    intros r Hr. apply length_slice; [exact H | now rewrite Hr].
Qed.

(** ** [_do_filter], branch by branch *)

Section DoFilter.

Variable erf : R -> R.
Variable filtfilt : list R -> list R -> list R -> list R.

Lemma length_kernel_of (self : BandpassFilterRecording) (n : nat) :
  length (kernel_of erf self n) = n.
Proof. unfold kernel_of. now rewrite length_map, length_arange, Nat2Z.id. Qed.

Lemma do_filter_fft (self : BandpassFilterRecording) (chunk : array2 R) :
  _type self = "fft"%string ->
  get_sampling_frequency (_recording self) <> 0 ->
  (2 <= width chunk)%nat ->
  _do_filter erf filtfilt self chunk
  = Ok (mk_array2
          (map (filter_row (kernel_of erf self (width chunk)) (width chunk)) (rows chunk))
          (2 * (width chunk / 2))).
Proof.
  intros Htype Hfs Hw. unfold _do_filter. rewrite Htype, String.eqb_refl.
  unfold rfft. destruct (Nat.eqb_spec (width chunk) 0) as [E|_]; [lia|].
  cbn [bind width rows].
  rewrite kernel_is_map_gain by (try assumption; lia).
  cbn [bind]. unfold irfft, mul_tile. cbn [width rows].
  pose proof (half_twice_bounds (width chunk)) as Hh.
  destruct (Nat.eqb_spec (2 * (width chunk / 2 + 1 - 1)) 0) as [E|_]; [lia|].
  f_equal. rewrite !map_map.
  replace (width chunk / 2 + 1 - 1)%nat with (width chunk / 2)%nat by lia.
  reflexivity.
Qed.

Lemma do_filter_butter (self : BandpassFilterRecording) (chunk : array2 R)
    (b a : list R) :
  _type self = "butter"%string -> _b_a self = Some (b, a) ->
  _do_filter erf filtfilt self chunk
  = Ok (mk_array2 (map (filtfilt b a) (rows chunk)) (width chunk)).
Proof.
  intros Htype Hba. unfold _do_filter. rewrite Htype, Hba. reflexivity.
Qed.

End DoFilter.

(** ** [filter_chunk]: the padded window and the crop *)

Section FilterChunk.

Variable erf : R -> R.
Variable butter : Z -> list R -> result (list R * list R).
Variable roots : list R -> list C.
Variable filtfilt : list R -> list R -> list R -> list R.
Variable _read_chunk : RecordingExtractor -> Z -> Z -> list Z -> result (array2 R).

(** What the constructor stores in the view it returns. *)
Lemma init_stores (recording : RecordingExtractor) (freq_min freq_max freq_wid : R)
    (filter_type : string) (order : Z) (chunk_size : option Z) (cache_chunks : bool)
    (dtype : option string) (self : BandpassFilterRecording) :
  __init__ butter roots recording freq_min freq_max freq_wid filter_type order
    chunk_size cache_chunks dtype = Ok self ->
  _recording self = recording /\ _type self = filter_type
  /\ _freq_min self = freq_min /\ _freq_max self = freq_max
  /\ _freq_wid self = freq_wid
  /\ (filter_type = "butter"%string -> exists b a, _b_a self = Some (b, a)).
Proof.
  unfold __init__. intros H.
  destruct (String.eqb_spec filter_type "butter") as [E|E].
  - destruct (butter order _) as [[b a]|e]; cbn [bind] in H; [|discriminate].
    destruct (negb _); cbn [bind] in H; [discriminate|].
    injection H as <-. cbn. repeat split; trivial. intros _. now exists b, a.
  - cbn [bind] in H. injection H as <-. cbn. repeat split; trivial.
    intros E'. contradiction.
Qed.

Hypothesis filtfilt_length : forall b a x, length (filtfilt b a x) = length x.

(** The filtered padded chunk has the channels of the padded chunk and at
    most one sample less. *)
Lemma do_filter_shape (self : BandpassFilterRecording) (chunk : array2 R)
    (channels n : nat) :
  _type self = "fft"%string \/
    (_type self = "butter"%string /\ exists b a, _b_a self = Some (b, a)) ->
  get_sampling_frequency (_recording self) <> 0 ->
  has_shape chunk channels n -> (2 <= n)%nat ->
  exists filtered n',
    _do_filter erf filtfilt self chunk = Ok filtered
    /\ has_shape filtered channels n' /\ (n - 1 <= n' <= n)%nat.
Proof.
  intros Htype Hfs (H0 & Hw & Hrows) Hn.
  destruct Htype as [Hfft|(Hb & b & a & Hba)].
  - rewrite do_filter_fft by (try assumption; lia).
    eexists. exists (2 * (n / 2))%nat. split; [reflexivity|].
    split; [|apply half_twice_bounds].
    unfold has_shape, shape0. cbn [rows width]. rewrite length_map, Hw.
    split; [exact H0|]. split; [reflexivity|].
    apply Forall_map. revert Hrows. apply Forall_impl. intros r Hr.
    apply length_filter_row; [exact Hr|].
    rewrite length_kernel_of. pose proof (half_twice_bounds n). lia.
  - rewrite (do_filter_butter erf filtfilt self chunk b a Hb Hba).
    eexists. exists n. split; [reflexivity|]. split; [|lia].
    unfold has_shape, shape0. cbn [rows width]. rewrite length_map.
    split; [exact H0|]. split; [exact Hw|].
    apply Forall_map. revert Hrows. apply Forall_impl. intros r Hr.
    now rewrite filtfilt_length.
Qed.

Lemma filter_chunk_padded_shape (padding : Z) (self : BandpassFilterRecording)
    (start_frame end_frame : Z) (channel_ids : list Z) :
  _type self = "fft"%string \/
    (_type self = "butter"%string /\ exists b a, _b_a self = Some (b, a)) ->
  get_sampling_frequency (_recording self) <> 0 ->
  reads_whole_window _read_chunk (_recording self) ->
  (start_frame < end_frame)%Z -> (1 <= padding)%Z ->
  exists padded_chunk filtered_padded_chunk,
    _read_chunk (_recording self) (start_frame - padding) (end_frame + padding)
      channel_ids = Ok padded_chunk
    /\ has_shape padded_chunk (length channel_ids)
         (Z.to_nat (end_frame - start_frame + 2 * padding))
    /\ _do_filter erf filtfilt self padded_chunk = Ok filtered_padded_chunk
    /\ filter_chunk_padded erf filtfilt _read_chunk padding self
         start_frame end_frame channel_ids
       = Ok (slice_cols filtered_padded_chunk padding
               (padding + (end_frame - start_frame)))
    /\ has_shape (slice_cols filtered_padded_chunk padding
                    (padding + (end_frame - start_frame)))
         (length channel_ids) (Z.to_nat (end_frame - start_frame)).
Proof.
  intros Htype Hfs Hread Hlt Hpad.
  destruct (Hread (start_frame - padding)%Z (end_frame + padding)%Z channel_ids)
    as (padded & Hp & Hw & Hwell & H0).
  assert (Hshape : has_shape padded (length channel_ids)
                     (Z.to_nat (end_frame - start_frame + 2 * padding))).
  { replace (end_frame - start_frame + 2 * padding)%Z
      with (end_frame + padding - (start_frame - padding))%Z by lia.
    unfold has_shape. rewrite <- Hw. auto. }
  destruct (do_filter_shape self padded _ _ Htype Hfs Hshape)
    as (filtered & n' & Hf & Hfshape & Hn'); [lia|].
  exists padded, filtered.
  split; [exact Hp|]. split; [exact Hshape|]. split; [exact Hf|].
  split.
  - unfold filter_chunk_padded. rewrite Hp. cbn [bind]. rewrite Hf. cbn [bind].
    do 2 f_equal; lia.
  - replace (Z.to_nat (end_frame - start_frame))
      with (Z.to_nat (padding + (end_frame - start_frame) - padding)) by (f_equal; lia).
    apply (slice_cols_shape filtered _ _ _ n' Hfshape); lia.
Qed.

End FilterChunk.

(** C1. For a view returned by the constructor with type ['fft'] or
    ['butter'] over a recording with a non-zero sampling frequency, a reader
    that returns the whole window, and [start_frame < end_frame]:
    [filter_chunk] reads the window [start_frame - 3000, end_frame + 3000),
    filters it and returns the columns [3000, 3000 + (end_frame -
    start_frame)) of the result, an array with [end_frame - start_frame]
    samples for each of the channels asked for. The same holds with any
    guard band of at least one sample in place of 3000. *)
Theorem filter_chunk_returns_requested_length (erf : R -> R)
    (butter : Z -> list R -> result (list R * list R)) (roots : list R -> list C)
    (filtfilt : list R -> list R -> list R -> list R)
    (_read_chunk : RecordingExtractor -> Z -> Z -> list Z -> result (array2 R))
    (recording : RecordingExtractor) (freq_min freq_max freq_wid : R)
    (filter_type : string) (order : Z) (chunk_size : option Z) (cache_chunks : bool)
    (dtype : option string) (self : BandpassFilterRecording)
    (start_frame end_frame : Z) (channel_ids : list Z) :
  __init__ butter roots recording freq_min freq_max freq_wid filter_type order
    chunk_size cache_chunks dtype = Ok self ->
  filter_type = "fft"%string \/ filter_type = "butter"%string ->
  get_sampling_frequency recording <> 0 ->
  (forall b a x, length (filtfilt b a x) = length x) ->
  reads_whole_window _read_chunk recording ->
  (start_frame < end_frame)%Z ->
  (exists padded_chunk filtered_padded_chunk,
      _read_chunk recording (start_frame - 3000)%Z (end_frame + 3000)%Z channel_ids
      = Ok padded_chunk
      /\ has_shape padded_chunk (length channel_ids)
           (Z.to_nat (end_frame - start_frame + 6000))
      /\ _do_filter erf filtfilt self padded_chunk = Ok filtered_padded_chunk
      /\ filter_chunk erf filtfilt _read_chunk self start_frame end_frame channel_ids
         = Ok (slice_cols filtered_padded_chunk 3000 (3000 + (end_frame - start_frame)))
      /\ has_shape (slice_cols filtered_padded_chunk 3000
                      (3000 + (end_frame - start_frame)))
           (length channel_ids) (Z.to_nat (end_frame - start_frame)))
  /\ (forall padding, (1 <= padding)%Z ->
      exists out,
        filter_chunk_padded erf filtfilt _read_chunk padding self
          start_frame end_frame channel_ids = Ok out
        /\ has_shape out (length channel_ids) (Z.to_nat (end_frame - start_frame))).
Proof.
  intros Hinit Hft Hfs Hlen Hread Hlt.
  destruct (init_stores butter roots _ _ _ _ _ _ _ _ _ _ Hinit)
    as (Hrec & Htype & _ & _ & _ & Hba).
  assert (Htype' : _type self = "fft"%string \/
            (_type self = "butter"%string /\ exists b a, _b_a self = Some (b, a))).
  { rewrite Htype. destruct Hft as [E|E]; [now left | right; auto]. }
  rewrite <- Hrec in Hfs, Hread |- *.
  split.
  - destruct (filter_chunk_padded_shape erf filtfilt _read_chunk Hlen 3000 self
                start_frame end_frame channel_ids Htype' Hfs Hread Hlt)
      as (padded & filtered & Hp & Hs & Hf & Hc & Hout); [lia|].
    exists padded, filtered.
    replace (end_frame - start_frame + 6000)%Z
      with (end_frame - start_frame + 2 * 3000)%Z by lia.
    repeat split; try apply Hs; try apply Hout; assumption.
  - intros padding Hpad.
    destruct (filter_chunk_padded_shape erf filtfilt _read_chunk Hlen padding self
                start_frame end_frame channel_ids Htype' Hfs Hread Hlt Hpad)
      as (padded & filtered & Hp & Hs & Hf & Hc & Hout).
    eexists. split; [exact Hc | exact Hout].
Qed.

Lemma length_slice_clamped {A : Type} (r : list A) (lo hi : Z) :
  (0 <= lo)%Z -> (0 <= hi)%Z ->
  length (slice r lo hi)
  = (Nat.min (Z.to_nat hi) (length r) - Nat.min (Z.to_nat lo) (length r))%nat.
Proof.
  intros Hlo Hhi. unfold slice, slice_bound.
  destruct (Z.ltb_spec lo 0); [lia|]. destruct (Z.ltb_spec hi 0); [lia|].
  rewrite length_firstn, length_skipn. lia.
Qed.

(** The guard band has to be there: without one, a spectral request of an
    odd number [2 q + 1] of samples returns [2 q] samples, because the
    inverse transform of the one-sided spectrum of an odd-length chunk has
    one sample less. *)
Remark no_guard_band_odd_request (erf : R -> R)
    (filtfilt : list R -> list R -> list R -> list R)
    (_read_chunk : RecordingExtractor -> Z -> Z -> list Z -> result (array2 R))
    (self : BandpassFilterRecording) (start_frame end_frame : Z)
    (channel_ids : list Z) (q : Z) :
  _type self = "fft"%string ->
  get_sampling_frequency (_recording self) <> 0 ->
  reads_whole_window _read_chunk (_recording self) ->
  (1 <= q)%Z -> (end_frame - start_frame = 2 * q + 1)%Z ->
  exists out,
    filter_chunk_padded erf filtfilt _read_chunk 0 self start_frame end_frame channel_ids
    = Ok out
    /\ has_shape out (length channel_ids) (Z.to_nat (2 * q)).
Proof.
  intros Htype Hfs Hread Hq Hodd.
  destruct (Hread (start_frame - 0)%Z (end_frame + 0)%Z channel_ids)
    as (padded & Hp & Hw & Hwell & H0).
  assert (Hn : width padded = Z.to_nat (2 * q + 1)) by (rewrite Hw; f_equal; lia).
  pose proof (half_twice_bounds (width padded)) as Hh.
  assert (Hhalf : (2 * (width padded / 2))%nat = Z.to_nat (2 * q)) by lia.
  unfold filter_chunk_padded. cbv zeta. rewrite Hp. cbn [bind].
  rewrite do_filter_fft by (try assumption; lia). cbn [bind].
  eexists. split; [reflexivity|].
  unfold has_shape, slice_cols, shape0. cbn [rows width].
  rewrite !length_map, Hhalf. split; [exact H0|]. split.
  - unfold slice_bound.
    destruct (Z.ltb_spec (end_frame - (start_frame - 0)) 0); [lia|].
    destruct (Z.ltb_spec (start_frame - (start_frame - 0)) 0); lia.
  - apply Forall_map, Forall_map. revert Hwell. apply Forall_impl. intros r Hr.
    rewrite length_slice_clamped by lia.
    rewrite length_filter_row by (rewrite ?length_kernel_of; lia). lia.
Qed.

Lemma length_frames (i1 i2 : Z) : length (frames i1 i2) = Z.to_nat (i2 - i1).
Proof. unfold frames. now rewrite length_map, length_seq. Qed.

Lemma window_shape (signal : Z -> Z -> R) (i1 i2 : Z) (channel_ids : list Z) :
  has_shape (window signal i1 i2 channel_ids) (length channel_ids) (Z.to_nat (i2 - i1)).
Proof.
  unfold has_shape, window, shape0. cbn [rows width]. rewrite length_map.
  split; [reflexivity|]. split; [reflexivity|].
  apply Forall_map, Forall_forall. intros c _.
  now rewrite length_map, length_frames.
Qed.

Lemma zero_filled_read_whole_window (recording : RecordingExtractor) :
  reads_whole_window zero_filled_read recording.
Proof.
  intros i1 i2 channel_ids. eexists. split; [reflexivity|].
  destruct (window_shape (sample_or_zero recording) i1 i2 channel_ids) as (H0 & Hw & Hr).
  split; [exact Hw|]. split; [|exact H0].
  unfold well_shaped. now rewrite Hw.
Qed.

Lemma init_plain_view (butter : Z -> list R -> result (list R * list R))
    (roots : list R -> list C) (recording : RecordingExtractor)
    (freq_min freq_max freq_wid : R) (filter_type : string) :
  filter_type <> "butter"%string ->
  __init__ butter roots recording freq_min freq_max freq_wid filter_type 3 None false None
  = Ok (plain_view recording freq_min freq_max freq_wid filter_type).
Proof.
  intros H. apply String.eqb_neq in H. unfold __init__. now rewrite H.
Qed.

Lemma filter_chunk_returns_requested_length_witness :
  exists out,
    filter_chunk soft_sign pass_through zero_filled_read
      (plain_view (silent_recording 30000) 300 6000 1000 "fft") 0 5000 [0%Z; 1%Z]
    = Ok out
    /\ has_shape out 2 5000.
Proof.
  destruct (filter_chunk_returns_requested_length soft_sign one_pole_design linear_roots
              pass_through zero_filled_read (silent_recording 30000) 300 6000 1000 "fft"
              3 None false None
              (plain_view (silent_recording 30000) 300 6000 1000 "fft")
              0 5000 [0%Z; 1%Z])
    as [(padded & filtered & _ & _ & _ & Hc & Hs) _].
  - apply init_plain_view. discriminate.
  - now left.
  - cbn. lra.
  - reflexivity.
  - apply zero_filled_read_whole_window.
  - lia.
  - eexists. split; [exact Hc|].
    replace 5000%nat with (Z.to_nat (5000 - 0)) by (rewrite Z.sub_0_r; apply Z2Nat.inj_pos || reflexivity).
    exact Hs.
Defined.

(** ** Finite sums *)

Lemma bigsum_ext (n : nat) (f g : nat -> R) :
  (forall i, (i < n)%nat -> f i = g i) -> bigsum n f = bigsum n g.
Proof.
  induction n as [|n IH]; intros H; simpl; [reflexivity|].
  rewrite IH by (intros i Hi; apply H; lia). now rewrite H by lia.
Qed.

Lemma bigsum_zero (n : nat) (f : nat -> R) :
  (forall i, (i < n)%nat -> f i = 0) -> bigsum n f = 0.
Proof.
  induction n as [|n IH]; intros H; simpl; [reflexivity|].
  rewrite IH by (intros i Hi; apply H; lia). rewrite H by lia. ring.
Qed.

Lemma bigsum_plus (n : nat) (f g : nat -> R) :
  bigsum n (fun i => f i + g i) = bigsum n f + bigsum n g.
Proof. induction n as [|n IH]; simpl; [ring | rewrite IH; ring]. Qed.

Lemma bigsum_minus (n : nat) (f g : nat -> R) :
  bigsum n (fun i => f i - g i) = bigsum n f - bigsum n g.
Proof. induction n as [|n IH]; simpl; [ring | rewrite IH; ring]. Qed.

Lemma bigsum_scal (n : nat) (c : R) (f : nat -> R) :
  bigsum n (fun i => c * f i) = c * bigsum n f.
Proof. induction n as [|n IH]; simpl; [ring | rewrite IH; ring]. Qed.

Lemma bigsum_swap (n m : nat) (f : nat -> nat -> R) :
  bigsum n (fun i => bigsum m (fun j => f i j))
  = bigsum m (fun j => bigsum n (fun i => f i j)).
Proof.
  induction n as [|n IH]; simpl.
  - symmetry. now apply bigsum_zero.
  - rewrite IH. now rewrite <- bigsum_plus.
Qed.

(** A sum with one term that may differ from zero. *)
Lemma bigsum_single (n i0 : nat) (f : nat -> R) :
  (i0 < n)%nat -> (forall i, (i < n)%nat -> i <> i0 -> f i = 0) ->
  bigsum n f = f i0.
Proof.
  induction n as [|n IH]; intros Hi H; [lia|]. simpl.
  destruct (Nat.eq_dec i0 n) as [->|Hne].
  - rewrite bigsum_zero by (intros i Hlt; apply H; lia). ring.
  - rewrite IH by (try lia; intros i Hlt Hd; apply H; lia).
    rewrite (H n) by lia. ring.
Qed.

Lemma bigsum_app (a b : nat) (f : nat -> R) :
  bigsum (a + b) f = bigsum a f + bigsum b (fun i => f (a + i)%nat).
Proof.
  induction b as [|b IH]; simpl.
  - rewrite Nat.add_0_r. ring.
  - rewrite Nat.add_succ_r. simpl. rewrite IH. ring.
Qed.

Lemma bigsum_abs_le (n : nat) (f : nat -> R) (c : R) :
  (forall i, (i < n)%nat -> Rabs (f i) <= c) ->
  Rabs (bigsum n f) <= INR n * c.
Proof.
  induction n as [|n IH]; intros H.
  - simpl. rewrite Rabs_R0. lra.
  - cbn [bigsum]. rewrite S_INR.
    pose proof (Rabs_triang (bigsum n f) (f n)) as Ht.
    pose proof (IH (fun i Hi => H i (Nat.lt_lt_succ_r _ _ Hi))) as H1.
    pose proof (H n (Nat.lt_succ_diag_r n)) as H2. lra.
Qed.

(** ** Sums of cosines over the bins *)

Lemma cos_pair_step (a b : R) :
  sin b * (cos a + cos (a + 2 * b)) = cos b * (sin (a + 2 * b) - sin a).
Proof.
  rewrite cos_plus, sin_plus, cos_2a, sin_2a.
  pose proof (sin2_cos2 b) as H. unfold Rsqr in H.
  replace (sin b * (cos a + (cos a * (cos b * cos b - sin b * sin b)
                             - sin a * (2 * sin b * cos b))))
    with (cos b * (sin a * (cos b * cos b - sin b * sin b)
                   + cos a * (2 * sin b * cos b) - sin a)
          + (1 - (sin b * sin b + cos b * cos b)) * (sin b * cos a + cos b * sin a))
    by ring.
  rewrite H. ring.
Qed.

Lemma cos_sum_closed_form (theta : R) (h : nat) :
  sin (theta / 2)
  * (2 * bigsum h (fun k => cos (INR k * theta)) - 1 + cos (INR h * theta))
  = sin (INR h * theta) * cos (theta / 2).
Proof.
  induction h as [|h IH].
  - simpl. rewrite Rmult_0_l, cos_0, sin_0. ring.
  - cbn [bigsum]. rewrite S_INR.
    replace ((INR h + 1) * theta) with (INR h * theta + 2 * (theta / 2)) by field.
    pose proof (cos_pair_step (INR h * theta) (theta / 2)) as Hs.
    replace (sin (theta / 2)
             * (2 * (bigsum h (fun k => cos (INR k * theta)) + cos (INR h * theta)) - 1
                + cos (INR h * theta + 2 * (theta / 2))))
      with (sin (theta / 2)
            * (2 * bigsum h (fun k => cos (INR k * theta)) - 1 + cos (INR h * theta))
            + sin (theta / 2) * (cos (INR h * theta) + cos (INR h * theta + 2 * (theta / 2))))
      by ring.
    rewrite IH, Hs. ring.
Qed.

Lemma hermitian_weight_last (h : nat) : hermitian_weight (h + 1) h = 1.
Proof.
  unfold hermitian_weight. replace (h + 1 - 1)%nat with h by lia.
  rewrite Nat.eqb_refl. now rewrite orb_true_r.
Qed.

Lemma hermitian_weight_inner (h k : nat) :
  (k < h)%nat -> hermitian_weight (h + 1) k = if (k =? 0)%nat then 1 else 2.
Proof.
  intros Hk. unfold hermitian_weight. replace (h + 1 - 1)%nat with h by lia.
  destruct (Nat.eqb_spec k h) as [E|_]; [lia|]. now rewrite orb_false_r.
Qed.

Lemma hermitian_sum (h : nat) (c : nat -> R) :
  (1 <= h)%nat ->
  bigsum (h + 1) (fun k => hermitian_weight (h + 1) k * c k)
  = 2 * bigsum h c - c 0%nat + c h.
Proof.
  intros Hh. rewrite Nat.add_1_r. cbn [bigsum]. rewrite <- Nat.add_1_r.
  rewrite hermitian_weight_last.
  rewrite (bigsum_ext h _ (fun k => 2 * c k - (if (k =? 0)%nat then c 0%nat else 0))).
  - rewrite bigsum_minus, bigsum_scal.
    rewrite (bigsum_single h 0 (fun k => if (k =? 0)%nat then c 0%nat else 0)).
    + simpl. ring.
    + lia.
    + intros i _ Hi. destruct (Nat.eqb_spec i 0); [contradiction|reflexivity].
  - intros k Hk. rewrite hermitian_weight_inner by exact Hk.
    destruct (Nat.eqb_spec k 0) as [->|_]; ring.
Qed.

(** The angle between samples [j] and [l], seen from bin [k]. *)
Lemma angle_difference (n j l k : nat) :
  angle n j k - angle n l k = INR k * (2 * PI * (INR j - INR l) / INR n).
Proof. unfold angle, Rdiv. ring. Qed.

Lemma sin_integer_multiple_of_pi (j l : nat) : sin ((INR j - INR l) * PI) = 0.
Proof.
  apply sin_eq_0_1. exists (Z.of_nat j - Z.of_nat l)%Z.
  now rewrite minus_IZR, <- !INR_IZR_INZ.
Qed.

Lemma sin_fraction_of_pi (n j l : nat) :
  (j < n)%nat -> (l < n)%nat -> j <> l ->
  sin (PI * (INR j - INR l) / INR n) <> 0.
Proof.
  intros Hj Hl Hne.
  assert (Hn : 0 < INR n) by (apply lt_0_INR; lia).
  assert (Hj' : INR j < INR n) by (now apply lt_INR).
  assert (Hl' : INR l < INR n) by (now apply lt_INR).
  pose proof (pos_INR j). pose proof (pos_INR l). pose proof PI_RGT_0 as Hpi.
  destruct (Nat.lt_total j l) as [Hlt|[E|Hgt]]; [|contradiction|].
  - assert (Hd : 0 < INR l - INR j) by (apply lt_INR in Hlt; lra).
    replace (PI * (INR j - INR l) / INR n) with (- (PI * (INR l - INR j) / INR n))
      by (unfold Rdiv; ring).
    rewrite sin_neg.
    assert (0 < sin (PI * (INR l - INR j) / INR n)); [|lra].
    apply sin_gt_0.
    + unfold Rdiv. apply Rmult_lt_0_compat; [nra | now apply Rinv_0_lt_compat].
    + apply (Rmult_lt_reg_r (INR n)); [exact Hn|].
      unfold Rdiv. rewrite Rmult_assoc, Rinv_l by lra. nra.
  - assert (Hd : 0 < INR j - INR l) by (apply lt_INR in Hgt; lra).
    assert (0 < sin (PI * (INR j - INR l) / INR n)); [|lra].
    apply sin_gt_0.
    + unfold Rdiv. apply Rmult_lt_0_compat; [nra | now apply Rinv_0_lt_compat].
    + apply (Rmult_lt_reg_r (INR n)); [exact Hn|].
      unfold Rdiv. rewrite Rmult_assoc, Rinv_l by lra. nra.
Qed.

(** Orthogonality: the weights of an all-ones kernel. *)
Lemma hermitian_cos_sum (h j l : nat) :
  (1 <= h)%nat -> (j < 2 * h)%nat -> (l < 2 * h)%nat ->
  bigsum (h + 1) (fun k =>
    hermitian_weight (h + 1) k * cos (angle (2 * h) j k - angle (2 * h) l k))
  = if (j =? l)%nat then INR (2 * h) else 0.
Proof.
  intros Hh Hj Hl.
  assert (Hn : INR (2 * h) <> 0) by (apply not_0_INR; lia).
  assert (H2h : INR (2 * h) = 2 * INR h) by (rewrite mult_INR; simpl; ring).
  rewrite (hermitian_sum h (fun k => cos (angle (2 * h) j k - angle (2 * h) l k)) Hh).
  set (theta := 2 * PI * (INR j - INR l) / INR (2 * h)).
  rewrite (bigsum_ext h _ (fun k => cos (INR k * theta)))
    by (intros k _; now rewrite angle_difference).
  rewrite !angle_difference. fold theta. simpl (INR 0). rewrite Rmult_0_l, cos_0.
  destruct (Nat.eqb_spec j l) as [->|Hne].
  - assert (Ht : theta = 0) by (unfold theta, Rdiv; ring).
    rewrite Ht. rewrite (bigsum_ext h _ (fun _ => 1))
      by (intros k _; now rewrite Rmult_0_r, cos_0).
    rewrite Rmult_0_r, cos_0.
    assert (Hone : forall m, bigsum m (fun _ => 1) = INR m).
    { induction m as [|m IHm]; [reflexivity|]. cbn [bigsum]. rewrite S_INR, IHm. ring. }
    rewrite Hone, H2h. ring.
  - pose proof (cos_sum_closed_form theta h) as Hc.
    assert (Hh0 : INR h <> 0) by (apply not_0_INR; lia).
    assert (Hs : sin (INR h * theta) = 0).
    { replace (INR h * theta) with ((INR j - INR l) * PI)
        by (unfold theta; rewrite H2h; field; exact Hh0).
      apply sin_integer_multiple_of_pi. }
    assert (Hq : sin (theta / 2) <> 0).
    { replace (theta / 2) with (PI * (INR j - INR l) / INR (2 * h))
        by (unfold theta; field; exact Hn).
      now apply sin_fraction_of_pi. }
    rewrite Hs, Rmult_0_l in Hc.
    apply Rmult_integral in Hc. destruct Hc as [Hc|Hc]; [contradiction|exact Hc].
Qed.

(** ** The spectral filter as a weighted sum of the input samples *)

Lemma nth_map_seq {A : Type} (F : nat -> A) (n j : nat) (d : A) :
  (j < n)%nat -> nth j (map F (seq 0 n)) d = F j.
Proof.
  intros Hj. rewrite (nth_indep _ d (F 0%nat)) by (now rewrite length_map, length_seq).
  rewrite (map_nth F (seq 0 n) 0%nat). now rewrite seq_nth.
Qed.

Lemma nth_map2 {A B D : Type} (f : A -> B -> D) (xs : list A) (ys : list B)
    (k : nat) (da : A) (db : B) (d : D) :
  (k < length xs)%nat -> (k < length ys)%nat ->
  nth k (map2 f xs ys) d = f (nth k xs da) (nth k ys db).
Proof.
  revert ys k. induction xs as [|x xs IH]; intros [|y ys] [|k]; simpl; intros H1 H2;
    try lia; [reflexivity | apply IH; lia].
Qed.

Lemma nth_firstn {A : Type} (l : list A) (m k : nat) (d : A) :
  (k < m)%nat -> nth k (firstn m l) d = nth k l d.
Proof.
  revert m k. induction l as [|a l IH]; intros [|m] [|k] H; simpl; try lia;
    try reflexivity. apply IH. lia.
Qed.

Lemma half_double (h : nat) : (2 * h / 2 = h)%nat.
Proof. rewrite Nat.mul_comm. apply Nat.div_mul. lia. Qed.

Lemma filter_row_nth (kernel : list R) (h : nat) (x : list R) (j : nat) :
  (1 <= h)%nat -> length x = (2 * h)%nat -> (h + 1 <= length kernel)%nat ->
  (j < 2 * h)%nat ->
  nth j (filter_row kernel (2 * h) x) 0
  = bigsum (2 * h) (fun l => nth l x 0 * circ_kernel kernel (2 * h) j l) / INR (2 * h).
Proof.
  intros Hh Hx Hker Hj. unfold filter_row, circ_kernel. rewrite half_double.
  set (X := map2 Cscale (rfft_row x) (firstn (h + 1) kernel)).
  assert (HX : length X = (h + 1)%nat).
  { unfold X. rewrite length_map2, length_rfft_row, length_firstn, Hx, half_double. lia. }
  unfold irfft_row. rewrite HX.
  replace (2 * (h + 1 - 1))%nat with (2 * h)%nat by lia.
  rewrite nth_map_seq by exact Hj. f_equal.
  rewrite (bigsum_ext (2 * h) _
             (fun l => bigsum (h + 1) (fun k =>
                nth l x 0 * (hermitian_weight (h + 1) k * nth k kernel 0
                             * cos (angle (2 * h) j k - angle (2 * h) l k)))))
    by (intros l _; now rewrite bigsum_scal).
  rewrite bigsum_swap. apply bigsum_ext. intros k Hk.
  assert (HXk : nth k X (0, 0)
                = Cscale (bigsum (2 * h) (fun l => nth l x 0 * cos (angle (2 * h) l k)),
                          - bigsum (2 * h) (fun l => nth l x 0 * sin (angle (2 * h) l k)))
                         (nth k kernel 0)).
  { unfold X.
    rewrite (nth_map2 Cscale _ _ k (0, 0) 0)
      by (rewrite ?length_rfft_row, ?length_firstn, ?Hx, ?half_double; lia).
    rewrite nth_firstn by exact Hk. f_equal.
    unfold rfft_row. rewrite Hx, half_double. now rewrite nth_map_seq by exact Hk. }
  rewrite HXk. unfold Cscale. cbn [fst snd].
  rewrite (bigsum_ext (2 * h)
             (fun l => nth l x 0 * (hermitian_weight (h + 1) k * nth k kernel 0
                                    * cos (angle (2 * h) j k - angle (2 * h) l k)))
             (fun l =>
                hermitian_weight (h + 1) k * nth k kernel 0 * cos (angle (2 * h) j k)
                * (nth l x 0 * cos (angle (2 * h) l k))
                + hermitian_weight (h + 1) k * nth k kernel 0 * sin (angle (2 * h) j k)
                  * (nth l x 0 * sin (angle (2 * h) l k))))
    by (intros l _; rewrite cos_minus; ring).
  rewrite bigsum_plus, !bigsum_scal. ring.
Qed.

(** ** The all-pass kernel: the filter returns its input *)

Lemma circ_kernel_ones (kernel : list R) (h j l : nat) :
  (1 <= h)%nat -> (j < 2 * h)%nat -> (l < 2 * h)%nat ->
  (forall k, (k <= h)%nat -> nth k kernel 0 = 1) ->
  circ_kernel kernel (2 * h) j l = if (j =? l)%nat then INR (2 * h) else 0.
Proof.
  intros Hh Hj Hl Hone. unfold circ_kernel. rewrite half_double.
  rewrite <- (hermitian_cos_sum h j l Hh Hj Hl).
  apply bigsum_ext. intros k Hk. rewrite Hone by lia. ring.
Qed.

Lemma filter_row_allpass (kernel : list R) (h : nat) (x : list R) :
  (1 <= h)%nat -> length x = (2 * h)%nat -> (h + 1 <= length kernel)%nat ->
  (forall k, (k <= h)%nat -> nth k kernel 0 = 1) ->
  filter_row kernel (2 * h) x = x.
Proof.
  intros Hh Hx Hker Hone.
  apply (nth_ext _ _ 0 0).
  - rewrite length_filter_row by (rewrite ?half_double; lia).
    rewrite half_double. lia.
  - intros j Hj.
    rewrite length_filter_row in Hj by (rewrite ?half_double; lia).
    rewrite half_double in Hj.
    rewrite filter_row_nth by assumption.
    rewrite (bigsum_single (2 * h) j); [|exact Hj|].
    + rewrite circ_kernel_ones by assumption. rewrite Nat.eqb_refl.
      field. apply not_0_INR. lia.
    + intros l Hl Hne. rewrite circ_kernel_ones by assumption.
      destruct (Nat.eqb_spec j l) as [E|_]; [congruence | ring].
Qed.

Lemma gain_allpass (erf : R -> R) (N : Z) (fs freq_wid : R) (k : Z) :
  gain erf N fs 0 0 freq_wid k = 1.
Proof.
  unfold gain, power_gain. cbv zeta.
  destruct (Req_dec_T 0 0) as [_|E]; [apply sqrt_1 | contradiction].
Qed.

Lemma nth_kernel_of (erf : R -> R) (self : BandpassFilterRecording) (n k : nat) :
  (k < n)%nat ->
  nth k (kernel_of erf self n) 0
  = gain erf (Z.of_nat n) (get_sampling_frequency (_recording self))
      (_freq_min self) (_freq_max self) (_freq_wid self) (Z.of_nat k).
Proof.
  intros Hk. unfold kernel_of.
  rewrite <- (Nat2Z.id k) at 1. apply nth_map_arange. lia.
Qed.


Lemma map_fixed {A : Type} (f : A -> A) (l : list A) :
  Forall (fun a => f a = a) l -> map f l = l.
Proof.
  induction 1 as [|a l Ha _ IH]; simpl; [reflexivity | now rewrite Ha, IH].
Qed.

(** On a chunk with an even number (at least two) of samples the all-pass
    filter is the identity. *)
Lemma do_filter_allpass_even (erf : R -> R)
    (filtfilt : list R -> list R -> list R -> list R)
    (self : BandpassFilterRecording) (chunk : array2 R) (h : nat) :
  _type self = "fft"%string ->
  get_sampling_frequency (_recording self) <> 0 ->
  _freq_min self = 0 -> _freq_max self = 0 ->
  (1 <= h)%nat -> width chunk = (2 * h)%nat -> well_shaped chunk ->
  _do_filter erf filtfilt self chunk = Ok chunk.
Proof.
  intros Htype Hfs Hmin Hmax Hh Hw Hwell.
  rewrite do_filter_fft by (try assumption; lia).
  rewrite Hw, half_double. destruct chunk as [rs w]. cbn [rows width] in *. subst w.
  f_equal. f_equal. apply map_fixed. revert Hwell. apply Forall_impl.
  intros r Hr. apply filter_row_allpass; try assumption.
  - rewrite length_kernel_of. lia.
  - intros k Hk. rewrite nth_kernel_of by lia. rewrite Hmin, Hmax. apply gain_allpass.
Qed.

(** ** Values of [filter_chunk] *)

Lemma nth_skipn_shift {A : Type} (l : list A) (s i : nat) (d : A) :
  nth i (skipn s l) d = nth (s + i) l d.
Proof.
  revert l. induction s as [|s IH]; intros l; [reflexivity|].
  destruct l as [|a l]; simpl; [now destruct i | apply IH].
Qed.

Lemma nth_slice {A : Type} (r : list A) (lo hi : Z) (i : nat) (d : A) :
  (0 <= lo <= hi)%Z -> (Z.to_nat hi <= length r)%nat ->
  (i < Z.to_nat (hi - lo))%nat ->
  nth i (slice r lo hi) d = nth (Z.to_nat lo + i) r d.
Proof.
  intros H Hlen Hi. unfold slice, slice_bound.
  destruct (Z.ltb_spec lo 0); [lia|]. destruct (Z.ltb_spec hi 0); [lia|].
  rewrite nth_firstn by lia. rewrite nth_skipn_shift. f_equal. lia.
Qed.

Lemma nth_window_row (f : Z -> R) (i1 i2 : Z) (l : nat) :
  (l < Z.to_nat (i2 - i1))%nat ->
  nth l (map f (frames i1 i2)) 0 = f (i1 + Z.of_nat l)%Z.
Proof.
  intros H. unfold frames. rewrite map_map. now rewrite nth_map_seq.
Qed.

Section Values.

Variable erf : R -> R.
Variable filtfilt : list R -> list R -> list R -> list R.
Variable _read_chunk : RecordingExtractor -> Z -> Z -> list Z -> result (array2 R).

(** The samples of a spectral [filter_chunk] over a window of an even
    number [2 h] of samples: sample [i] of a channel is the weighted sum of
    the window, the weights those of output sample [3000 + i]. *)
Lemma filter_chunk_fft_values (self : BandpassFilterRecording)
    (signal : Z -> Z -> R) (start_frame end_frame : Z) (channel_ids : list Z)
    (h : nat) :
  _type self = "fft"%string ->
  get_sampling_frequency (_recording self) <> 0 ->
  reads_signal _read_chunk (_recording self) signal ->
  (start_frame < end_frame)%Z ->
  Z.to_nat (end_frame - start_frame + 6000) = (2 * h)%nat ->
  exists out,
    filter_chunk erf filtfilt _read_chunk self start_frame end_frame channel_ids = Ok out
    /\ has_shape out (length channel_ids) (Z.to_nat (end_frame - start_frame))
    /\ forall c i,
         (c < length channel_ids)%nat -> (i < Z.to_nat (end_frame - start_frame))%nat ->
         nth i (nth c (rows out) []) 0
         = bigsum (2 * h) (fun l =>
             signal (nth c channel_ids 0%Z) (start_frame - 3000 + Z.of_nat l)%Z
             * circ_kernel (kernel_of erf self (2 * h)) (2 * h) (Z.to_nat 3000 + i) l)
           / INR (2 * h).
Proof.
  intros Htype Hfs Hread Hlt Hn.
  assert (Hn' : Z.to_nat (end_frame + 3000 - (start_frame - 3000)) = (2 * h)%nat)
    by (rewrite <- Hn; f_equal; lia).
  assert (Hh : (1 <= h)%nat) by lia.
  unfold filter_chunk. cbv zeta. rewrite Hread. cbn [bind].
  rewrite do_filter_fft by (try assumption; unfold window; cbn [width]; lia).
  cbn [bind]. eexists. split; [reflexivity|].
  unfold window. cbn [rows width]. rewrite Hn', half_double, map_map.
  set (row := fun c => filter_row (kernel_of erf self (2 * h)) (2 * h)
                         (map (signal c) (frames (start_frame - 3000) (end_frame + 3000)))).
  assert (Hrow : forall c, length (row c) = (2 * h)%nat).
  { intros c. unfold row. rewrite length_filter_row.
    - now rewrite half_double.
    - now rewrite length_map, length_frames.
    - rewrite length_kernel_of, half_double. lia. }
  assert (Hshape : has_shape (mk_array2 (map row channel_ids) (2 * h))
                     (length channel_ids) (2 * h)).
  { unfold has_shape, shape0. cbn [rows width]. rewrite length_map.
    split; [reflexivity|]. split; [reflexivity|].
    apply Forall_map, Forall_forall. intros c _. apply Hrow. }
  split.
  - replace (Z.to_nat (end_frame - start_frame))
      with (Z.to_nat (end_frame - (start_frame - 3000) - (start_frame - (start_frame - 3000))))
      by (f_equal; lia).
    apply (slice_cols_shape _ _ _ _ (2 * h) Hshape); lia.
  - intros c i Hc Hi. unfold slice_cols. cbn [rows]. rewrite map_map.
    rewrite (nth_indep _ [] (slice (row 0%Z) (start_frame - (start_frame - 3000))
                                   (end_frame - (start_frame - 3000))))
      by (now rewrite length_map).
    rewrite (map_nth (fun c0 => slice (row c0) _ _) channel_ids 0%Z).
    rewrite nth_slice by (rewrite ?Hrow; lia).
    replace (Z.to_nat (start_frame - (start_frame - 3000)) + i)%nat
      with (Z.to_nat 3000 + i)%nat by lia.
    unfold row. rewrite filter_row_nth;
      [ | exact Hh | now rewrite length_map, length_frames
        | rewrite length_kernel_of; lia | lia ].
    f_equal. apply bigsum_ext. intros l Hl.
    rewrite nth_window_row by lia. reflexivity.
Qed.

End Values.

(** ** The high-pass kernel of the counterexample *)

Lemma sqrt_above_on_unit_interval (v : R) : 0 <= v <= 1 -> v <= sqrt v <= 1.
Proof.
  intros Hv. destruct (sqrt_unit_interval v Hv) as [H0 H1].
  pose proof (sqrt_sqrt v (proj1 Hv)) as Hs. split; [nra | exact H1].
Qed.

Lemma soft_sign_erf_like : erf_like soft_sign.
Proof.
  split; [exact soft_sign_range|].
  intros x Hx. unfold soft_sign. rewrite (Rabs_pos_eq x) by lra.
  replace (1 - x / (1 + x)) with (1 / (1 + x)) by (field; lra).
  unfold Rdiv. rewrite !Rmult_1_l.
  apply Rinv_le_contravar; lra.
Qed.

Section HighPass.

Variable erf : R -> R.
Hypothesis erf_ok : erf_like erf.

Lemma highpass_gain_dc : gain erf 11000 11000 (1 / 10000) 0 1000 0 = 0.
Proof.
  unfold gain, power_gain, folded_index. cbv zeta.
  destruct (Rle_dec 0 ((11000 + 1) / 2)) as [_|Hn]; [|exfalso; apply Hn; lra].
  destruct (Req_dec_T (1 / 10000) 0) as [E|_]; [lra|].
  destruct (Rlt_dec (Rabs 0) (1 / 10)) as [_|Hn];
    [|exfalso; apply Hn; rewrite Rabs_R0; lra].
  destruct (Req_dec_T 0 0) as [_|E]; [apply sqrt_0 | contradiction].
Qed.

Lemma highpass_gain_bounds (k : Z) :
  (1 <= k <= 5500)%Z ->
  1 - 1 / 59994 <= gain erf 11000 11000 (1 / 10000) 0 1000 k <= 1.
Proof.
  intros Hk.
  assert (Hk1 : 1 <= IZR k) by (apply IZR_le; lia).
  assert (Hk2 : IZR k <= 5500) by (apply IZR_le; lia).
  unfold gain, power_gain, folded_index. cbv zeta.
  destruct (Rle_dec (IZR k) ((11000 + 1) / 2)) as [_|Hn]; [|exfalso; apply Hn; lra].
  destruct (Req_dec_T (1 / 10000) 0) as [E|_]; [lra|].
  destruct (Rlt_dec (Rabs (IZR k)) (1 / 10)) as [Hlt|_];
    [rewrite Rabs_pos_eq in Hlt by lra; lra|].
  destruct (Req_dec_T 0 0) as [_|E]; [|contradiction].
  replace (1 / (11000 / 11000) * IZR k) with (IZR k) by field.
  rewrite (Rabs_pos_eq (IZR k)) by lra.
  replace (3 * (IZR k - 1 / 10000) / (1 / 10000)) with (30000 * IZR k - 3) by field.
  set (x := 30000 * IZR k - 3).
  assert (Hx : 29997 <= x) by (unfold x; lra).
  destruct erf_ok as [Hrange Htail].
  pose proof (Hrange x) as Hr. pose proof (Htail x ltac:(lra)) as Ht.
  assert (Hinv : 1 / x <= 1 / 29997).
  { unfold Rdiv. rewrite !Rmult_1_l. apply Rinv_le_contravar; lra. }
  assert (Hhp : 1 - 1 / 59994 <= 1 * (1 + erf x) / 2 <= 1) by lra.
  destruct (sqrt_above_on_unit_interval (1 * (1 + erf x) / 2)) as [Hlo Hhi]; lra.
Qed.

End HighPass.

Lemma hermitian_weight_bounds (m k : nat) : 1 <= hermitian_weight m k <= 2.
Proof. unfold hermitian_weight. destruct (_ || _); lra. Qed.

Lemma product_bound (w e c d : R) :
  1 <= w <= 2 -> 0 <= e <= d -> -1 <= c <= 1 -> Rabs (w * e * c) <= 2 * d.
Proof.
  intros Hw He Hc. rewrite !Rabs_mult.
  rewrite (Rabs_pos_eq w) by lra. rewrite (Rabs_pos_eq e) by lra.
  assert (Hac : 0 <= Rabs c <= 1) by (split; [apply Rabs_pos | apply Rabs_le; lra]).
  assert (H1 : w * e <= 2 * d) by nra.
  assert (H2 : 0 <= w * e) by nra.
  nra.
Qed.

Lemma nth_highpass_kernel (erf : R -> R) (h k : nat) :
  h = Z.to_nat 5500 -> (k < 2 * h)%nat ->
  nth k (kernel_of erf highpass_view (2 * h)) 0
  = gain erf 11000 11000 (1 / 10000) 0 1000 (Z.of_nat k).
Proof.
  intros Hh Hk. rewrite nth_kernel_of by exact Hk.
  replace (Z.of_nat (2 * h)) with 11000%Z by lia. reflexivity.
Qed.

(** In the window of 11000 samples, the weight of input sample 9500 in
    output sample 3000 is negative: the kernel is, up to 1/59994 per bin,
    the one that removes the mean. *)
Lemma highpass_weight_negative (erf : R -> R) (h : nat) :
  erf_like erf -> h = Z.to_nat 5500 ->
  circ_kernel (kernel_of erf highpass_view (2 * h)) (2 * h)
    (Z.to_nat 3000) (Z.to_nat 9500) < 0.
Proof.
  intros Herf Hh. unfold circ_kernel. rewrite half_double.
  set (j := Z.to_nat 3000). set (l := Z.to_nat 9500).
  set (g := fun k => nth k (kernel_of erf highpass_view (2 * h)) 0).
  set (c := fun k => cos (angle (2 * h) j k - angle (2 * h) l k)).
  set (w := hermitian_weight (h + 1)).
  assert (Hsplit :
    bigsum (h + 1) (fun k => w k * nth k (kernel_of erf highpass_view (2 * h)) 0
                             * cos (angle (2 * h) j k - angle (2 * h) l k))
    = bigsum (h + 1) (fun k => w k * c k)
      - bigsum (h + 1) (fun k => w k * (1 - g k) * c k)).
  { rewrite <- bigsum_minus. apply bigsum_ext. intros k _. unfold g, c. ring. }
  rewrite Hsplit. unfold w at 1, c at 1.
  rewrite hermitian_cos_sum by (unfold j, l; lia).
  destruct (Nat.eqb_spec j l) as [E|_]; [unfold j, l in E; lia|].
  replace (h + 1)%nat with (1 + h)%nat by lia.
  rewrite bigsum_app. cbn [bigsum].
  assert (H0 : w 0%nat * (1 - g 0%nat) * c 0%nat = 1).
  { unfold w, g, c. rewrite hermitian_weight_inner by lia. cbn [Nat.eqb].
    rewrite nth_highpass_kernel by (try exact Hh; lia).
    cbn [Z.of_nat]. rewrite (highpass_gain_dc erf).
    rewrite angle_difference. simpl (INR 0). rewrite Rmult_0_l, cos_0. ring. }
  rewrite H0.
  assert (Hrest :
    Rabs (bigsum h (fun i => w (1 + i)%nat * (1 - g (1 + i)%nat) * c (1 + i)%nat))
    <= INR h * (2 * (1 / 59994))).
  { apply bigsum_abs_le. intros i Hi. apply product_bound.
    - apply hermitian_weight_bounds.
    - unfold g. rewrite nth_highpass_kernel by (try exact Hh; lia).
      pose proof (highpass_gain_bounds erf Herf (Z.of_nat (1 + i))) as Hb.
      lapply Hb; [lra | lia].
    - unfold c. apply COS_bound. }
  assert (HINR : INR h = 5500).
  { rewrite Hh, INR_IZR_INZ, Z2Nat.id by lia. reflexivity. }
  rewrite HINR in Hrest.
  unfold Rabs in Hrest. destruct (Rcase_abs _) in Hrest; lra.
Qed.

(** ** Reading entries of arrays *)

Lemma nth_map_in {A B : Type} (f : A -> B) (l : list A) (c : nat) (d : A) (d' : B) :
  (c < length l)%nat -> nth c (map f l) d' = f (nth c l d).
Proof.
  intros Hc. rewrite (nth_indep _ d' (f d)) by (now rewrite length_map).
  apply map_nth.
Qed.

Lemma has_shape_row {A : Type} (a : array2 A) (channels samples c : nat) :
  has_shape a channels samples -> (c < channels)%nat ->
  length (nth c (rows a) []) = samples.
Proof.
  intros (H0 & _ & Hr) Hc. unfold shape0 in H0.
  rewrite Forall_forall in Hr. apply Hr. apply nth_In. lia.
Qed.

Lemma nth_slice_cols (a : array2 R) (channels samples : nat) (lo hi : Z) (c i : nat) :
  has_shape a channels samples ->
  (0 <= lo <= hi)%Z -> (Z.to_nat hi <= samples)%nat ->
  (c < channels)%nat -> (i < Z.to_nat (hi - lo))%nat ->
  nth i (nth c (rows (slice_cols a lo hi)) []) 0
  = nth (Z.to_nat lo + i) (nth c (rows a) []) 0.
Proof.
  intros Hs Hb Hhi Hc Hi. unfold slice_cols. cbn [rows].
  pose proof Hs as (H0 & _). unfold shape0 in H0.
  rewrite (nth_map_in _ _ c []) by lia.
  apply nth_slice; [exact Hb | | exact Hi].
  now rewrite (has_shape_row a channels samples c Hs Hc).
Qed.

Lemma array2_ext (a b : array2 R) (channels samples : nat) :
  has_shape a channels samples -> has_shape b channels samples ->
  (forall c i, (c < channels)%nat -> (i < samples)%nat ->
     nth i (nth c (rows a) []) 0 = nth i (nth c (rows b) []) 0) ->
  a = b.
Proof.
  intros Ha Hb H.
  pose proof Ha as (Ha0 & Haw & _). pose proof Hb as (Hb0 & Hbw & _).
  pose proof (fun c => has_shape_row a channels samples c Ha) as Hla.
  pose proof (fun c => has_shape_row b channels samples c Hb) as Hlb.
  destruct a as [ra wa], b as [rb wb]. unfold shape0 in *. cbn [rows width] in *.
  subst wa wb. f_equal.
  apply (nth_ext _ _ [] []); [congruence|].
  intros c Hc. rewrite Ha0 in Hc.
  apply (nth_ext _ _ 0 0).
  - now rewrite Hla, Hlb.
  - intros i Hi. rewrite Hla in Hi by exact Hc. now apply H.
Qed.

Lemma sample_or_zero_recording_of (fs : R) (num_frames : Z) (channels : list Z)
    (signal : Z -> Z -> R) (c t : Z) :
  sample_or_zero (recording_of fs num_frames channels signal) c t
  = if ((0 <=? t) && (t <? num_frames))%Z then signal c t else 0.
Proof.
  unfold sample_or_zero, recording_of. cbn [get_num_frames get_traces].
  destruct ((0 <=? t) && (t <? num_frames))%Z; [|reflexivity].
  unfold window, frames. cbn [rows].
  replace (t + 1 - t)%Z with 1%Z by lia.
  change (Z.to_nat 1) with 1%nat. cbn [seq map Z.of_nat]. now rewrite Z.add_0_r.
Qed.

Lemma zero_filled_read_signal (recording : RecordingExtractor) :
  reads_signal zero_filled_read recording (sample_or_zero recording).
Proof. intros i1 i2 channel_ids. reflexivity. Qed.

(** ** Sums over a window that holds the whole signal *)

Lemma bigsum_support (n s m : nat) (f : nat -> R) :
  (s + m <= n)%nat ->
  (forall l, (l < n)%nat -> ~ (s <= l < s + m)%nat -> f l = 0) ->
  bigsum n f = bigsum m (fun u => f (s + u)%nat).
Proof.
  intros Hn Hz.
  replace n with (s + (m + (n - s - m)))%nat by lia.
  rewrite bigsum_app, bigsum_app.
  rewrite (bigsum_zero s) by (intros l Hl; apply Hz; lia).
  rewrite (bigsum_zero (n - s - m)) by (intros l Hl; apply Hz; lia).
  ring.
Qed.

Lemma circ_kernel_shift (kernel : list R) (n j l j' l' : nat) :
  (Z.of_nat j - Z.of_nat l = Z.of_nat j' - Z.of_nat l')%Z ->
  circ_kernel kernel n j l = circ_kernel kernel n j' l'.
Proof.
  intros H. unfold circ_kernel. apply bigsum_ext. intros k _.
  rewrite !angle_difference.
  assert (E : INR j - INR l = INR j' - INR l').
  { rewrite !INR_IZR_INZ, <- !minus_IZR. now rewrite H. }
  now rewrite E.
Qed.

(** ** Overlapping requests: claim *)

(** C5, as stated, fails. A recording with one sample at frame 9000, read
    with zeros outside the recording, behind a spectral high-pass view
    ([fs] = 11000, [freq_min] = 1/10000, [freq_max] = 0): frame 9000 lies in
    the padded window [-500, 10500) of the request [2500, 7500) and not in
    the padded window [-3000, 8000) of the request [0, 5000). For every
    [erf] with the listed properties (and [soft_sign] has them) both
    requests return, and the values on the samples [2500, 5000) differ. *)
Lemma overlap_counterexample :
  erf_like soft_sign
  /\ (forall erf, erf_like erf ->
      exists first second,
        filter_chunk erf pass_through zero_filled_read highpass_view 0 5000 [0%Z]
        = Ok first
        /\ filter_chunk erf pass_through zero_filled_read highpass_view 2500 7500 [0%Z]
           = Ok second
        /\ slice_cols first 2500 5000 <> slice_cols second 0 2500).
Proof.
  split; [exact soft_sign_erf_like|]. intros erf Herf.
  set (h := Z.to_nat 5500).
  assert (Hfs : get_sampling_frequency (_recording highpass_view) <> 0) by (cbn; lra).
  destruct (filter_chunk_fft_values erf pass_through zero_filled_read highpass_view
              (sample_or_zero impulse_recording) 0 5000 [0%Z] h eq_refl Hfs
              (zero_filled_read_signal _))
    as (first & Hfirst & Hs1 & Hv1); [lia | unfold h; lia |].
  destruct (filter_chunk_fft_values erf pass_through zero_filled_read highpass_view
              (sample_or_zero impulse_recording) 2500 7500 [0%Z] h eq_refl Hfs
              (zero_filled_read_signal _))
    as (second & Hsecond & Hs2 & Hv2); [lia | unfold h; lia |].
  exists first, second. split; [exact Hfirst|]. split; [exact Hsecond|].
  intros E. apply (f_equal (fun a => nth 0 (nth 0 (rows a) []) 0)) in E.
  change (length [0%Z]) with 1%nat in *.
  rewrite (nth_slice_cols first 1 (Z.to_nat (5000 - 0))) in E by (try exact Hs1; lia).
  rewrite (nth_slice_cols second 1 (Z.to_nat (7500 - 2500))) in E by (try exact Hs2; lia).
  rewrite Hv1, Hv2 in E by lia. cbn [nth] in E.
  (* the window of the first request holds no sample *)
  rewrite (bigsum_zero (2 * h)) in E.
  2:{ intros l Hl. unfold impulse_recording. rewrite sample_or_zero_recording_of.
      unfold impulse.
      destruct ((0 <=? 0 - 3000 + Z.of_nat l) && (0 - 3000 + Z.of_nat l <? 20000))%Z;
        [|ring].
      destruct (Z.eqb_spec (0 - 3000 + Z.of_nat l) 9000) as [E9|_];
        [unfold h in Hl; lia | ring]. }
  (* the window of the second request holds it at index 9500 *)
  rewrite (bigsum_single (2 * h) (Z.to_nat 9500)) in E.
  2:{ unfold h. lia. }
  2:{ intros l Hl Hne. unfold impulse_recording. rewrite sample_or_zero_recording_of.
      unfold impulse.
      destruct ((0 <=? 2500 - 3000 + Z.of_nat l) && (2500 - 3000 + Z.of_nat l <? 20000))%Z;
        [|ring].
      destruct (Z.eqb_spec (2500 - 3000 + Z.of_nat l) 9000) as [E9|_]; [lia | ring]. }
  replace (2500 - 3000 + Z.of_nat (Z.to_nat 9500))%Z with 9000%Z in E by lia.
  unfold impulse_recording in E. rewrite sample_or_zero_recording_of in E.
  change (impulse 0 9000) with 1 in E.
  change ((0 <=? 9000) && (9000 <? 20000))%Z with true in E. cbv iota in E.
  replace (Z.to_nat 3000 + (Z.to_nat 0 + 0))%nat with (Z.to_nat 3000) in E by lia.
  pose proof (highpass_weight_negative erf h Herf eq_refl) as Hneg.
  fold impulse_recording in E.
  assert (Hn : 0 < INR (2 * h)) by (apply lt_0_INR; unfold h; lia).
  assert (Hq : 1 * circ_kernel (kernel_of erf highpass_view (2 * h)) (2 * h)
                     (Z.to_nat 3000) (Z.to_nat 9500) / INR (2 * h) < 0).
  { unfold Rdiv. rewrite Rmult_1_l.
    pose proof (Rinv_0_lt_compat _ Hn) as Hi. nra. }
  unfold Rdiv in E at 1. rewrite Rmult_0_l in E. lra.
Qed.

(** C5, amended. For a spectral view over a recording with a non-zero
    sampling frequency, whose reads return the whole window of one signal,
    and a signal that is zero outside the frames [0, 8000), the frames that
    both padded windows [-3000, 8000) and [-500, 10500) hold: the requests
    [0, 5000) and [2500, 7500) return arrays of 5000 samples per channel
    whose values on the samples [2500, 5000) are identical. *)
Theorem overlap_agrees_inside_common_window (erf : R -> R)
    (filtfilt : list R -> list R -> list R -> list R)
    (_read_chunk : RecordingExtractor -> Z -> Z -> list Z -> result (array2 R))
    (self : BandpassFilterRecording) (signal : Z -> Z -> R) (channel_ids : list Z) :
  _type self = "fft"%string ->
  get_sampling_frequency (_recording self) <> 0 ->
  reads_signal _read_chunk (_recording self) signal ->
  (forall c t, ~ (0 <= t < 8000)%Z -> signal c t = 0) ->
  exists first second,
    filter_chunk erf filtfilt _read_chunk self 0 5000 channel_ids = Ok first
    /\ filter_chunk erf filtfilt _read_chunk self 2500 7500 channel_ids = Ok second
    /\ has_shape first (length channel_ids) (Z.to_nat 5000)
    /\ has_shape second (length channel_ids) (Z.to_nat 5000)
    /\ slice_cols first 2500 5000 = slice_cols second 0 2500.
Proof.
  intros Htype Hfs Hread Hzero.
  set (h := Z.to_nat 5500).
  destruct (filter_chunk_fft_values erf filtfilt _read_chunk self signal 0 5000
              channel_ids h Htype Hfs Hread)
    as (first & Hfirst & Hs1 & Hv1); [lia | unfold h; lia |].
  destruct (filter_chunk_fft_values erf filtfilt _read_chunk self signal 2500 7500
              channel_ids h Htype Hfs Hread)
    as (second & Hsecond & Hs2 & Hv2); [lia | unfold h; lia |].
  change (Z.to_nat (5000 - 0)) with (Z.to_nat 5000) in *.
  change (Z.to_nat (7500 - 2500)) with (Z.to_nat 5000) in *.
  exists first, second.
  split; [exact Hfirst|]. split; [exact Hsecond|].
  split; [exact Hs1|]. split; [exact Hs2|].
  apply (array2_ext _ _ (length channel_ids) (Z.to_nat 2500)).
  - change (Z.to_nat 2500) with (Z.to_nat (5000 - 2500)).
    apply (slice_cols_shape first _ _ _ (Z.to_nat 5000) Hs1); lia.
  - change (Z.to_nat 2500) with (Z.to_nat (2500 - 0)).
    apply (slice_cols_shape second _ _ _ (Z.to_nat 5000) Hs2); lia.
  - intros c i Hc Hi.
    rewrite (nth_slice_cols first (length channel_ids) (Z.to_nat 5000))
      by (try exact Hs1; lia).
    rewrite (nth_slice_cols second (length channel_ids) (Z.to_nat 5000))
      by (try exact Hs2; lia).
    rewrite Hv1, Hv2 by lia. f_equal.
    rewrite (bigsum_support (2 * h) (Z.to_nat 3000) (Z.to_nat 8000))
      by (try (unfold h; lia); intros l Hl Hout; rewrite Hzero by lia; ring).
    rewrite (bigsum_support (2 * h) (Z.to_nat 500) (Z.to_nat 8000)
               (fun l => signal _ (2500 - 3000 + Z.of_nat l)%Z * _))
      by (try (unfold h; lia); unfold h; intros l Hl Hout; rewrite Hzero by lia; ring).
    apply bigsum_ext. intros u Hu. f_equal.
    + f_equal. lia.
    + apply circ_kernel_shift. lia.
Qed.

Lemma overlap_agrees_inside_common_window_witness :
  exists first second,
    filter_chunk soft_sign pass_through zero_filled_read
      (plain_view ramp_recording 300 6000 1000 "fft") 0 5000 [0%Z; 1%Z] = Ok first
    /\ filter_chunk soft_sign pass_through zero_filled_read
         (plain_view ramp_recording 300 6000 1000 "fft") 2500 7500 [0%Z; 1%Z] = Ok second
    /\ has_shape first 2 (Z.to_nat 5000)
    /\ has_shape second 2 (Z.to_nat 5000)
    /\ slice_cols first 2500 5000 = slice_cols second 0 2500.
Proof.
  apply (overlap_agrees_inside_common_window soft_sign pass_through zero_filled_read
           (plain_view ramp_recording 300 6000 1000 "fft")
           (sample_or_zero ramp_recording) [0%Z; 1%Z]).
  - reflexivity.
  - cbn. lra.
  - apply zero_filled_read_signal.
  - intros c t Ht. unfold ramp_recording. rewrite sample_or_zero_recording_of.
    destruct (Z.leb_spec 0 t); destruct (Z.ltb_spec t 8000); cbn; try reflexivity. lia.
Defined.

(** * Further properties of the code *)

(** ** [_do_filter]: errors and shape of the spectral branch *)

Section SpectralErrors.

Variable erf : R -> R.
Variable filtfilt : list R -> list R -> list R -> list R.
Variable self : BandpassFilterRecording.
Variable chunk : array2 R.
Hypothesis type_fft : _type self = "fft"%string.

Lemma do_filter_fft_no_sample :
  width chunk = 0%nat -> _do_filter erf filtfilt self chunk = Raise fft_error.
Proof.
  intros Hw. unfold _do_filter. rewrite type_fft, String.eqb_refl.
  unfold rfft. now rewrite Hw.
Qed.

Lemma do_filter_fft_zero_frequency :
  (1 <= width chunk)%nat -> get_sampling_frequency (_recording self) = 0 ->
  _do_filter erf filtfilt self chunk = Raise ZeroDivisionError.
Proof.
  intros Hw Hfs. unfold _do_filter. rewrite type_fft, String.eqb_refl.
  unfold rfft. destruct (Nat.eqb_spec (width chunk) 0) as [E|_]; [lia|].
  cbn [bind width rows]. rewrite kernel_raises by (now left). reflexivity.
Qed.

Lemma do_filter_fft_one_sample :
  width chunk = 1%nat -> get_sampling_frequency (_recording self) <> 0 ->
  _do_filter erf filtfilt self chunk = Raise fft_error.
Proof.
  intros Hw Hfs. unfold _do_filter. rewrite type_fft, String.eqb_refl.
  unfold rfft. rewrite Hw. cbn [Nat.eqb bind width rows].
  rewrite kernel_is_map_gain by (try assumption; lia). reflexivity.
Qed.

End SpectralErrors.

(** X1. The spectral [_do_filter] raises exactly on a chunk with fewer than
    two samples or under a zero sampling frequency: the transform error on
    no sample, the division error on a zero sampling frequency with at
    least one sample, the error of the inverse transform on one sample;
    otherwise it returns. *)
Theorem spectral_do_filter_errors (erf : R -> R)
    (filtfilt : list R -> list R -> list R -> list R)
    (self : BandpassFilterRecording) (chunk : array2 R) :
  _type self = "fft"%string ->
  (width chunk = 0%nat -> _do_filter erf filtfilt self chunk = Raise fft_error)
  /\ ((1 <= width chunk)%nat -> get_sampling_frequency (_recording self) = 0 ->
      _do_filter erf filtfilt self chunk = Raise ZeroDivisionError)
  /\ (width chunk = 1%nat -> get_sampling_frequency (_recording self) <> 0 ->
      _do_filter erf filtfilt self chunk = Raise fft_error)
  /\ ((exists out, _do_filter erf filtfilt self chunk = Ok out)
      <-> (2 <= width chunk)%nat /\ get_sampling_frequency (_recording self) <> 0).
Proof.
  intros Htype.
  pose proof (do_filter_fft_no_sample erf filtfilt self chunk Htype) as H0.
  pose proof (do_filter_fft_zero_frequency erf filtfilt self chunk Htype) as Hz.
  pose proof (do_filter_fft_one_sample erf filtfilt self chunk Htype) as H1.
  split; [exact H0|]. split; [exact Hz|]. split; [exact H1|].
  split.
  - intros (out & Hout).
    destruct (Req_dec_T (get_sampling_frequency (_recording self)) 0) as [Hfs|Hfs].
    + destruct (Nat.eq_dec (width chunk) 0) as [Hw|Hw].
      * rewrite H0 in Hout by exact Hw. discriminate.
      * rewrite Hz in Hout by (try assumption; lia). discriminate.
    + split; [|exact Hfs].
      destruct (Nat.eq_dec (width chunk) 0) as [Hw|Hw];
        [rewrite H0 in Hout by exact Hw; discriminate|].
      destruct (Nat.eq_dec (width chunk) 1) as [Hw1|Hw1];
        [rewrite H1 in Hout by assumption; discriminate|].
      lia.
  - intros [Hw Hfs]. rewrite do_filter_fft by assumption. eexists. reflexivity.
Qed.

Lemma spectral_do_filter_errors_witness :
  _do_filter soft_sign pass_through
    (plain_view (silent_recording 30000) 300 6000 1000 "fft") (mk_array2 [[5]] 1)
  = Raise fft_error.
Proof.
  apply (spectral_do_filter_errors soft_sign pass_through
           (plain_view (silent_recording 30000) 300 6000 1000 "fft")
           (mk_array2 [[5]] 1) eq_refl).
  - reflexivity.
  - cbn. lra.
Defined.

(** X2. On a chunk of [channels] rows of [n >= 2] samples the spectral
    [_do_filter] returns [channels] rows of [2 * (n / 2)] samples: the shape
    of the chunk when [n] is even, one sample less per channel when [n] is
    odd. *)
Theorem spectral_do_filter_shape (erf : R -> R)
    (filtfilt : list R -> list R -> list R -> list R)
    (self : BandpassFilterRecording) (chunk : array2 R) (channels n : nat) :
  _type self = "fft"%string ->
  get_sampling_frequency (_recording self) <> 0 ->
  has_shape chunk channels n -> (2 <= n)%nat ->
  exists out,
    _do_filter erf filtfilt self chunk = Ok out
    /\ has_shape out channels (2 * (n / 2))
    /\ (Nat.Even n -> has_shape out channels n)
    /\ (Nat.Odd n -> has_shape out channels (n - 1)).
Proof.
  intros Htype Hfs (H0 & Hw & Hrows) Hn.
  rewrite do_filter_fft by (try assumption; lia).
  eexists. split; [reflexivity|].
  assert (Hs : has_shape
                 (mk_array2
                    (map (filter_row (kernel_of erf self (width chunk)) (width chunk))
                         (rows chunk))
                    (2 * (width chunk / 2)))
                 channels (2 * (n / 2))).
  { unfold has_shape, shape0. cbn [rows width]. rewrite length_map, Hw.
    split; [exact H0|]. split; [reflexivity|].
    apply Forall_map. revert Hrows. apply Forall_impl. intros r Hr.
    apply length_filter_row; [exact Hr|].
    rewrite length_kernel_of. pose proof (half_twice_bounds n). lia. }
  split; [exact Hs|]. split.
  - intros [q Hq].
    assert (E : (2 * (n / 2))%nat = n) by (rewrite Hq at 1 2; now rewrite half_double).
    now rewrite E in Hs.
  - intros [q Hq].
    assert (E : (2 * (n / 2))%nat = (n - 1)%nat)
      by (pose proof (half_twice_bounds n); lia).
    now rewrite E in Hs.
Qed.

Lemma spectral_do_filter_shape_witness :
  exists out,
    _do_filter soft_sign pass_through
      (plain_view (silent_recording 30000) 300 6000 1000 "fft")
      (mk_array2 [[1; 2; 3]; [4; 5; 6]] 3) = Ok out
    /\ has_shape out 2 2.
Proof.
  destruct (spectral_do_filter_shape soft_sign pass_through
              (plain_view (silent_recording 30000) 300 6000 1000 "fft")
              (mk_array2 [[1; 2; 3]; [4; 5; 6]] 3) 2 3)
    as (out & Hout & Hs & _).
  - reflexivity.
  - cbn. lra.
  - unfold has_shape, shape0. cbn. repeat split. repeat constructor.
  - lia.
  - exists out. split; [exact Hout | exact Hs].
Defined.

(** ** [filter_chunk]: a request with no frame *)

Lemma slice_bound_ordered (lo hi : Z) (len : nat) :
  (0 <= lo)%Z -> (hi <= lo)%Z -> ((hi < 0)%Z -> (len <= Z.to_nat lo)%nat) ->
  (slice_bound hi len <= slice_bound lo len)%nat.
Proof.
  intros Hlo Hle Hneg. unfold slice_bound.
  destruct (Z.ltb_spec lo 0); [lia|].
  destruct (Z.ltb_spec hi 0) as [Hh|Hh]; [specialize (Hneg Hh)|]; lia.
Qed.

Lemma length_slice_empty {A : Type} (r : list A) (lo hi : Z) :
  (0 <= lo)%Z -> (hi <= lo)%Z -> ((hi < 0)%Z -> (length r <= Z.to_nat lo)%nat) ->
  length (slice r lo hi) = 0%nat.
Proof.
  intros Hlo Hle Hneg. unfold slice.
  pose proof (slice_bound_ordered lo hi (length r) Hlo Hle Hneg).
  rewrite length_firstn. lia.
Qed.

(** X3. A spectral request with [end_frame <= start_frame] is not refused as
    such: while the padded window still has two samples ([end_frame >=
    start_frame - 5998]) [filter_chunk] returns an array with the channels
    asked for and no sample; below that the window has at most one sample
    and the transform raises. *)
Theorem spectral_request_without_frames (erf : R -> R)
    (filtfilt : list R -> list R -> list R -> list R)
    (_read_chunk : RecordingExtractor -> Z -> Z -> list Z -> result (array2 R))
    (self : BandpassFilterRecording) (start_frame end_frame : Z)
    (channel_ids : list Z) :
  _type self = "fft"%string ->
  get_sampling_frequency (_recording self) <> 0 ->
  reads_whole_window _read_chunk (_recording self) ->
  (end_frame <= start_frame)%Z ->
  ((start_frame - 5998 <= end_frame)%Z ->
   exists out,
     filter_chunk erf filtfilt _read_chunk self start_frame end_frame channel_ids = Ok out
     /\ has_shape out (length channel_ids) 0)
  /\ ((end_frame <= start_frame - 5999)%Z ->
      filter_chunk erf filtfilt _read_chunk self start_frame end_frame channel_ids
      = Raise fft_error).
Proof.
  intros Htype Hfs Hread Hle.
  destruct (Hread (start_frame - 3000)%Z (end_frame + 3000)%Z channel_ids)
    as (padded & Hp & Hw & Hwell & H0).
  unfold filter_chunk. cbv zeta. rewrite Hp. cbn [bind].
  split.
  - intros Hlow.
    pose proof (half_twice_bounds (width padded)) as Hh.
    rewrite do_filter_fft by (try assumption; lia). cbn [bind].
    eexists. split; [reflexivity|].
    unfold has_shape, slice_cols, shape0. cbn [rows width].
    rewrite !length_map. split; [exact H0|]. split.
    + pose proof (slice_bound_ordered (start_frame - (start_frame - 3000))
                    (end_frame - (start_frame - 3000)) (2 * (width padded / 2))).
      lia.
    + apply Forall_map, Forall_map. revert Hwell. apply Forall_impl. intros r Hr.
      apply length_slice_empty; try lia.
      rewrite length_filter_row by (rewrite ?length_kernel_of; lia). lia.
  - intros Hlow.
    destruct (Nat.eq_dec (width padded) 0) as [E|E].
    + now rewrite do_filter_fft_no_sample.
    + rewrite do_filter_fft_one_sample by (try assumption; lia). reflexivity.
Qed.

Lemma spectral_request_without_frames_witness :
  exists out,
    filter_chunk soft_sign pass_through zero_filled_read
      (plain_view (silent_recording 30000) 300 6000 1000 "fft") 100 100 [0%Z; 1%Z]
    = Ok out
    /\ has_shape out 2 0.
Proof.
  apply (spectral_request_without_frames soft_sign pass_through zero_filled_read
           (plain_view (silent_recording 30000) 300 6000 1000 "fft") 100 100 [0%Z; 1%Z]).
  - reflexivity.
  - cbn. lra.
  - apply zero_filled_read_whole_window.
  - lia.
  - lia.
Defined.

(** ** [filter_chunk] through an all-pass kernel *)

Lemma nth_window (signal : Z -> Z -> R) (i1 i2 : Z) (channel_ids : list Z) (c l : nat) :
  (c < length channel_ids)%nat -> (l < Z.to_nat (i2 - i1))%nat ->
  nth l (nth c (rows (window signal i1 i2 channel_ids)) []) 0
  = signal (nth c channel_ids 0%Z) (i1 + Z.of_nat l)%Z.
Proof.
  intros Hc Hl. unfold window. cbn [rows].
  rewrite (nth_map_in _ _ c 0%Z) by exact Hc.
  now apply nth_window_row.
Qed.

Lemma slice_cols_window (signal : Z -> Z -> R) (i1 i2 : Z) (channel_ids : list Z)
    (lo hi : Z) :
  (0 <= lo <= hi)%Z -> (hi <= i2 - i1)%Z ->
  slice_cols (window signal i1 i2 channel_ids) lo hi
  = window signal (i1 + lo) (i1 + hi) channel_ids.
Proof.
  intros Hb Hhi.
  pose proof (window_shape signal i1 i2 channel_ids) as Hs.
  apply (array2_ext _ _ (length channel_ids) (Z.to_nat (hi - lo))).
  - apply (slice_cols_shape _ _ _ _ _ Hs); lia.
  - replace (hi - lo)%Z with (i1 + hi - (i1 + lo))%Z by lia. apply window_shape.
  - intros c l Hc Hl.
    rewrite (nth_slice_cols _ _ _ _ _ _ _ Hs) by lia.
    rewrite !nth_window by lia. f_equal. lia.
Qed.

(** X4. Through an all-pass spectral view ([freq_min = freq_max = 0]) a
    request of an even number of frames returns the samples of the recording
    themselves: the frames [start_frame, end_frame) of the signal the reader
    returns, for each channel asked for. *)
Theorem allpass_view_returns_the_samples (erf : R -> R)
    (filtfilt : list R -> list R -> list R -> list R)
    (_read_chunk : RecordingExtractor -> Z -> Z -> list Z -> result (array2 R))
    (self : BandpassFilterRecording) (signal : Z -> Z -> R)
    (start_frame end_frame : Z) (channel_ids : list Z) :
  _type self = "fft"%string ->
  get_sampling_frequency (_recording self) <> 0 ->
  _freq_min self = 0 -> _freq_max self = 0 ->
  reads_signal _read_chunk (_recording self) signal ->
  (start_frame < end_frame)%Z -> Z.even (end_frame - start_frame) = true ->
  filter_chunk erf filtfilt _read_chunk self start_frame end_frame channel_ids
  = Ok (window signal start_frame end_frame channel_ids).
Proof.
  intros Htype Hfs Hmin Hmax Hread Hlt Heven.
  apply Z.even_spec in Heven. destruct Heven as [q Hq].
  unfold filter_chunk. cbv zeta. rewrite Hread. cbn [bind].
  rewrite (do_filter_allpass_even erf filtfilt self _ (Z.to_nat (q + 3000)));
    try assumption.
  - cbn [bind]. f_equal.
    rewrite slice_cols_window by lia. f_equal; lia.
  - lia.
  - unfold window. cbn [width]. lia.
  - destruct (window_shape signal (start_frame - 3000) (end_frame + 3000) channel_ids)
      as (_ & Hw & Hr).
    unfold well_shaped. now rewrite Hw.
Qed.

Lemma allpass_view_returns_the_samples_witness :
  filter_chunk soft_sign pass_through zero_filled_read
    (plain_view ramp_recording 0 0 1000 "fft") 10 20 [0%Z; 1%Z]
  = Ok (window (sample_or_zero ramp_recording) 10 20 [0%Z; 1%Z]).
Proof.
  apply (allpass_view_returns_the_samples soft_sign pass_through zero_filled_read
           (plain_view ramp_recording 0 0 1000 "fft") (sample_or_zero ramp_recording)
           10 20 [0%Z; 1%Z]).
  - reflexivity.
  - cbn. lra.
  - reflexivity.
  - reflexivity.
  - apply zero_filled_read_signal.
  - lia.
  - reflexivity.
Defined.

(** ** The kernel: symmetry, cut-off bins, monotonicity *)

Lemma folded_index_Z (N k : Z) :
  folded_index N k = if (2 * k <=? N + 1)%Z then k else (k - N)%Z.
Proof.
  unfold folded_index.
  destruct (Rle_dec (IZR k) ((IZR N + 1) / 2)) as [H|H];
    destruct (Z.leb_spec (2 * k) (N + 1)) as [Hz|Hz]; try reflexivity; exfalso.
  - assert (Hr : IZR (2 * k) <= IZR (N + 1)) by (rewrite mult_IZR, plus_IZR; lra).
    apply le_IZR in Hr. lia.
  - apply H. apply IZR_le in Hz. rewrite mult_IZR, plus_IZR in Hz. lra.
Qed.

Lemma power_gain_opposite_index (erf : R -> R) (N : Z)
    (fs freq_min freq_max freq_wid : R) (k k' : Z) :
  folded_index N k' = (- folded_index N k)%Z ->
  power_gain erf N fs freq_min freq_max freq_wid k'
  = power_gain erf N fs freq_min freq_max freq_wid k.
Proof.
  intros H. unfold power_gain. cbv zeta. rewrite H, opp_IZR, Rabs_Ropp.
  replace (1 / (IZR N / fs) * - IZR (folded_index N k))
    with (- (1 / (IZR N / fs) * IZR (folded_index N k))) by ring.
  now rewrite Rabs_Ropp.
Qed.

(** X5. The kernel is even in frequency (for [erf] with values in [-1, 1]
    and a non-zero [freq_wid] when [freq_max] is not zero): its entry of
    index [k] equals its entry of index [N - k], for every [k] from 1 to
    [N - 1] except the two middle indices [(N - 1) / 2] and [(N + 1) / 2] of
    an odd [N]; so for every such [k] when [N] is even. *)
Theorem kernel_is_even_in_frequency (erf : R -> R) (N : Z)
    (fs freq_min freq_max freq_wid : R) (k : Z) :
  (forall x, -1 <= erf x <= 1) -> (freq_max <> 0 -> freq_wid <> 0) ->
  fs <> 0 -> (1 <= k < N)%Z -> (2 * k <> N - 1)%Z -> (2 * k <> N + 1)%Z ->
  exists ker,
    _create_filter_kernel erf N fs freq_min freq_max freq_wid = Ok ker
    /\ nth (Z.to_nat k) ker 0 = nth (Z.to_nat (N - k)) ker 0.
Proof.
  intros _ _ Hfs Hk Hlow Hhigh.
  rewrite kernel_is_map_gain by (try assumption; lia).
  eexists. split; [reflexivity|].
  rewrite !nth_map_arange by lia. unfold gain. f_equal. symmetry.
  destruct (Z.eq_dec (2 * k) N) as [E|E].
  - replace (N - k)%Z with k by lia. reflexivity.
  - apply power_gain_opposite_index. rewrite !folded_index_Z.
    destruct (Z.leb_spec (2 * k) (N + 1)); destruct (Z.leb_spec (2 * (N - k)) (N + 1)); lia.
Qed.

Lemma kernel_is_even_in_frequency_witness :
  exists ker,
    _create_filter_kernel soft_sign 8 30000 300 6000 1000 = Ok ker
    /\ nth (Z.to_nat 3) ker 0 = nth (Z.to_nat (8 - 3)) ker 0.
Proof.
  apply (kernel_is_even_in_frequency soft_sign 8 30000 300 6000 1000 3); try lia.
  - intros x. pose proof (soft_sign_range x). lra.
  - lra.
  - lra.
Defined.

(** The frequency the code gives a bin of the lower half. *)
Lemma lower_half_frequency (N : Z) (fs : R) (k : Z) :
  0 < fs -> (0 <= k)%Z -> (2 * k <= N + 1)%Z -> (0 < N)%Z ->
  Rabs (1 / (IZR N / fs) * IZR (folded_index N k)) = IZR k * fs / IZR N.
Proof.
  intros Hfs Hk Hhalf HN.
  assert (HNr : 0 < IZR N) by (now apply IZR_lt).
  assert (Hkr : 0 <= IZR k) by (now apply IZR_le).
  rewrite folded_index_Z. destruct (Z.leb_spec (2 * k) (N + 1)); [|lia].
  replace (1 / (IZR N / fs) * IZR k) with (IZR k * fs / IZR N) by (field; lra).
  apply Rabs_pos_eq. unfold Rdiv.
  apply Rmult_le_pos; [nra | left; now apply Rinv_0_lt_compat].
Qed.

(** X6. The cut-offs are the half-power points: with [erf 0 = 0], a bin of
    the lower half whose frequency [k * fs / N] is [freq_min] has the
    kernel entry [sqrt (1/2)] under a high-pass alone ([freq_max = 0]), and
    a bin whose frequency is [freq_max] has it under a low-pass alone
    ([freq_min = 0]) with a non-zero [freq_wid]. *)
Theorem cutoff_bin_has_half_power (erf : R -> R) (N : Z)
    (fs freq_min freq_max freq_wid : R) (k : Z) :
  erf 0 = 0 -> 0 < fs -> (1 <= k)%Z -> (2 * k <= N + 1)%Z -> (k < N)%Z ->
  (freq_min = IZR k * fs / IZR N /\ freq_max = 0)
  \/ (freq_min = 0 /\ freq_max = IZR k * fs / IZR N /\ freq_wid <> 0) ->
  exists ker,
    _create_filter_kernel erf N fs freq_min freq_max freq_wid = Ok ker
    /\ nth (Z.to_nat k) ker 0 = sqrt (1 / 2).
Proof.
  intros Herf Hfs Hk Hhalf HkN Hcut.
  assert (HNr : 0 < IZR N) by (apply IZR_lt; lia).
  assert (Hkr : 1 <= IZR k) by (now apply IZR_le).
  assert (Hf : 0 < IZR k * fs / IZR N).
  { unfold Rdiv. apply Rmult_lt_0_compat; [nra | now apply Rinv_0_lt_compat]. }
  rewrite kernel_is_map_gain by (try lra; lia).
  eexists. split; [reflexivity|].
  rewrite nth_map_arange by lia. unfold gain. f_equal.
  unfold power_gain. cbv zeta.
  rewrite lower_half_frequency by (try assumption; lia).
  rewrite folded_index_Z. destruct (Z.leb_spec (2 * k) (N + 1)); [|lia].
  destruct (Rlt_dec (Rabs (IZR k)) (1 / 10)) as [Hdc|_];
    [rewrite Rabs_pos_eq in Hdc by lra; lra|].
  destruct Hcut as [[Hmin Hmax]|(Hmin & Hmax & _)].
  - destruct (Req_dec_T freq_min 0) as [E|_]; [lra|].
    destruct (Req_dec_T freq_max 0) as [_|E]; [|contradiction].
    rewrite <- Hmin.
    replace (3 * (freq_min - freq_min) / freq_min) with 0 by (unfold Rdiv; ring).
    rewrite Herf. lra.
  - destruct (Req_dec_T freq_min 0) as [_|E]; [|contradiction].
    destruct (Req_dec_T freq_max 0) as [E|_]; [lra|].
    rewrite <- Hmax.
    replace ((freq_max - freq_max) / freq_wid) with 0 by (unfold Rdiv; ring).
    rewrite Herf. lra.
Qed.

Lemma cutoff_bin_has_half_power_witness :
  exists ker,
    _create_filter_kernel soft_sign 8 8 (IZR 2 * 8 / IZR 8) 0 1000 = Ok ker
    /\ nth (Z.to_nat 2) ker 0 = sqrt (1 / 2).
Proof.
  apply (cutoff_bin_has_half_power soft_sign 8 8 (IZR 2 * 8 / IZR 8) 0 1000 2);
    [ unfold soft_sign, Rdiv; ring | lra | lia | lia | lia
    | left; split; reflexivity ].
Defined.

Lemma lower_half_frequency_monotone (N : Z) (fs : R) (k k' : Z) :
  0 < fs -> (0 < N)%Z -> (k <= k')%Z ->
  IZR k * fs / IZR N <= IZR k' * fs / IZR N.
Proof.
  intros Hfs HN Hk.
  assert (HNr : 0 < IZR N) by (now apply IZR_lt).
  assert (Hkr : IZR k <= IZR k') by (now apply IZR_le).
  unfold Rdiv. apply Rmult_le_compat_r; [left; now apply Rinv_0_lt_compat | nra].
Qed.

(** X7. With a non-decreasing [erf] with values in [-1, 1], over the bins
    of the lower half (the ones [_do_filter] uses): under a high-pass alone
    ([freq_min > 0], [freq_max = 0]) the kernel does not decrease with the
    bin index, the DC bin included; under a low-pass alone ([freq_min = 0],
    [freq_max > 0], [freq_wid > 0]) it does not increase. *)
Theorem kernel_is_monotone (erf : R -> R) (N : Z)
    (fs freq_min freq_max freq_wid : R) (k k' : Z) :
  (forall x y, x <= y -> erf x <= erf y) ->
  (forall x, -1 <= erf x <= 1) ->
  0 < fs -> (0 <= k <= k')%Z -> (2 * k' <= N + 1)%Z -> (k' < N)%Z ->
  exists ker,
    _create_filter_kernel erf N fs freq_min freq_max freq_wid = Ok ker
    /\ (0 < freq_min -> freq_max = 0 ->
        nth (Z.to_nat k) ker 0 <= nth (Z.to_nat k') ker 0)
    /\ (freq_min = 0 -> 0 < freq_max -> 0 < freq_wid ->
        nth (Z.to_nat k') ker 0 <= nth (Z.to_nat k) ker 0).
Proof.
  intros Hmono Hrange Hfs Hk Hhalf HkN.
  rewrite kernel_is_map_gain by (try lra; lia).
  eexists. split; [reflexivity|].
  rewrite !nth_map_arange by lia. unfold gain.
  pose proof (lower_half_frequency_monotone N fs k k' Hfs ltac:(lia) ltac:(lia)) as Hf.
  split.
  - intros Hmin Hmax. apply sqrt_le_1_alt.
    unfold power_gain. cbv zeta.
    rewrite !lower_half_frequency by (try assumption; lia).
    rewrite !folded_index_Z.
    destruct (Z.leb_spec (2 * k) (N + 1)); [|lia].
    destruct (Z.leb_spec (2 * k') (N + 1)); [|lia].
    destruct (Req_dec_T freq_min 0) as [E|_]; [lra|].
    destruct (Req_dec_T freq_max 0) as [_|E]; [|contradiction].
    set (x := 3 * (IZR k * fs / IZR N - freq_min) / freq_min).
    set (x' := 3 * (IZR k' * fs / IZR N - freq_min) / freq_min).
    assert (Hx : x <= x').
    { unfold x, x', Rdiv. apply Rmult_le_compat_r;
        [left; now apply Rinv_0_lt_compat | unfold Rdiv in Hf; lra]. }
    pose proof (Hmono x x' Hx). pose proof (Hrange x). pose proof (Hrange x').
    destruct (Rlt_dec (Rabs (IZR k)) (1 / 10));
      destruct (Rlt_dec (Rabs (IZR k')) (1 / 10)) as [Hdc'|_]; try lra.
    exfalso. assert (Hkk : IZR k <= IZR k') by (apply IZR_le; lia).
    assert (Hk0 : 0 <= IZR k) by (apply IZR_le; lia).
    rewrite Rabs_pos_eq in Hdc' by lra.
    destruct (Z.eq_dec k 0) as [E0|E0].
    + subst k. rewrite Rabs_R0 in *. lra.
    + assert (1 <= IZR k) by (apply IZR_le; lia). lra.
  - intros Hmin Hmax Hwid. apply sqrt_le_1_alt.
    unfold power_gain. cbv zeta.
    rewrite !lower_half_frequency by (try assumption; lia).
    destruct (Req_dec_T freq_min 0) as [_|E]; [|contradiction].
    destruct (Req_dec_T freq_max 0) as [E|_]; [lra|].
    set (x := (IZR k * fs / IZR N - freq_max) / freq_wid).
    set (x' := (IZR k' * fs / IZR N - freq_max) / freq_wid).
    assert (Hx : x <= x').
    { unfold x, x', Rdiv. apply Rmult_le_compat_r;
        [left; now apply Rinv_0_lt_compat | unfold Rdiv in Hf; lra]. }
    pose proof (Hmono x x' Hx). lra.
Qed.

Lemma soft_sign_monotone (x y : R) : x <= y -> soft_sign x <= soft_sign y.
Proof.
  intros Hxy. unfold soft_sign.
  assert (Hpx : 0 < 1 + Rabs x) by (pose proof (Rabs_pos x); lra).
  assert (Hpy : 0 < 1 + Rabs y) by (pose proof (Rabs_pos y); lra).
  apply (Rmult_le_reg_r ((1 + Rabs x) * (1 + Rabs y)));
    [now apply Rmult_lt_0_compat|].
  replace (x / (1 + Rabs x) * ((1 + Rabs x) * (1 + Rabs y)))
    with (x * (1 + Rabs y)) by (field; lra).
  replace (y / (1 + Rabs y) * ((1 + Rabs x) * (1 + Rabs y)))
    with (y * (1 + Rabs x)) by (field; lra).
  unfold Rabs. destruct (Rcase_abs x); destruct (Rcase_abs y); nra.
Qed.

Lemma kernel_is_monotone_witness :
  exists ker,
    _create_filter_kernel soft_sign 8 30000 300 0 1000 = Ok ker
    /\ (0 < 300 -> 0 = 0 -> nth (Z.to_nat 1) ker 0 <= nth (Z.to_nat 3) ker 0)
    /\ (300 = 0 -> 0 < 0 -> 0 < 1000 ->
        nth (Z.to_nat 3) ker 0 <= nth (Z.to_nat 1) ker 0).
Proof.
  apply (kernel_is_monotone soft_sign 8 30000 300 0 1000 1 3); try lia; try lra.
  - exact soft_sign_monotone.
  - intros x. pose proof (soft_sign_range x). lra.
Defined.

(** ** The spectral filter on one row, for every length *)

(** The two sums of the forward transform of a row at bin [k]. *)
Lemma nth_rfft_row (x : list R) (k : nat) :
  (k < length x / 2 + 1)%nat ->
  nth k (rfft_row x) (0, 0)
  = (bigsum (length x) (fun l => nth l x 0 * cos (angle (length x) l k)),
     - bigsum (length x) (fun l => nth l x 0 * sin (angle (length x) l k))).
Proof. intros Hk. unfold rfft_row. now rewrite nth_map_seq. Qed.

Lemma filter_row_nth_sums (kernel : list R) (n : nat) (x : list R) (j : nat) :
  length x = n -> (n / 2 + 1 <= length kernel)%nat -> (j < 2 * (n / 2))%nat ->
  nth j (filter_row kernel n x) 0
  = bigsum (n / 2 + 1) (fun k =>
      hermitian_weight (n / 2 + 1) k * nth k kernel 0
      * (bigsum n (fun l => nth l x 0 * cos (angle n l k)) * cos (angle (2 * (n / 2)) j k)
         + bigsum n (fun l => nth l x 0 * sin (angle n l k))
           * sin (angle (2 * (n / 2)) j k)))
    / INR (2 * (n / 2)).
Proof.
  intros Hx Hker Hj. unfold filter_row.
  set (X := map2 Cscale (rfft_row x) (firstn (n / 2 + 1) kernel)).
  assert (HX : length X = (n / 2 + 1)%nat).
  { unfold X. rewrite length_map2, length_rfft_row, length_firstn, Hx. lia. }
  unfold irfft_row. rewrite HX.
  replace (2 * (n / 2 + 1 - 1))%nat with (2 * (n / 2))%nat by lia.
  rewrite nth_map_seq by exact Hj. f_equal.
  apply bigsum_ext. intros k Hk.
  assert (HXk : nth k X (0, 0)
                = Cscale (nth k (rfft_row x) (0, 0)) (nth k kernel 0)).
  { unfold X.
    rewrite (nth_map2 Cscale _ _ k (0, 0) 0)
      by (rewrite ?length_rfft_row, ?length_firstn, ?Hx; lia).
    now rewrite nth_firstn by exact Hk. }
  rewrite HXk, nth_rfft_row by (rewrite Hx; exact Hk).
  rewrite Hx. unfold Cscale. cbn [fst snd]. ring.
Qed.

Lemma nth_row_lin (alpha beta : R) (x y : list R) (l : nat) :
  (l < length x)%nat -> (l < length y)%nat ->
  nth l (row_lin alpha beta x y) 0 = alpha * nth l x 0 + beta * nth l y 0.
Proof.
  intros Hx Hy. unfold row_lin.
  now rewrite (nth_map2 _ x y l 0 0) by assumption.
Qed.

Lemma length_row_lin (alpha beta : R) (x y : list R) :
  length (row_lin alpha beta x y) = Nat.min (length x) (length y).
Proof. apply length_map2. Qed.

Lemma bigsum_row_lin (alpha beta : R) (x y : list R) (n : nat) (t : nat -> R) :
  length x = n -> length y = n ->
  bigsum n (fun l => nth l (row_lin alpha beta x y) 0 * t l)
  = alpha * bigsum n (fun l => nth l x 0 * t l)
    + beta * bigsum n (fun l => nth l y 0 * t l).
Proof.
  intros Hx Hy. rewrite <- !bigsum_scal, <- bigsum_plus.
  apply bigsum_ext. intros l Hl. rewrite nth_row_lin by lia. ring.
Qed.

Lemma filter_row_lin (kernel : list R) (n : nat) (alpha beta : R) (x y : list R) :
  length x = n -> length y = n -> (n / 2 + 1 <= length kernel)%nat ->
  filter_row kernel n (row_lin alpha beta x y)
  = row_lin alpha beta (filter_row kernel n x) (filter_row kernel n y).
Proof.
  intros Hx Hy Hker.
  assert (Hl : length (row_lin alpha beta x y) = n)
    by (rewrite length_row_lin; lia).
  apply (nth_ext _ _ 0 0).
  - rewrite length_row_lin, !length_filter_row by assumption. lia.
  - intros j Hj. rewrite length_filter_row in Hj by assumption.
    rewrite nth_row_lin by (rewrite length_filter_row by assumption; exact Hj).
    rewrite !filter_row_nth_sums by assumption.
    unfold Rdiv. rewrite <- !Rmult_assoc.
    rewrite <- !bigsum_scal, <- Rmult_plus_distr_r, <- bigsum_plus.
    f_equal. apply bigsum_ext. intros k Hk.
    rewrite !bigsum_row_lin by assumption. ring.
Qed.

Lemma map_map2_commute {A : Type} (F : A -> A) (G : A -> A -> A) (P : A -> Prop)
    (xs ys : list A) :
  (forall x y, P x -> P y -> F (G x y) = G (F x) (F y)) ->
  Forall P xs -> Forall P ys ->
  map F (map2 G xs ys) = map2 G (map F xs) (map F ys).
Proof.
  intros HFG Hxs. revert ys. induction Hxs as [|x xs Hx _ IH]; intros ys Hys;
    [reflexivity|].
  destruct Hys as [|y ys Hy Hys]; [reflexivity|]. simpl.
  now rewrite HFG, IH.
Qed.

(** X8. The spectral [_do_filter] is linear: for two chunks of the same
    shape (at least two samples) and two scalars, filtering
    [alpha * a + beta * b] gives [alpha] times the filtered [a] plus [beta]
    times the filtered [b]. *)
Theorem spectral_do_filter_is_linear (erf : R -> R)
    (filtfilt : list R -> list R -> list R -> list R)
    (self : BandpassFilterRecording) (a b : array2 R) (channels n : nat)
    (alpha beta : R) :
  _type self = "fft"%string ->
  get_sampling_frequency (_recording self) <> 0 ->
  has_shape a channels n -> has_shape b channels n -> (2 <= n)%nat ->
  exists fa fb,
    _do_filter erf filtfilt self a = Ok fa
    /\ _do_filter erf filtfilt self b = Ok fb
    /\ _do_filter erf filtfilt self (array_lin alpha beta a b)
       = Ok (array_lin alpha beta fa fb).
Proof.
  intros Htype Hfs (Ha0 & Haw & Har) (Hb0 & Hbw & Hbr) Hn.
  rewrite !do_filter_fft by (try assumption; unfold array_lin; cbn [width]; lia).
  do 2 eexists. split; [reflexivity|]. split; [reflexivity|].
  unfold array_lin. cbn [rows width]. rewrite Haw, Hbw. do 2 f_equal.
  apply (map_map2_commute _ _ (fun r => length r = n)); try assumption.
  intros x y Hx Hy. apply filter_row_lin; try assumption.
  rewrite length_kernel_of. pose proof (half_twice_bounds n). lia.
Qed.

Lemma spectral_do_filter_is_linear_witness :
  exists fa fb,
    _do_filter soft_sign pass_through
      (plain_view (silent_recording 30000) 300 6000 1000 "fft")
      (mk_array2 [[1; 2; 3]] 3) = Ok fa
    /\ _do_filter soft_sign pass_through
         (plain_view (silent_recording 30000) 300 6000 1000 "fft")
         (mk_array2 [[4; 5; 6]] 3) = Ok fb
    /\ _do_filter soft_sign pass_through
         (plain_view (silent_recording 30000) 300 6000 1000 "fft")
         (array_lin 2 (-1) (mk_array2 [[1; 2; 3]] 3) (mk_array2 [[4; 5; 6]] 3))
       = Ok (array_lin 2 (-1) fa fb).
Proof.
  apply (spectral_do_filter_is_linear soft_sign pass_through
           (plain_view (silent_recording 30000) 300 6000 1000 "fft")
           (mk_array2 [[1; 2; 3]] 3) (mk_array2 [[4; 5; 6]] 3) 1 3 2 (-1)).
  - reflexivity.
  - cbn. lra.
  - unfold has_shape, shape0. cbn. repeat split. repeat constructor.
  - unfold has_shape, shape0. cbn. repeat split. repeat constructor.
  - lia.
Defined.

(** ** Sums of cosines and sines over the samples *)

Lemma sin_sum_closed_form (theta : R) (h : nat) :
  sin (theta / 2) * (2 * bigsum h (fun k => sin (INR k * theta)))
  = cos (theta / 2) - cos (INR h * theta - theta / 2).
Proof.
  induction h as [|h IH].
  - simpl. rewrite Rmult_0_l, Rminus_0_l, cos_neg. ring.
  - cbn [bigsum]. rewrite S_INR.
    replace ((INR h + 1) * theta - theta / 2) with (INR h * theta + theta / 2) by field.
    rewrite cos_plus. rewrite cos_minus in IH.
    replace (sin (theta / 2)
             * (2 * (bigsum h (fun k => sin (INR k * theta)) + sin (INR h * theta))))
      with (sin (theta / 2) * (2 * bigsum h (fun k => sin (INR k * theta)))
            + 2 * sin (theta / 2) * sin (INR h * theta)) by ring.
    rewrite IH. ring.
Qed.

Lemma cos_sin_whole_turns (m : Z) :
  cos (2 * PI * IZR m) = 1 /\ sin (2 * PI * IZR m) = 0.
Proof.
  split.
  - destruct (Z_le_gt_dec 0 m) as [Hm|Hm].
    + replace (2 * PI * IZR m) with (0 + 2 * INR (Z.to_nat m) * PI)
        by (rewrite INR_IZR_INZ, Z2Nat.id by lia; ring).
      now rewrite cos_period, cos_0.
    + replace (2 * PI * IZR m) with (- (0 + 2 * INR (Z.to_nat (- m)) * PI))
        by (rewrite INR_IZR_INZ, Z2Nat.id, opp_IZR by lia; ring).
      now rewrite cos_neg, cos_period, cos_0.
  - apply sin_eq_0_1. exists (2 * m)%Z. rewrite mult_IZR. ring.
Qed.

Lemma sin_fraction_of_pi_Z (n : nat) (m : Z) :
  (0 < Z.abs m < Z.of_nat n)%Z -> sin (PI * IZR m / INR n) <> 0.
Proof.
  intros Hm. destruct (Z_le_gt_dec 0 m) as [Hpos|Hneg].
  - replace (IZR m) with (INR (Z.to_nat m) - INR 0)
      by (rewrite (INR_IZR_INZ (Z.to_nat m)), Z2Nat.id by lia; simpl; ring).
    apply sin_fraction_of_pi; lia.
  - replace (IZR m) with (INR 0 - INR (Z.to_nat (- m)))
      by (rewrite (INR_IZR_INZ (Z.to_nat (- m))), Z2Nat.id, opp_IZR by lia;
          simpl; ring).
    apply sin_fraction_of_pi; lia.
Qed.

(** Over the [n] samples, the cosines and the sines of [m] turns: they
    cancel unless [m] is a multiple of [n]. *)
Lemma turn_sums_cancel (n : nat) (m : Z) :
  (0 < Z.abs m < Z.of_nat n)%Z ->
  bigsum n (fun l => cos (INR l * (2 * PI * IZR m / INR n))) = 0
  /\ bigsum n (fun l => sin (INR l * (2 * PI * IZR m / INR n))) = 0.
Proof.
  intros Hm. set (theta := 2 * PI * IZR m / INR n).
  assert (Hn : INR n <> 0) by (apply not_0_INR; lia).
  assert (Hturn : INR n * theta = 2 * PI * IZR m) by (unfold theta; field; exact Hn).
  destruct (cos_sin_whole_turns m) as [Hc Hs].
  assert (Hhalf : sin (theta / 2) <> 0).
  { replace (theta / 2) with (PI * IZR m / INR n) by (unfold theta; field; exact Hn).
    now apply sin_fraction_of_pi_Z. }
  pose proof (cos_sum_closed_form theta n) as HC.
  pose proof (sin_sum_closed_form theta n) as HS.
  rewrite Hturn, Hc, Hs in HC.
  rewrite cos_minus, Hturn, Hc, Hs in HS.
  split.
  - apply (Rmult_eq_reg_l (2 * sin (theta / 2))); [|lra]. lra.
  - apply (Rmult_eq_reg_l (2 * sin (theta / 2))); [|lra]. lra.
Qed.

Lemma bigsum_const (n : nat) (c : R) : bigsum n (fun _ => c) = INR n * c.
Proof.
  induction n as [|n IH]; [simpl; ring|]. cbn [bigsum]. rewrite S_INR, IH. ring.
Qed.

Lemma turn_sums_add_up (n : nat) (m : Z) :
  (0 < n)%nat -> m = 0%Z \/ m = Z.of_nat n ->
  bigsum n (fun l => cos (INR l * (2 * PI * IZR m / INR n))) = INR n
  /\ bigsum n (fun l => sin (INR l * (2 * PI * IZR m / INR n))) = 0.
Proof.
  intros Hn Hm.
  assert (Hn0 : INR n <> 0) by (apply not_0_INR; lia).
  assert (Hterm : forall l, exists z, INR l * (2 * PI * IZR m / INR n) = 2 * PI * IZR z).
  { intros l. destruct Hm as [->| ->].
    - exists 0%Z. unfold Rdiv. ring.
    - exists (Z.of_nat l). rewrite <- !INR_IZR_INZ. field. exact Hn0. }
  split.
  - rewrite (bigsum_ext n _ (fun _ => 1)); [rewrite bigsum_const; ring|].
    intros l _. destruct (Hterm l) as (z & ->). apply cos_sin_whole_turns.
  - apply bigsum_zero. intros l _. destruct (Hterm l) as (z & ->).
    apply cos_sin_whole_turns.
Qed.

Lemma angle_as_turns (n l k : nat) :
  angle n l k = INR l * (2 * PI * IZR (Z.of_nat k) / INR n).
Proof. unfold angle, Rdiv. rewrite <- INR_IZR_INZ. ring. Qed.

Lemma nth_repeat_lt {A : Type} (a d : A) (n l : nat) :
  (l < n)%nat -> nth l (repeat a n) d = a.
Proof.
  revert l. induction n as [|n IH]; intros [|l] H; simpl; try lia; auto.
  apply IH. lia.
Qed.

Lemma gain_dc (erf : R -> R) (N : Z) (fs freq_min freq_max freq_wid : R) :
  freq_min <> 0 -> (0 < N)%Z -> gain erf N fs freq_min freq_max freq_wid 0 = 0.
Proof.
  intros Hmin HN. unfold gain, power_gain. cbv zeta.
  rewrite folded_index_Z. destruct (Z.leb_spec (2 * 0) (N + 1)); [|lia].
  destruct (Req_dec_T freq_min 0) as [E|_]; [contradiction|].
  destruct (Rlt_dec (Rabs 0) (1 / 10)) as [_|Hn];
    [|exfalso; apply Hn; rewrite Rabs_R0; lra].
  destruct (Req_dec_T freq_max 0).
  - apply sqrt_0.
  - replace (0 * (1 - erf ((Rabs (1 / (IZR N / fs) * 0) - freq_max) / freq_wid)) / 2)
      with 0 by (unfold Rdiv; ring).
    apply sqrt_0.
Qed.

(** ** A constant chunk *)

Lemma filter_row_constant (kernel : list R) (n : nat) (c : R) :
  (2 <= n)%nat -> (n / 2 + 1 <= length kernel)%nat -> nth 0 kernel 0 = 0 ->
  filter_row kernel n (repeat c n) = repeat 0 (2 * (n / 2)).
Proof.
  intros Hn Hker Hdc.
  pose proof (half_twice_bounds n) as Hh.
  apply (nth_ext _ _ 0 0).
  - rewrite length_filter_row, repeat_length by (rewrite ?repeat_length; auto).
    reflexivity.
  - intros j Hj.
    rewrite length_filter_row in Hj by (rewrite ?repeat_length; auto).
    rewrite nth_repeat_lt by exact Hj.
    rewrite filter_row_nth_sums by (rewrite ?repeat_length; auto).
    rewrite bigsum_zero; [unfold Rdiv; ring|].
    intros k Hk. destruct (Nat.eq_dec k 0) as [->|Hk0]; [rewrite Hdc; ring|].
    destruct (turn_sums_cancel n (Z.of_nat k)) as [Hc Hs]; [lia|].
    rewrite (bigsum_ext n (fun l => nth l (repeat c n) 0 * cos (angle n l k))
               (fun l => c * cos (INR l * (2 * PI * IZR (Z.of_nat k) / INR n))))
      by (intros l Hl; now rewrite nth_repeat_lt, angle_as_turns by exact Hl).
    rewrite (bigsum_ext n (fun l => nth l (repeat c n) 0 * sin (angle n l k))
               (fun l => c * sin (INR l * (2 * PI * IZR (Z.of_nat k) / INR n))))
      by (intros l Hl; now rewrite nth_repeat_lt, angle_as_turns by exact Hl).
    rewrite !bigsum_scal, Hc, Hs. ring.
Qed.

(** X9. With [freq_min <> 0] the spectral [_do_filter] removes a constant
    offset exactly: a chunk of [n >= 2] samples that holds the same value
    everywhere is filtered to zeros (of the [2 * (n / 2)] samples the branch
    returns), on every channel. *)
Theorem constant_chunk_is_filtered_to_zero (erf : R -> R)
    (filtfilt : list R -> list R -> list R -> list R)
    (self : BandpassFilterRecording) (channels n : nat) (c : R) :
  _type self = "fft"%string ->
  get_sampling_frequency (_recording self) <> 0 ->
  _freq_min self <> 0 -> (2 <= n)%nat ->
  _do_filter erf filtfilt self (full channels n c)
  = Ok (full channels (2 * (n / 2)) 0).
Proof.
  intros Htype Hfs Hmin Hn.
  rewrite do_filter_fft by (try assumption; cbn [full width]; lia).
  unfold full. cbn [rows width]. do 2 f_equal.
  rewrite map_repeat. f_equal.
  apply filter_row_constant; [exact Hn | |].
  - rewrite length_kernel_of. pose proof (half_twice_bounds n). lia.
  - rewrite nth_kernel_of by lia. apply gain_dc; [exact Hmin | lia].
Qed.

Lemma constant_chunk_is_filtered_to_zero_witness :
  _do_filter soft_sign pass_through
    (plain_view (silent_recording 30000) 300 6000 1000 "fft") (full 2 7 5)
  = Ok (full 2 (2 * (7 / 2)) 0).
Proof.
  apply (constant_chunk_is_filtered_to_zero soft_sign pass_through
           (plain_view (silent_recording 30000) 300 6000 1000 "fft") 2 7 5).
  - reflexivity.
  - cbn. lra.
  - cbn. lra.
  - lia.
Defined.

(** ** Orthogonality of the bins over an even number of samples *)

Lemma turn_sums (n : nat) (m : Z) :
  (0 < n)%nat -> (- Z.of_nat n < m <= Z.of_nat n)%Z ->
  bigsum n (fun l => cos (INR l * (2 * PI * IZR m / INR n)))
  = (if ((m =? 0) || (m =? Z.of_nat n))%Z then INR n else 0)
  /\ bigsum n (fun l => sin (INR l * (2 * PI * IZR m / INR n))) = 0.
Proof.
  intros Hn Hm.
  destruct (Z.eqb_spec m 0) as [E0|N0]; cbn [orb].
  - apply turn_sums_add_up; auto.
  - destruct (Z.eqb_spec m (Z.of_nat n)) as [En|Nn].
    + apply turn_sums_add_up; auto.
    + apply turn_sums_cancel. lia.
Qed.

Lemma angle_sum (n l k k' : nat) :
  angle n l k + angle n l k'
  = INR l * (2 * PI * IZR (Z.of_nat k + Z.of_nat k') / INR n).
Proof. unfold angle, Rdiv. rewrite plus_IZR, <- !INR_IZR_INZ. ring. Qed.

Lemma angle_diff (n l k k' : nat) :
  angle n l k - angle n l k'
  = INR l * (2 * PI * IZR (Z.of_nat k - Z.of_nat k') / INR n).
Proof. unfold angle, Rdiv. rewrite minus_IZR, <- !INR_IZR_INZ. ring. Qed.

Section Gram.

Variable h : nat.
Hypothesis h_positive : (1 <= h)%nat.
Variables k k' : nat.
Hypothesis k_bin : (k <= h)%nat.
Hypothesis k'_bin : (k' <= h)%nat.

Lemma difference_sum :
  bigsum (2 * h) (fun l => cos (angle (2 * h) l k - angle (2 * h) l k'))
  = (if (k =? k')%nat then INR (2 * h) else 0)
  /\ bigsum (2 * h) (fun l => sin (angle (2 * h) l k - angle (2 * h) l k')) = 0.
Proof.
  destruct (turn_sums (2 * h) (Z.of_nat k - Z.of_nat k')) as [Hc Hs];
    [lia | lia |].
  split.
  - rewrite (bigsum_ext (2 * h) _ _ (fun l _ => f_equal cos (angle_diff (2 * h) l k k'))), Hc.
    destruct (Nat.eqb_spec k k') as [E|E].
    + destruct (Z.eqb_spec (Z.of_nat k - Z.of_nat k') 0); [reflexivity|lia].
    + destruct (Z.eqb_spec (Z.of_nat k - Z.of_nat k') 0); [lia|].
      destruct (Z.eqb_spec (Z.of_nat k - Z.of_nat k') (Z.of_nat (2 * h)));
        [lia | reflexivity].
  - now rewrite (bigsum_ext (2 * h) _ _ (fun l _ => f_equal sin (angle_diff (2 * h) l k k'))).
Qed.

Lemma total_sum :
  bigsum (2 * h) (fun l => cos (angle (2 * h) l k + angle (2 * h) l k'))
  = (if (k =? k')%nat then 2 * INR (2 * h) / hermitian_weight (h + 1) k - INR (2 * h) else 0)
  /\ bigsum (2 * h) (fun l => sin (angle (2 * h) l k + angle (2 * h) l k')) = 0.
Proof.
  destruct (turn_sums (2 * h) (Z.of_nat k + Z.of_nat k')) as [Hc Hs];
    [lia | lia |].
  split.
  - rewrite (bigsum_ext (2 * h) _ _ (fun l _ => f_equal cos (angle_sum (2 * h) l k k'))), Hc.
    unfold hermitian_weight. replace (h + 1 - 1)%nat with h by lia.
    destruct (Nat.eqb_spec k k') as [E|E].
    + subst k'.
      destruct (Nat.eqb_spec k 0) as [K0|K0]; cbn [orb].
      * destruct (Z.eqb_spec (Z.of_nat k + Z.of_nat k) 0); [|lia]. cbn [orb]. field.
      * destruct (Z.eqb_spec (Z.of_nat k + Z.of_nat k) 0); [lia|]. cbn [orb].
        destruct (Nat.eqb_spec k h) as [Kh|Kh];
          destruct (Z.eqb_spec (Z.of_nat k + Z.of_nat k) (Z.of_nat (2 * h)));
          try lia; field.
    + destruct (Z.eqb_spec (Z.of_nat k + Z.of_nat k') 0); [lia|]. cbn [orb].
      destruct (Z.eqb_spec (Z.of_nat k + Z.of_nat k') (Z.of_nat (2 * h)));
        [lia | reflexivity].
  - now rewrite (bigsum_ext (2 * h) _ _ (fun l _ => f_equal sin (angle_sum (2 * h) l k k'))).
Qed.

Lemma gram_cos_cos :
  bigsum (2 * h) (fun l => cos (angle (2 * h) l k) * cos (angle (2 * h) l k'))
  = if (k =? k')%nat then INR (2 * h) / hermitian_weight (h + 1) k else 0.
Proof.
  destruct difference_sum as [Hd _]. destruct total_sum as [Ht _].
  rewrite (bigsum_ext (2 * h) _
             (fun l => / 2 * cos (angle (2 * h) l k - angle (2 * h) l k')
                       + / 2 * cos (angle (2 * h) l k + angle (2 * h) l k')))
    by (intros l _; rewrite cos_minus, cos_plus; field).
  rewrite bigsum_plus, !bigsum_scal, Hd, Ht.
  destruct (k =? k')%nat; [|ring].
  pose proof (hermitian_weight_bounds (h + 1) k). field. lra.
Qed.

Lemma gram_sin_sin :
  bigsum (2 * h) (fun l => sin (angle (2 * h) l k) * sin (angle (2 * h) l k'))
  = if (k =? k')%nat then INR (2 * h) - INR (2 * h) / hermitian_weight (h + 1) k else 0.
Proof.
  destruct difference_sum as [Hd _]. destruct total_sum as [Ht _].
  rewrite (bigsum_ext (2 * h) _
             (fun l => / 2 * cos (angle (2 * h) l k - angle (2 * h) l k')
                       - / 2 * cos (angle (2 * h) l k + angle (2 * h) l k')))
    by (intros l _; rewrite cos_minus, cos_plus; field).
  rewrite bigsum_minus, !bigsum_scal, Hd, Ht.
  destruct (k =? k')%nat; [|ring].
  pose proof (hermitian_weight_bounds (h + 1) k). field. lra.
Qed.

Lemma gram_sin_cos :
  bigsum (2 * h) (fun l => sin (angle (2 * h) l k) * cos (angle (2 * h) l k')) = 0.
Proof.
  destruct difference_sum as [_ Hd]. destruct total_sum as [_ Ht].
  rewrite (bigsum_ext (2 * h) _
             (fun l => / 2 * sin (angle (2 * h) l k - angle (2 * h) l k')
                       + / 2 * sin (angle (2 * h) l k + angle (2 * h) l k')))
    by (intros l _; rewrite sin_minus, sin_plus; field).
  rewrite bigsum_plus, !bigsum_scal, Hd, Ht. ring.
Qed.

End Gram.

(** ** The spectrum of a filtered row *)

Lemma sin_angle_edge (h l k : nat) :
  (1 <= h)%nat -> k = 0%nat \/ k = h -> sin (angle (2 * h) l k) = 0.
Proof.
  intros Hh [->| ->].
  - unfold angle. simpl (INR 0). replace (2 * PI * INR l * 0 / INR (2 * h)) with 0
      by (unfold Rdiv; ring).
    apply sin_0.
  - replace (angle (2 * h) l h) with ((INR l - INR 0) * PI).
    + apply sin_integer_multiple_of_pi.
    + unfold angle. rewrite mult_INR. simpl (INR 2). simpl (INR 0). field.
      apply not_0_INR. lia.
Qed.

Section FilteredRow.

Variable kernel : list R.
Variable h : nat.
Variable x : list R.
Hypothesis h_positive : (1 <= h)%nat.
Hypothesis length_x : length x = (2 * h)%nat.
Hypothesis length_kernel : (h + 1 <= length kernel)%nat.

Lemma filter_row_nth_even (j : nat) :
  (j < 2 * h)%nat ->
  nth j (filter_row kernel (2 * h) x) 0
  = bigsum (h + 1) (fun k =>
      hermitian_weight (h + 1) k * nth k kernel 0
      * (bigsum (2 * h) (fun l => nth l x 0 * cos (angle (2 * h) l k)) * cos (angle (2 * h) j k) + bigsum (2 * h) (fun l => nth l x 0 * sin (angle (2 * h) l k)) * sin (angle (2 * h) j k)))
    / INR (2 * h).
Proof.
  intros Hj.
  pose proof (filter_row_nth_sums kernel (2 * h) x j length_x) as H.
  rewrite half_double in H. apply H; assumption.
Qed.

Lemma sine_sum_edge (k : nat) : k = 0%nat \/ k = h -> bigsum (2 * h) (fun l => nth l x 0 * sin (angle (2 * h) l k)) = 0.
Proof.
  intros Hk. apply bigsum_zero. intros l _.
  rewrite sin_angle_edge by assumption. ring.
Qed.

Lemma filtered_cos_sum (k : nat) :
  (k <= h)%nat ->
  bigsum (2 * h) (fun l => nth l (filter_row kernel (2 * h) x) 0 * cos (angle (2 * h) l k))
  = nth k kernel 0 * bigsum (2 * h) (fun l => nth l x 0 * cos (angle (2 * h) l k)).
Proof.
  intros Hk.
  assert (Hn : INR (2 * h) <> 0) by (apply not_0_INR; lia).
  pose proof (hermitian_weight_bounds (h + 1) k) as Hw.
  rewrite (bigsum_ext (2 * h) _
    (fun l => bigsum (h + 1) (fun k' =>
       (hermitian_weight (h + 1) k' * nth k' kernel 0 * bigsum (2 * h) (fun l => nth l x 0 * cos (angle (2 * h) l k')) * / INR (2 * h))
       * (cos (angle (2 * h) l k') * cos (angle (2 * h) l k))
       + (hermitian_weight (h + 1) k' * nth k' kernel 0 * bigsum (2 * h) (fun l => nth l x 0 * sin (angle (2 * h) l k')) * / INR (2 * h))
         * (sin (angle (2 * h) l k') * cos (angle (2 * h) l k))))).
  2:{ intros l Hl. rewrite filter_row_nth_even by exact Hl.
      unfold Rdiv. rewrite Rmult_assoc, Rmult_comm, <- bigsum_scal.
      apply bigsum_ext. intros k' _. ring. }
  rewrite bigsum_swap.
  rewrite (bigsum_ext (h + 1) _
    (fun k' => if (k' =? k)%nat
               then hermitian_weight (h + 1) k' * nth k' kernel 0 * bigsum (2 * h) (fun l => nth l x 0 * cos (angle (2 * h) l k'))
                    * / INR (2 * h) * (INR (2 * h) / hermitian_weight (h + 1) k')
               else 0)).
  2:{ intros k' Hk'. rewrite bigsum_plus, !bigsum_scal.
      rewrite gram_cos_cos, gram_sin_cos by (try assumption; lia).
      destruct (k' =? k)%nat; ring. }
  rewrite (bigsum_single (h + 1) k); [| lia |].
  - rewrite Nat.eqb_refl. field. split; lra.
  - intros k' _ Hne. destruct (Nat.eqb_spec k' k); [contradiction|reflexivity].
Qed.

Lemma filtered_sin_sum (k : nat) :
  (k <= h)%nat ->
  bigsum (2 * h) (fun l => nth l (filter_row kernel (2 * h) x) 0 * sin (angle (2 * h) l k))
  = nth k kernel 0 * bigsum (2 * h) (fun l => nth l x 0 * sin (angle (2 * h) l k)).
Proof.
  intros Hk.
  assert (Hn : INR (2 * h) <> 0) by (apply not_0_INR; lia).
  pose proof (hermitian_weight_bounds (h + 1) k) as Hw.
  rewrite (bigsum_ext (2 * h) _
    (fun l => bigsum (h + 1) (fun k' =>
       (hermitian_weight (h + 1) k' * nth k' kernel 0 * bigsum (2 * h) (fun l => nth l x 0 * cos (angle (2 * h) l k')) * / INR (2 * h))
       * (sin (angle (2 * h) l k) * cos (angle (2 * h) l k'))
       + (hermitian_weight (h + 1) k' * nth k' kernel 0 * bigsum (2 * h) (fun l => nth l x 0 * sin (angle (2 * h) l k')) * / INR (2 * h))
         * (sin (angle (2 * h) l k') * sin (angle (2 * h) l k))))).
  2:{ intros l Hl. rewrite filter_row_nth_even by exact Hl.
      unfold Rdiv. rewrite Rmult_assoc, Rmult_comm, <- bigsum_scal.
      apply bigsum_ext. intros k' _. ring. }
  rewrite bigsum_swap.
  rewrite (bigsum_ext (h + 1) _
    (fun k' => if (k' =? k)%nat
               then hermitian_weight (h + 1) k' * nth k' kernel 0 * bigsum (2 * h) (fun l => nth l x 0 * sin (angle (2 * h) l k'))
                    * / INR (2 * h)
                    * (INR (2 * h) - INR (2 * h) / hermitian_weight (h + 1) k')
               else 0)).
  2:{ intros k' Hk'. rewrite bigsum_plus, !bigsum_scal.
      rewrite gram_sin_sin, gram_sin_cos by (try assumption; lia).
      destruct (k' =? k)%nat; ring. }
  rewrite (bigsum_single (h + 1) k); [| lia |].
  - rewrite Nat.eqb_refl.
    unfold hermitian_weight. replace (h + 1 - 1)%nat with h by lia.
    destruct (Nat.eqb_spec k 0) as [K0|K0]; cbn [orb].
    + rewrite sine_sum_edge by (now left). ring.
    + destruct (Nat.eqb_spec k h) as [Kh|Kh].
      * rewrite sine_sum_edge by (now right). ring.
      * field. exact Hn.
  - intros k' _ Hne. destruct (Nat.eqb_spec k' k); [contradiction|reflexivity].
Qed.

(** The transform of the filtered row is the transform of the row times
    the kernel. *)
Lemma rfft_filter_row :
  rfft_row (filter_row kernel (2 * h) x)
  = map2 Cscale (rfft_row x) (firstn (h + 1) kernel).
Proof.
  assert (Hy : length (filter_row kernel (2 * h) x) = (2 * h)%nat).
  { rewrite length_filter_row by (rewrite ?half_double; assumption).
    now rewrite half_double. }
  apply (nth_ext _ _ (0, 0) (0, 0)).
  - rewrite length_map2, !length_rfft_row, length_firstn, Hy, length_x, half_double.
    lia.
  - intros k Hk. rewrite length_rfft_row, Hy, half_double in Hk.
    rewrite nth_rfft_row by (rewrite Hy, half_double; exact Hk).
    rewrite (nth_map2 Cscale _ _ k (0, 0) 0)
      by (rewrite ?length_rfft_row, ?length_firstn, ?length_x, ?half_double; lia).
    rewrite nth_firstn by exact Hk.
    rewrite nth_rfft_row by (rewrite length_x, half_double; exact Hk).
    rewrite Hy, length_x. unfold Cscale. cbn [fst snd].
    rewrite filtered_cos_sum, filtered_sin_sum by lia.
    f_equal; ring.
Qed.

End FilteredRow.

(** ** The kernel as the frequency response *)

Lemma create_filter_kernel_of (erf : R -> R) (self : BandpassFilterRecording) (n : nat) :
  get_sampling_frequency (_recording self) <> 0 -> (1 <= n)%nat ->
  _create_filter_kernel erf (Z.of_nat n) (get_sampling_frequency (_recording self))
    (_freq_min self) (_freq_max self) (_freq_wid self)
  = Ok (kernel_of erf self n).
Proof. intros Hfs Hn. apply kernel_is_map_gain; [exact Hfs | lia]. Qed.

Lemma map_ext_Forall {A B : Type} (f g : A -> B) (P : A -> Prop) (l : list A) :
  (forall a, P a -> f a = g a) -> Forall P l -> map f l = map g l.
Proof.
  intros H. induction 1 as [|a l Ha _ IH]; simpl; [reflexivity|].
  now rewrite H, IH.
Qed.

(** X10. For a chunk of an even number [2 h >= 2] of samples, the transform
    of what the spectral [_do_filter] returns is the transform of the chunk
    times the kernel: [rfft (_do_filter chunk) = rfft chunk * kernel[0:m]],
    with the kernel [_create_filter_kernel] returns for [2 h] samples. *)
Theorem spectrum_of_filtered_chunk (erf : R -> R)
    (filtfilt : list R -> list R -> list R -> list R)
    (self : BandpassFilterRecording) (chunk : array2 R) (channels h : nat) :
  _type self = "fft"%string ->
  get_sampling_frequency (_recording self) <> 0 ->
  has_shape chunk channels (2 * h) -> (1 <= h)%nat ->
  exists out kernel chunk_fft,
    _do_filter erf filtfilt self chunk = Ok out
    /\ _create_filter_kernel erf (Z.of_nat (2 * h))
         (get_sampling_frequency (_recording self))
         (_freq_min self) (_freq_max self) (_freq_wid self) = Ok kernel
    /\ rfft chunk = Ok chunk_fft
    /\ rfft out = Ok (mul_tile chunk_fft (firstn (width chunk_fft) kernel)).
Proof.
  intros Htype Hfs (H0 & Hw & Hrows) Hh.
  rewrite do_filter_fft by (try assumption; lia).
  rewrite create_filter_kernel_of by (try assumption; lia).
  do 3 eexists. split; [reflexivity|]. split; [reflexivity|].
  unfold rfft. cbn [width rows]. rewrite Hw, half_double.
  destruct (Nat.eqb_spec (2 * h) 0) as [E|_]; [lia|].
  split; [reflexivity|].
  unfold mul_tile. cbn [width rows]. rewrite half_double. do 2 f_equal.
  rewrite !map_map.
  apply (map_ext_Forall _ _ (fun r => length r = (2 * h)%nat)); [|exact Hrows].
  intros r Hr. apply rfft_filter_row; try assumption.
  rewrite length_kernel_of. lia.
Qed.

Lemma spectrum_of_filtered_chunk_witness :
  exists out kernel chunk_fft,
    _do_filter soft_sign pass_through
      (plain_view (silent_recording 30000) 300 6000 1000 "fft")
      (mk_array2 [[1; 2; 3; 4]] 4) = Ok out
    /\ _create_filter_kernel soft_sign (Z.of_nat (2 * 2))
         (get_sampling_frequency
            (_recording (plain_view (silent_recording 30000) 300 6000 1000 "fft")))
         300 6000 1000 = Ok kernel
    /\ rfft (mk_array2 [[1; 2; 3; 4]] 4) = Ok chunk_fft
    /\ rfft out = Ok (mul_tile chunk_fft (firstn (width chunk_fft) kernel)).
Proof.
  apply (spectrum_of_filtered_chunk soft_sign pass_through
           (plain_view (silent_recording 30000) 300 6000 1000 "fft")
           (mk_array2 [[1; 2; 3; 4]] 4) 1 2).
  - reflexivity.
  - cbn. lra.
  - unfold has_shape, shape0. cbn. repeat split. repeat constructor.
  - lia.
Defined.

(** ** Two passes apply the values under the square root *)

Lemma kernel_of_is_root (erf : R -> R) (self : BandpassFilterRecording) (n : nat) :
  kernel_of erf self n = map sqrt (power_kernel_of erf self n).
Proof. unfold kernel_of, power_kernel_of. now rewrite map_map. Qed.

Lemma power_kernel_nonnegative (erf : R -> R) (self : BandpassFilterRecording) (n : nat) :
  (forall x, -1 <= erf x <= 1) ->
  Forall (fun v => 0 <= v) (power_kernel_of erf self n).
Proof.
  intros Herf. unfold power_kernel_of. apply Forall_map, Forall_forall.
  intros k _. now apply power_gain_range.
Qed.

Lemma scale_twice_by_root (X : list C) (P : list R) :
  Forall (fun v => 0 <= v) P ->
  map2 Cscale (map2 Cscale X (map sqrt P)) (map sqrt P) = map2 Cscale X P.
Proof.
  intros HP. revert X. induction HP as [|v P Hv _ IH]; intros [|z X]; simpl;
    try reflexivity.
  rewrite IH. f_equal. unfold Cscale. cbn [fst snd].
  rewrite !Rmult_assoc, sqrt_sqrt by exact Hv. reflexivity.
Qed.

Lemma Forall_firstn {A : Type} (P : A -> Prop) (m : nat) (l : list A) :
  Forall P l -> Forall P (firstn m l).
Proof.
  intros H. revert m. induction H as [|a l Ha _ IH]; intros [|m]; simpl;
    constructor; auto.
Qed.

Lemma filter_row_twice (P : list R) (h : nat) (x : list R) :
  (1 <= h)%nat -> length x = (2 * h)%nat -> (h + 1 <= length P)%nat ->
  Forall (fun v => 0 <= v) P ->
  filter_row (map sqrt P) (2 * h) (filter_row (map sqrt P) (2 * h) x)
  = irfft_row (map2 Cscale (rfft_row x) (firstn (h + 1) P)).
Proof.
  intros Hh Hx HP Hpos.
  unfold filter_row at 1. rewrite half_double.
  rewrite rfft_filter_row by (rewrite ?length_map; assumption).
  rewrite firstn_map, scale_twice_by_root by (now apply Forall_firstn).
  reflexivity.
Qed.

(** X11. The kernel is the square root of the response: for [erf] with
    values in [-1, 1] and a chunk of an even number [2 h >= 2] of samples,
    two passes of the spectral [_do_filter] give what one pass gives that
    multiplies the spectrum by the values [val] the kernel holds before its
    final [np.sqrt]. *)
Theorem two_passes_apply_the_power_response (erf : R -> R)
    (filtfilt : list R -> list R -> list R -> list R)
    (self : BandpassFilterRecording) (chunk : array2 R) (channels h : nat) :
  (forall x, -1 <= erf x <= 1) ->
  _type self = "fft"%string ->
  get_sampling_frequency (_recording self) <> 0 ->
  has_shape chunk channels (2 * h) -> (1 <= h)%nat ->
  exists once twice chunk_fft,
    _do_filter erf filtfilt self chunk = Ok once
    /\ _do_filter erf filtfilt self once = Ok twice
    /\ rfft chunk = Ok chunk_fft
    /\ irfft (mul_tile chunk_fft
                (firstn (width chunk_fft) (power_kernel_of erf self (2 * h))))
       = Ok twice.
Proof.
  intros Herf Htype Hfs (H0 & Hw & Hrows) Hh.
  set (F := filter_row (kernel_of erf self (2 * h)) (2 * h)).
  exists (mk_array2 (map F (rows chunk)) (2 * h)),
         (mk_array2 (map F (map F (rows chunk))) (2 * h)),
         (mk_array2 (map rfft_row (rows chunk)) (h + 1)).
  split; [|split; [|split]].
  - rewrite do_filter_fft by (try assumption; lia).
    now rewrite Hw, half_double.
  - rewrite do_filter_fft by (try assumption; cbn [width]; lia).
    cbn [width rows]. now rewrite half_double.
  - unfold rfft. rewrite Hw, half_double.
    destruct (Nat.eqb_spec (2 * h) 0) as [E|_]; [lia | reflexivity].
  - unfold irfft, mul_tile. cbn [width rows].
    destruct (Nat.eqb_spec (2 * (h + 1 - 1)) 0) as [E|_]; [lia|].
    replace (2 * (h + 1 - 1))%nat with (2 * h)%nat by lia.
    do 2 f_equal. rewrite !map_map. symmetry.
    apply (map_ext_Forall _ _ (fun r => length r = (2 * h)%nat)); [|exact Hrows].
    intros r Hr. unfold F. rewrite kernel_of_is_root.
    apply filter_row_twice; try assumption.
    + unfold power_kernel_of. rewrite length_map, length_arange, Nat2Z.id. lia.
    + now apply power_kernel_nonnegative.
Qed.

Lemma two_passes_apply_the_power_response_witness :
  exists once twice chunk_fft,
    _do_filter soft_sign pass_through
      (plain_view (silent_recording 30000) 300 6000 1000 "fft")
      (mk_array2 [[1; 2; 3; 4]] 4) = Ok once
    /\ _do_filter soft_sign pass_through
         (plain_view (silent_recording 30000) 300 6000 1000 "fft") once = Ok twice
    /\ rfft (mk_array2 [[1; 2; 3; 4]] 4) = Ok chunk_fft
    /\ irfft (mul_tile chunk_fft
                (firstn (width chunk_fft)
                   (power_kernel_of soft_sign
                      (plain_view (silent_recording 30000) 300 6000 1000 "fft") (2 * 2))))
       = Ok twice.
Proof.
  apply (two_passes_apply_the_power_response soft_sign pass_through
           (plain_view (silent_recording 30000) 300 6000 1000 "fft")
           (mk_array2 [[1; 2; 3; 4]] 4) 1 2).
  - intros x. pose proof (soft_sign_range x). lra.
  - reflexivity.
  - cbn. lra.
  - unfold has_shape, shape0. cbn. repeat split. repeat constructor.
  - lia.
Defined.

(** ** A sinusoid at the frequency of a bin *)

Lemma length_sinusoid_row (n k : nat) (a b : R) : length (sinusoid_row n k a b) = n.
Proof. unfold sinusoid_row. now rewrite length_map, length_seq. Qed.

Lemma nth_sinusoid_row (n k : nat) (a b : R) (l : nat) :
  (l < n)%nat ->
  nth l (sinusoid_row n k a b) 0 = a * cos (angle n l k) + b * sin (angle n l k).
Proof. intros Hl. unfold sinusoid_row. now rewrite nth_map_seq. Qed.

Lemma filter_row_sinusoid (kernel : list R) (h k0 : nat) (a b : R) :
  (1 <= h)%nat -> (k0 <= h)%nat -> (h + 1 <= length kernel)%nat ->
  filter_row kernel (2 * h) (sinusoid_row (2 * h) k0 a b)
  = sinusoid_row (2 * h) k0 (nth k0 kernel 0 * a) (nth k0 kernel 0 * b).
Proof.
  intros Hh Hk0 Hker.
  assert (Hn : INR (2 * h) <> 0) by (apply not_0_INR; lia).
  pose proof (length_sinusoid_row (2 * h) k0 a b) as Hx.
  apply (nth_ext _ _ 0 0).
  - rewrite length_filter_row by (rewrite ?half_double; assumption).
    now rewrite half_double, length_sinusoid_row.
  - intros j Hj.
    rewrite length_filter_row in Hj by (rewrite ?half_double; assumption).
    rewrite half_double in Hj.
    rewrite filter_row_nth_even by assumption.
    rewrite nth_sinusoid_row by exact Hj.
    rewrite (bigsum_ext (h + 1) _
      (fun k => if (k0 =? k)%nat
                then hermitian_weight (h + 1) k * nth k kernel 0
                     * (a * (INR (2 * h) / hermitian_weight (h + 1) k0)
                          * cos (angle (2 * h) j k)
                        + b * (INR (2 * h) - INR (2 * h) / hermitian_weight (h + 1) k0)
                          * sin (angle (2 * h) j k))
                else 0)).
    2:{ intros k Hk.
        rewrite (bigsum_ext (2 * h)
                   (fun l => nth l (sinusoid_row (2 * h) k0 a b) 0 * cos (angle (2 * h) l k))
                   (fun l => a * (cos (angle (2 * h) l k0) * cos (angle (2 * h) l k))
                             + b * (sin (angle (2 * h) l k0) * cos (angle (2 * h) l k))))
          by (intros l Hl; rewrite nth_sinusoid_row by exact Hl; ring).
        rewrite (bigsum_ext (2 * h)
                   (fun l => nth l (sinusoid_row (2 * h) k0 a b) 0 * sin (angle (2 * h) l k))
                   (fun l => a * (sin (angle (2 * h) l k) * cos (angle (2 * h) l k0))
                             + b * (sin (angle (2 * h) l k0) * sin (angle (2 * h) l k))))
          by (intros l Hl; rewrite nth_sinusoid_row by exact Hl; ring).
        rewrite !bigsum_plus, !bigsum_scal.
        rewrite gram_cos_cos, gram_sin_sin, !gram_sin_cos by (try assumption; lia).
        destruct (k0 =? k)%nat; ring. }
    rewrite (bigsum_single (h + 1) k0); [| lia |].
    + rewrite Nat.eqb_refl.
      unfold hermitian_weight. replace (h + 1 - 1)%nat with h by lia.
      destruct (Nat.eqb_spec k0 0) as [K0|K0]; cbn [orb].
      * rewrite (sin_angle_edge h j k0) by (auto; lia). field. exact Hn.
      * destruct (Nat.eqb_spec k0 h) as [Kh|Kh].
        -- rewrite (sin_angle_edge h j k0) by (auto; lia). field. exact Hn.
        -- field. exact Hn.
    + intros k _ Hne. destruct (Nat.eqb_spec k0 k); [congruence|reflexivity].
Qed.

(** X12. The kernel is the frequency response of the spectral [_do_filter]:
    in a chunk of an even number [2 h >= 2] of samples, a row that holds a
    sinusoid [a cos + b sin] at the frequency of bin [k0 <= h] is returned
    as the same sinusoid with both amplitudes multiplied by the kernel
    entry of bin [k0]. *)
Theorem bin_sinusoid_is_scaled_by_kernel_entry (erf : R -> R)
    (filtfilt : list R -> list R -> list R -> list R)
    (self : BandpassFilterRecording) (h k0 : nat) (amplitudes : list (R * R)) :
  _type self = "fft"%string ->
  get_sampling_frequency (_recording self) <> 0 ->
  (1 <= h)%nat -> (k0 <= h)%nat ->
  exists kernel,
    _create_filter_kernel erf (Z.of_nat (2 * h))
      (get_sampling_frequency (_recording self))
      (_freq_min self) (_freq_max self) (_freq_wid self) = Ok kernel
    /\ _do_filter erf filtfilt self
         (mk_array2
            (map (fun ab => sinusoid_row (2 * h) k0 (fst ab) (snd ab)) amplitudes)
            (2 * h))
       = Ok (mk_array2
               (map (fun ab => sinusoid_row (2 * h) k0
                                 (nth k0 kernel 0 * fst ab) (nth k0 kernel 0 * snd ab))
                    amplitudes)
               (2 * h)).
Proof.
  intros Htype Hfs Hh Hk0.
  rewrite create_filter_kernel_of by (try assumption; lia).
  eexists. split; [reflexivity|].
  rewrite do_filter_fft by (try assumption; cbn [width]; lia).
  cbn [width rows]. rewrite half_double. do 2 f_equal.
  rewrite map_map. apply map_ext. intros [a b]. cbn [fst snd].
  apply filter_row_sinusoid; try assumption.
  rewrite length_kernel_of. lia.
Qed.

Lemma bin_sinusoid_is_scaled_by_kernel_entry_witness :
  exists kernel,
    _create_filter_kernel soft_sign (Z.of_nat (2 * 4))
      (get_sampling_frequency
         (_recording (plain_view (silent_recording 30000) 300 6000 1000 "fft")))
      300 6000 1000 = Ok kernel
    /\ _do_filter soft_sign pass_through
         (plain_view (silent_recording 30000) 300 6000 1000 "fft")
         (mk_array2
            (map (fun ab => sinusoid_row (2 * 4) 1 (fst ab) (snd ab)) [(1, 0); (0, 2)])
            (2 * 4))
       = Ok (mk_array2
               (map (fun ab => sinusoid_row (2 * 4) 1
                                 (nth 1 kernel 0 * fst ab) (nth 1 kernel 0 * snd ab))
                    [(1, 0); (0, 2)])
               (2 * 4)).
Proof.
  apply (bin_sinusoid_is_scaled_by_kernel_entry soft_sign pass_through
           (plain_view (silent_recording 30000) 300 6000 1000 "fft") 4 1
           [(1, 0); (0, 2)]).
  - reflexivity.
  - cbn. lra.
  - lia.
  - lia.
Defined.

(** ** Two passes against one: claim *)














(** ** One channel at a time *)

Lemma do_filter_rowwise (erf : R -> R)
    (filtfilt : list R -> list R -> list R -> list R)
    (self : BandpassFilterRecording) (w : nat) :
  (_type self = "fft"%string /\ get_sampling_frequency (_recording self) <> 0
   /\ (2 <= w)%nat)
  \/ (_type self = "butter"%string /\ exists b a, _b_a self = Some (b, a)) ->
  exists F w',
    forall rs, _do_filter erf filtfilt self (mk_array2 rs w)
               = Ok (mk_array2 (map F rs) w').
Proof.
  intros [(Htype & Hfs & Hw)|(Htype & b & a & Hba)].
  - exists (filter_row (kernel_of erf self w) w), (2 * (w / 2))%nat. intros rs.
    now rewrite do_filter_fft by (try assumption; cbn [width]; lia).
  - exists (filtfilt b a), w. intros rs.
    now rewrite (do_filter_butter erf filtfilt self _ b a Htype Hba).
Qed.

(** X13. Channels are filtered independently: a request for several
    channels returns, for each of them, the row that a request for this
    channel alone returns, in the spectral branch (while the padded window
    has two samples) and in the recursive one. *)
Theorem channels_are_filtered_independently (erf : R -> R)
    (filtfilt : list R -> list R -> list R -> list R)
    (_read_chunk : RecordingExtractor -> Z -> Z -> list Z -> result (array2 R))
    (self : BandpassFilterRecording) (signal : Z -> Z -> R)
    (start_frame end_frame : Z) (channel_ids : list Z) (c : nat) :
  (_type self = "fft"%string /\ get_sampling_frequency (_recording self) <> 0
   /\ (start_frame - 5998 <= end_frame)%Z)
  \/ (_type self = "butter"%string /\ exists b a, _b_a self = Some (b, a)) ->
  reads_signal _read_chunk (_recording self) signal ->
  (c < length channel_ids)%nat ->
  exists out one,
    filter_chunk erf filtfilt _read_chunk self start_frame end_frame channel_ids = Ok out
    /\ filter_chunk erf filtfilt _read_chunk self start_frame end_frame
         [nth c channel_ids 0%Z] = Ok one
    /\ rows one = [nth c (rows out) []]
    /\ width one = width out.
Proof.
  intros Hbranch Hread Hc.
  destruct (do_filter_rowwise erf filtfilt self
              (Z.to_nat (end_frame + 3000 - (start_frame - 3000))))
    as (F & w' & HF).
  { destruct Hbranch as [(Ht & Hfs & Hw)|Hb]; [left|right; exact Hb].
    repeat split; try assumption. lia. }
  unfold filter_chunk. cbv zeta. rewrite !Hread. cbn [bind].
  unfold window. rewrite !HF. cbn [bind].
  do 2 eexists. split; [reflexivity|]. split; [reflexivity|].
  unfold slice_cols. cbn [rows width map]. split; [|reflexivity].
  rewrite !map_map.
  now rewrite (nth_map_in _ channel_ids c 0%Z) by exact Hc.
Qed.

Lemma channels_are_filtered_independently_witness :
  exists out one,
    filter_chunk soft_sign pass_through zero_filled_read
      (plain_view ramp_recording 300 6000 1000 "fft") 0 100 [0%Z; 1%Z] = Ok out
    /\ filter_chunk soft_sign pass_through zero_filled_read
         (plain_view ramp_recording 300 6000 1000 "fft") 0 100
         [nth 1 [0%Z; 1%Z] 0%Z] = Ok one
    /\ rows one = [nth 1 (rows out) []]
    /\ width one = width out.
Proof.
  apply (channels_are_filtered_independently soft_sign pass_through zero_filled_read
           (plain_view ramp_recording 300 6000 1000 "fft")
           (sample_or_zero ramp_recording) 0 100 [0%Z; 1%Z] 1).
  - left. split; [reflexivity|]. split; [cbn; lra | lia].
  - apply zero_filled_read_signal.
  - cbn. lia.
Defined.

(** ** The value at a frame and the request that asks for it *)

(** X14. For a spectral view, two requests of the same even length whose
    padded windows both hold every frame where the signal is not zero
    return the same value at every frame they share: the value at a frame
    does not depend on where the request starts. *)
Theorem value_at_a_frame_is_independent_of_the_request (erf : R -> R)
    (filtfilt : list R -> list R -> list R -> list R)
    (_read_chunk : RecordingExtractor -> Z -> Z -> list Z -> result (array2 R))
    (self : BandpassFilterRecording) (signal : Z -> Z -> R) (channel_ids : list Z)
    (start1 end1 start2 end2 lo hi : Z) (h : nat) :
  _type self = "fft"%string ->
  get_sampling_frequency (_recording self) <> 0 ->
  reads_signal _read_chunk (_recording self) signal ->
  (start1 < end1)%Z -> (end1 - start1 = end2 - start2)%Z ->
  Z.to_nat (end1 - start1 + 6000) = (2 * h)%nat ->
  (forall c t, ~ (lo <= t < hi)%Z -> signal c t = 0) ->
  (start1 - 3000 <= lo)%Z -> (hi <= end1 + 3000)%Z ->
  (start2 - 3000 <= lo)%Z -> (hi <= end2 + 3000)%Z ->
  exists first second,
    filter_chunk erf filtfilt _read_chunk self start1 end1 channel_ids = Ok first
    /\ filter_chunk erf filtfilt _read_chunk self start2 end2 channel_ids = Ok second
    /\ forall c t,
         (c < length channel_ids)%nat ->
         (start1 <= t < end1)%Z -> (start2 <= t < end2)%Z ->
         nth (Z.to_nat (t - start1)) (nth c (rows first) []) 0
         = nth (Z.to_nat (t - start2)) (nth c (rows second) []) 0.
Proof.
  intros Htype Hfs Hread Hlt Hlen Hn Hzero Hlo1 Hhi1 Hlo2 Hhi2.
  destruct (filter_chunk_fft_values erf filtfilt _read_chunk self signal start1 end1
              channel_ids h Htype Hfs Hread Hlt Hn)
    as (first & Hfirst & _ & Hv1).
  destruct (filter_chunk_fft_values erf filtfilt _read_chunk self signal start2 end2
              channel_ids h Htype Hfs Hread)
    as (second & Hsecond & _ & Hv2); [lia | rewrite <- Hlen; exact Hn |].
  exists first, second. split; [exact Hfirst|]. split; [exact Hsecond|].
  intros c t Hc Ht1 Ht2.
  rewrite Hv1, Hv2 by lia. f_equal.
  destruct (Z_lt_le_dec lo hi) as [Hlh|Hlh].
  - rewrite (bigsum_support (2 * h) (Z.to_nat (lo - (start1 - 3000))) (Z.to_nat (hi - lo)))
      by (try lia; intros l Hl Hout; rewrite Hzero by lia; ring).
    rewrite (bigsum_support (2 * h) (Z.to_nat (lo - (start2 - 3000))) (Z.to_nat (hi - lo))
               (fun l => signal _ (start2 - 3000 + Z.of_nat l)%Z * _))
      by (try lia; intros l Hl Hout; rewrite Hzero by lia; ring).
    apply bigsum_ext. intros u Hu. f_equal.
    + f_equal. lia.
    + apply circ_kernel_shift. lia.
  - rewrite !bigsum_zero; [reflexivity | |];
      intros l _; rewrite Hzero by lia; ring.
Qed.

Lemma value_at_a_frame_is_independent_of_the_request_witness :
  exists first second,
    filter_chunk soft_sign pass_through zero_filled_read
      (plain_view ramp_recording 300 6000 1000 "fft") 2000 5000 [0%Z; 1%Z] = Ok first
    /\ filter_chunk soft_sign pass_through zero_filled_read
         (plain_view ramp_recording 300 6000 1000 "fft") 2500 5500 [0%Z; 1%Z] = Ok second
    /\ forall c t,
         (c < length [0%Z; 1%Z])%nat ->
         (2000 <= t < 5000)%Z -> (2500 <= t < 5500)%Z ->
         nth (Z.to_nat (t - 2000)) (nth c (rows first) []) 0
         = nth (Z.to_nat (t - 2500)) (nth c (rows second) []) 0.
Proof.
  apply (value_at_a_frame_is_independent_of_the_request soft_sign pass_through
           zero_filled_read (plain_view ramp_recording 300 6000 1000 "fft")
           (sample_or_zero ramp_recording) [0%Z; 1%Z] 2000 5000 2500 5500
           0 8000 (Z.to_nat 4500)); try lia.
  - reflexivity.
  - cbn. lra.
  - apply zero_filled_read_signal.
  - intros c t Ht. unfold ramp_recording. rewrite sample_or_zero_recording_of.
    destruct (Z.leb_spec 0 t); destruct (Z.ltb_spec t 8000);
      cbn [andb]; try reflexivity.
    lia.
Defined.

(** ** What construction leaves in the view *)

Lemma init_butter_stable (butter : Z -> list R -> result (list R * list R))
    (roots : list R -> list C)
    (recording : RecordingExtractor) (freq_min freq_max freq_wid : R)
    (order : Z) (chunk_size : option Z) (cache_chunks : bool) (dtype : option string)
    (b a : list R) :
  butter order [freq_min / (get_sampling_frequency recording / 2);
                freq_max / (get_sampling_frequency recording / 2)] = Ok (b, a) ->
  all_inside_unit_circle (roots a) = true ->
  exists view,
    __init__ butter roots recording freq_min freq_max freq_wid "butter" order
      chunk_size cache_chunks dtype = Ok view.
Proof.
  intros Hdesign Hall. unfold __init__.
  rewrite String.eqb_refl, Hdesign. cbn [bind snd]. rewrite Hall. cbn [negb bind].
  eexists. reflexivity.
Qed.

(** X15. Every view the constructor returns keeps the type and the
    recording it was given and is marked as filtered. If the type is
    ['butter'] the view holds the coefficients the design returned for the
    band [freq_min / (fs / 2), freq_max / (fs / 2)], every root of their
    denominator is strictly inside the unit circle, and [_do_filter] applies
    [filtfilt] with these coefficients to every row: the missing-attribute
    error is out of reach. For every other type no coefficients are held. *)
Theorem constructed_view_holds_its_design (erf : R -> R)
    (butter : Z -> list R -> result (list R * list R)) (roots : list R -> list C)
    (filtfilt : list R -> list R -> list R -> list R)
    (recording : RecordingExtractor) (freq_min freq_max freq_wid : R)
    (filter_type : string) (order : Z) (chunk_size : option Z) (cache_chunks : bool)
    (dtype : option string) (view : BandpassFilterRecording) :
  __init__ butter roots recording freq_min freq_max freq_wid filter_type order
    chunk_size cache_chunks dtype = Ok view ->
  _type view = filter_type
  /\ _recording view = recording
  /\ is_filtered view = true
  /\ (filter_type = "butter"%string ->
      exists b a,
        butter order [freq_min / (get_sampling_frequency recording / 2);
                      freq_max / (get_sampling_frequency recording / 2)] = Ok (b, a)
        /\ _b_a view = Some (b, a)
        /\ (forall z, In z (roots a) -> Cabs z < 1)
        /\ forall chunk,
             _do_filter erf filtfilt view chunk
             = Ok (mk_array2 (map (filtfilt b a) (rows chunk)) (width chunk)))
  /\ (filter_type <> "butter"%string -> _b_a view = None).
Proof.
  unfold __init__. intros Hinit.
  destruct (String.eqb filter_type "butter") eqn:Htype.
  - apply String.eqb_eq in Htype. subst filter_type.
    destruct (butter order _) as [[b a]|e] eqn:Hdesign; [|discriminate].
    cbn [bind snd] in Hinit.
    destruct (all_inside_unit_circle (roots a)) eqn:Hall; [|discriminate].
    cbn [negb bind] in Hinit. injection Hinit as <-.
    repeat split; try reflexivity.
    + intros _. exists b, a. split; [reflexivity|]. split; [reflexivity|].
      split; [now apply all_inside_true|].
      intros chunk. unfold _do_filter. reflexivity.
    + intros Hn. now elim Hn.
  - cbn [bind] in Hinit. injection Hinit as <-.
    repeat split; try reflexivity.
    intros ->. discriminate.
Qed.

Lemma constructed_view_holds_its_design_witness :
  exists view,
    __init__ one_pole_design linear_roots ramp_recording 300 6000 1000 "butter" 3
      (Some 30000%Z) false None = Ok view
    /\ exists b a,
         _b_a view = Some (b, a)
         /\ forall chunk,
              _do_filter soft_sign pass_through view chunk
              = Ok (mk_array2 (map (pass_through b a) (rows chunk)) (width chunk)).
Proof.
  assert (Hall : all_inside_unit_circle
                   (linear_roots [1; - nth 0 [300 / (30000 / 2); 6000 / (30000 / 2)] 0])
                 = true).
  { apply all_inside_true. intros z [<-|[]]. unfold Cabs. cbn [fst snd nth].
    replace (- - (300 / (30000 / 2)) / 1 * (- - (300 / (30000 / 2)) / 1) + 0 * 0)
      with ((1 / 50) * (1 / 50)) by field.
    rewrite sqrt_square by lra. lra. }
  destruct (init_butter_stable one_pole_design linear_roots ramp_recording 300 6000 1000 3
              (Some 30000%Z) false None _ _ eq_refl Hall) as (view & Hinit).
  exists view. split; [exact Hinit|].
  destruct (constructed_view_holds_its_design soft_sign one_pole_design linear_roots
              pass_through ramp_recording 300 6000 1000 "butter" 3 (Some 30000%Z) false
              None view Hinit) as (_ & _ & _ & Hb & _).
  destruct (Hb eq_refl) as (b & a & _ & Hba & _ & Hdo).
  exists b, a. split; [exact Hba | exact Hdo].
Defined.

(** X16. When the design function refuses the band, construction with type
    ['butter'] fails with the design's error, and so does [bandpass_filter],
    unless both cache flags are set: then the assertion fails first. No view
    and no cache is returned in either case. *)
Theorem refused_band_fails_construction
    (butter : Z -> list R -> result (list R * list R))
    (roots : list R -> list C) (CacheT : Type)
    (CacheRecordingExtractor : BandpassFilterRecording -> option Z -> result CacheT)
    (recording : RecordingExtractor) (freq_min freq_max freq_wid : R)
    (order : Z) (chunk_size : option Z)
    (cache_to_file cache_chunks : bool) (dtype : option string) (e : exn) :
  butter order [freq_min / (get_sampling_frequency recording / 2);
                freq_max / (get_sampling_frequency recording / 2)] = Raise e ->
  __init__ butter roots recording freq_min freq_max freq_wid "butter" order
    chunk_size cache_chunks dtype = Raise e
  /\ bandpass_filter butter roots CacheT CacheRecordingExtractor recording
       freq_min freq_max freq_wid "butter" order chunk_size
       cache_to_file cache_chunks dtype
     = Raise (if cache_to_file && cache_chunks
              then AssertionError "if cache_to_file cache_chunks should be False"
              else e).
Proof.
  intros Hdesign.
  assert (Hinit : __init__ butter roots recording freq_min freq_max freq_wid "butter" order
                    chunk_size cache_chunks dtype = Raise e).
  { unfold __init__. rewrite String.eqb_refl, Hdesign. reflexivity. }
  split; [exact Hinit|].
  unfold bandpass_filter.
  destruct cache_to_file, cache_chunks; cbn [negb andb bind];
    try reflexivity; now rewrite Hinit.
Qed.

Lemma refused_band_fails_construction_witness :
  bandpass_filter
    (fun _ _ => Raise (ValueError "Digital filter critical frequencies must be 0 < Wn < 1"))
    linear_roots unit (fun _ _ => Ok tt) ramp_recording 300 20000 1000 "butter" 3
    (Some 30000%Z) true false None
  = Raise (ValueError "Digital filter critical frequencies must be 0 < Wn < 1").
Proof.
  exact (proj2 (refused_band_fails_construction
                  (fun _ _ => Raise
                     (ValueError "Digital filter critical frequencies must be 0 < Wn < 1"))
                  linear_roots unit (fun _ _ => Ok tt) ramp_recording 300 20000 1000 3
                  (Some 30000%Z) true false None _ eq_refl)).
Defined.
